(** * Aether: the request-matching and moderation pipeline of [src/App.jsx]

    A shallow embedding of the handlers of [App.jsx] that decide what a
    submission does: [fetchGemini], [SpeakerAI.handleSend], [ChatRoom.send]
    and its live query, [ListenerHub.acceptRequest], and the start-up effect
    of [AppContent].

    Conventions of the embedding.
    - A JavaScript string is a [string] of code units below 256 (Latin-1).
      On that range [toLowerCase] keeps the length of the text, and the
      regular expression flags of the source ([/i], no [/u]) fold ASCII
      letters only.  Texts that are merely carried around (the canned reply)
      are opaque.
    - A JavaScript number holding a time in milliseconds is an integer [Z].
      The embedding follows the source on the integers below 2^53 in size,
      among which every [Date] value lies: there [parseInt], [toString],
      the subtraction and the divisions under [Math.floor] of the source
      are exact.  Larger numbers, which the source rounds to a double, are
      outside the embedding; the definitions give the exact integer there,
      and a theorem about a stored numeral read back by [parseInt] bounds
      it.
    - React state is a record, a state setter is a record update, a handler
      is a function from the state it closes over to the new state and the
      timers it schedules.
    - The document store is a finite map from document identifiers to
      documents, a document is a finite map from field names to values.
      What the server contributes to a write (the generated identifier and
      the server timestamp) is an explicit argument of the write.
    - An [async] function is the list of the atomic store operations it
      awaits, in program order; two concurrent calls are an interleaving of
      their lists. *)

From Stdlib Require Import ZArith List String Ascii Bool Lia DecimalString DecimalPos.
From stdpp Require Import base gmap strings list sorting.

Open Scope string_scope.
Open Scope list_scope.
Open Scope Z_scope.

(** ** JavaScript strings and numbers *)

Module Js.

Definition code (c : ascii) : N := N_of_ascii c.

Definition inRange (lo hi : N) (c : ascii) : bool :=
  ((lo <=? code c) && (code c <=? hi))%N.

(** [WhiteSpace] and [LineTerminator] of ECMAScript, below 256:
    TAB, LF, VT, FF, CR, SP and NBSP. *)
Definition isWhiteSpace (c : ascii) : bool :=
  inRange 9 13 c || (code c =? 32)%N || (code c =? 160)%N.

Fixpoint trimStart (s : string) : string :=
  match s with
  | EmptyString => EmptyString
  | String c s' => if isWhiteSpace c then trimStart s' else s
  end.

Fixpoint trimEnd (s : string) : string :=
  match s with
  | EmptyString => EmptyString
  | String c s' =>
      match trimEnd s' with
      | EmptyString => if isWhiteSpace c then EmptyString else String c EmptyString
      | t => String c t
      end
  end.

(** [String.prototype.trim]. *)
Definition trim (s : string) : string := trimEnd (trimStart s).

(** Truthiness of a string: only the empty string is falsy. *)
Definition truthy (s : string) : bool :=
  match s with EmptyString => false | _ => true end.

(** [String.prototype.toLowerCase], one code unit at a time: the letters
    A-Z, and the Latin-1 capitals U+00C0..U+00DE without the
    multiplication sign U+00D7. *)
Definition lowerChar (c : ascii) : ascii :=
  if inRange 65 90 c || (inRange 192 222 c && negb (code c =? 215)%N)
  then ascii_of_N (code c + 32)
  else c.

Fixpoint toLowerCase (s : string) : string :=
  match s with
  | EmptyString => EmptyString
  | String c s' => String (lowerChar c) (toLowerCase s')
  end.

(** Every code unit of the text is white space: the texts that [trim]
    empties. *)
Fixpoint allWhite (s : string) : bool :=
  match s with
  | EmptyString => true
  | String c s' => isWhiteSpace c && allWhite s'
  end.

(** [String.prototype.includes]. *)
Fixpoint includes (s kw : string) : bool :=
  String.prefix kw s ||
  match s with
  | EmptyString => false
  | String _ s' => includes s' kw
  end.

(** The text contains the term as a substring, up to the case of its
    letters. *)
Definition containsIgnoringCase (text term : string) : Prop :=
  exists pre w post, text = pre +:+ w +:+ post /\ toLowerCase w = toLowerCase term.

(** The character occurs in the text. *)
Fixpoint hasChar (c : ascii) (s : string) : bool :=
  match s with
  | EmptyString => false
  | String x s' => Ascii.eqb x c || hasChar c s'
  end.

(** [Number.prototype.toString] of an integer below 2^53 in size (a
    larger number is printed from its rounded value). *)
Definition numberToString (z : Z) : string :=
  NilEmpty.string_of_int (Z.to_int z).

(** Value of a digit in radix 10 or 16. *)
Definition digitValue (radix : N) (c : ascii) : option N :=
  (if inRange 48 57 c then Some (code c - 48)
   else if (radix =? 16) && inRange 97 102 c then Some (code c - 87)
   else if (radix =? 16) && inRange 65 70 c then Some (code c - 55)
   else None)%N.

(** The longest prefix of digits, read left to right; [None] when the
    text does not start with a digit. *)
Fixpoint parseDigits (radix : N) (acc : option N) (s : string) : option N :=
  match s with
  | EmptyString => acc
  | String c s' =>
      match digitValue radix c with
      | Some d => parseDigits radix (Some (default 0 acc * radix + d)%N) s'
      | None => acc
      end
  end.

(** The number a decimal numeral adds to the digits read before it. *)
Fixpoint uintValue (d : Decimal.uint) (n : N) : N :=
  match d with
  | Decimal.Nil => n
  | Decimal.D0 l => uintValue l (n * 10 + 0)
  | Decimal.D1 l => uintValue l (n * 10 + 1)
  | Decimal.D2 l => uintValue l (n * 10 + 2)
  | Decimal.D3 l => uintValue l (n * 10 + 3)
  | Decimal.D4 l => uintValue l (n * 10 + 4)
  | Decimal.D5 l => uintValue l (n * 10 + 5)
  | Decimal.D6 l => uintValue l (n * 10 + 6)
  | Decimal.D7 l => uintValue l (n * 10 + 7)
  | Decimal.D8 l => uintValue l (n * 10 + 8)
  | Decimal.D9 l => uintValue l (n * 10 + 9)
  end%N.

Definition stripHexPrefix (s : string) : option string :=
  match s with
  | String "0" (String "x" s') => Some s'
  | String "0" (String "X" s') => Some s'
  | _ => None
  end.

Definition parseMagnitude (s : string) : option N :=
  match stripHexPrefix s with
  | Some s' => parseDigits 16 None s'
  | None => parseDigits 10 None s
  end.

(** [parseInt(s)] without a radix; [None] is [NaN].  The result is the
    integer the numeral denotes, which is the number of the source while
    it is below 2^53 in size (a larger one is rounded to a double). *)
Definition parseInt (s : string) : option Z :=
  match trimStart s with
  | EmptyString => None
  | String c s' =>
      if Ascii.eqb c "-" then (fun n => - Z.of_N n) <$> parseMagnitude s'
      else if Ascii.eqb c "+" then Z.of_N <$> parseMagnitude s'
      else Z.of_N <$> parseMagnitude (String c s')
  end.

End Js.

(** ** Regular expressions, as far as [RegExp.prototype.test] needs them

  [test] only asks whether some substring of the text is matched, so the
  priorities of the backtracking matcher do not show: an expression is
  read as the set of its words. *)

Module RegExp.

Inductive regex : Type :=
| Void
| Eps
| Cls (p : ascii -> bool)
| Seq (r1 r2 : regex)
| Alt (r1 r2 : regex)
| Star (r : regex).

(** The words of an expression. *)
Inductive lang : regex -> string -> Prop :=
| lang_eps : lang Eps EmptyString
| lang_cls p c : p c = true -> lang (Cls p) (String c EmptyString)
| lang_seq r1 r2 u v : lang r1 u -> lang r2 v -> lang (Seq r1 r2) (u +:+ v)
| lang_alt_l r1 r2 u : lang r1 u -> lang (Alt r1 r2) u
| lang_alt_r r1 r2 u : lang r2 u -> lang (Alt r1 r2) u
| lang_star_nil r : lang (Star r) EmptyString
| lang_star_app r u v : lang r u -> lang (Star r) v -> lang (Star r) (u +:+ v).

(** Quantifiers of the surface syntax. *)
Definition Opt (r : regex) : regex := Alt r Eps.
Definition Plus (r : regex) : regex := Seq r (Star r).

Fixpoint Rep (n : nat) (r : regex) : regex :=
  match n with
  | O => Eps
  | S n' => Seq r (Rep n' r)
  end.

(** [r{0,n}] *)
Fixpoint UpTo (n : nat) (r : regex) : regex :=
  match n with
  | O => Eps
  | S n' => Opt (Seq r (UpTo n' r))
  end.

(** [r{n,m}] and [r{n,}] *)
Definition Range (n m : nat) (r : regex) : regex := Seq (Rep n r) (UpTo (m - n) r).
Definition AtLeast (n : nat) (r : regex) : regex := Seq (Rep n r) (Star r).

(** All code units of the model. *)
Definition allChars : list ascii :=
  Eval vm_compute in map ascii_of_nat (seq 0 256).

(** [Canonicalize] with [IgnoreCase] and without [Unicode]: the upper-case
    form, when it is one code unit and does not turn a non-ASCII character
    into an ASCII one.  U+00B5, U+00DF and U+00FF stay as they are: their
    upper-case forms are not Latin-1 characters, and no other Latin-1
    character shares them. *)
Definition canonicalize (c : ascii) : ascii :=
  if Js.inRange 97 122 c || (Js.inRange 224 254 c && negb (Js.code c =? 247)%N)
  then ascii_of_N (Js.code c - 32)
  else c.

(** A character of the pattern, under [/i]. *)
Definition chr (c : ascii) : regex :=
  Cls (fun ch => Ascii.eqb (canonicalize ch) (canonicalize c)).

(** A character class of the pattern, under [/i]: [ch] is matched when
    some member of the class has the canonical form of [ch]. *)
Definition cls (p : ascii -> bool) : regex :=
  Cls (fun ch =>
         let k := canonicalize ch in
         existsb (fun a => if p a then Ascii.eqb (canonicalize a) k else false) allChars).

Fixpoint str (s : string) : regex :=
  match s with
  | EmptyString => Eps
  | String c s' => Seq (chr c) (str s')
  end.

(** Class escapes. *)
Definition digit (c : ascii) : bool := Js.inRange 48 57 c.
Definition space (c : ascii) : bool := Js.isWhiteSpace c.
Definition word (c : ascii) : bool :=
  Js.inRange 97 122 c || Js.inRange 65 90 c || Js.inRange 48 57 c || Ascii.eqb c "_".
Definition oneOf (s : string) (c : ascii) : bool :=
  existsb (Ascii.eqb c) (list_ascii_of_string s).

(** Every character of the text is in the class. *)
Fixpoint allOf (p : ascii -> bool) (s : string) : bool :=
  match s with
  | EmptyString => true
  | String c s' => p c && allOf p s'
  end.

(** *** Matching by derivatives *)

Fixpoint nullable (r : regex) : bool :=
  match r with
  | Void => false
  | Eps => true
  | Cls _ => false
  | Seq r1 r2 => nullable r1 && nullable r2
  | Alt r1 r2 => nullable r1 || nullable r2
  | Star _ => true
  end.

Definition mkSeq (r1 r2 : regex) : regex :=
  match r1, r2 with
  | Void, _ => Void
  | _, Void => Void
  | Eps, _ => r2
  | _, _ => Seq r1 r2
  end.

Definition mkAlt (r1 r2 : regex) : regex :=
  match r1, r2 with
  | Void, _ => r2
  | _, Void => r1
  | _, _ => Alt r1 r2
  end.

Fixpoint deriv (c : ascii) (r : regex) : regex :=
  match r with
  | Void => Void
  | Eps => Void
  | Cls p => if p c then Eps else Void
  | Seq r1 r2 =>
      mkAlt (mkSeq (deriv c r1) r2) (if nullable r1 then deriv c r2 else Void)
  | Alt r1 r2 => mkAlt (deriv c r1) (deriv c r2)
  | Star r1 => mkSeq (deriv c r1) (Star r1)
  end.

Definition isVoid (r : regex) : bool :=
  match r with Void => true | _ => false end.

(** Some prefix of [s] is a word of [r]. *)
Fixpoint matchPrefix (r : regex) (s : string) : bool :=
  nullable r ||
  match s with
  | EmptyString => false
  | String c s' =>
      let r' := deriv c r in
      if isVoid r' then false else matchPrefix r' s'
  end.

(** [r.test(s)] for an expression without anchors: a match may start at
    any position. *)
Fixpoint test (r : regex) (s : string) : bool :=
  matchPrefix r s ||
  match s with
  | EmptyString => false
  | String _ s' => test r s'
  end.

End RegExp.

(** ** The document store *)

Module Firestore.

(** Field values.  [VServerTimestamp] is the sentinel returned by
    [serverTimestamp()]; the server replaces it when it commits the
    write, so it never occurs in a stored document. *)
Inductive value : Type :=
| VStr (s : string)
| VTime (t : Z)
| VServerTimestamp.

#[global] Instance value_eq_dec : EqDecision value.
Proof. solve_decision. Defined.

(** A document, and equally a JavaScript object built from one. *)
Abbreviation doc := (gmap string value).

(** What the server decides when it commits an [addDoc]. *)
Record commit : Type := { autoId : string; serverTime : Z }.

Record db : Type := {
  requests : gmap string doc;
  rooms : gmap string (gmap string doc)
}.

Definition empty : db := {| requests := ∅; rooms := ∅ |}.

Definition resolve (t : Z) (v : value) : value :=
  match v with
  | VServerTimestamp => VTime t
  | _ => v
  end.

Definition messagesOf (roomId : string) (d : db) : gmap string doc :=
  default ∅ (rooms d !! roomId).

(** [addDoc(collection(db, "requests"), data)] *)
Definition addRequest (data : doc) (w : commit) (d : db) : db :=
  {| requests := <[autoId w := resolve (serverTime w) <$> data]> (requests d);
     rooms := rooms d |}.

(** [addDoc(collection(db, "rooms", roomId, "messages"), data)] *)
Definition addMessage (roomId : string) (data : doc) (w : commit) (d : db) : db :=
  {| requests := requests d;
     rooms := <[roomId := <[autoId w := resolve (serverTime w) <$> data]> (messagesOf roomId d)]>
                (rooms d) |}.

(** [deleteDoc(doc(db, "requests", id))]; deleting a document that does
    not exist succeeds and changes nothing. *)
Definition deleteRequest (id : string) (d : db) : db :=
  {| requests := delete id (requests d); rooms := rooms d |}.

(** The order of the store on field values: a timestamp sorts before a
    string, timestamps by time, strings lexicographically. *)
Definition value_le (v1 v2 : value) : Prop :=
  match v1, v2 with
  | VServerTimestamp, _ => True
  | _, VServerTimestamp => False
  | VTime t1, VTime t2 => (t1 <= t2)%Z
  | VTime _, VStr _ => True
  | VStr _, VTime _ => False
  | VStr s1, VStr s2 => String.le s1 s2
  end.

#[global] Instance value_le_dec : RelDecision value_le.
Proof. intros [s1|t1|] [s2|t2|]; simpl; apply _. Defined.

(** Documents in the order of [orderBy(field, "asc")]: by the field,
    then by document identifier. *)
Definition field_le (field : string) (x y : string * doc) : Prop :=
  match x.2 !! field, y.2 !! field with
  | Some v1, Some v2 =>
      if decide (v1 = v2) then String.le x.1 y.1 else value_le v1 v2
  | None, _ => True
  | Some _, None => False
  end.

#[global] Instance field_le_dec field : RelDecision (field_le field).
Proof.
  intros x y. unfold field_le.
  destruct (x.2 !! field), (y.2 !! field); try case_decide; apply _.
Defined.

(** [where(field, "==", v)] *)
Definition whereEq (field : string) (v : value) (c : gmap string doc) : gmap string doc :=
  filter (fun kd => kd.2 !! field = Some v) c.

(** [orderBy(field, "asc")]: only documents that have the field are
    returned. *)
Definition orderByAsc (field : string) (c : gmap string doc) : list (string * doc) :=
  merge_sort (field_le field)
    (map_to_list (filter (fun kd => is_Some (kd.2 !! field)) c)).

Definition orderByDesc (field : string) (c : gmap string doc) : list (string * doc) :=
  reverse (orderByAsc field c).

(** [{ id: doc.id, ...doc.data() }]: a field [id] of the data wins. *)
Definition snapshotObject (kd : string * doc) : doc :=
  kd.2 ∪ {[ "id" := VStr kd.1 ]}.

(** A field of an object inside a template literal. *)
Definition timestampToString (t : Z) : string :=
  "Timestamp(seconds=" +:+ Js.numberToString (t / 1000) +:+
  ", nanoseconds=" +:+ Js.numberToString ((t mod 1000) * 1000000) +:+ ")".

Definition toTemplate (v : option value) : string :=
  match v with
  | None => "undefined"
  | Some (VStr s) => s
  | Some (VTime t) => timestampToString t
  | Some VServerTimestamp => "[object Object]"
  end.

End Firestore.

(** ** The signed-in user, as the auth provider yields it *)

Record User : Type := { uid : string; displayName : option string }.

(** [a || b] on a string that may be [null]. *)
Definition orElse (a : option string) (b : string) : string :=
  match a with
  | Some s => if Js.truthy s then s else b
  | None => b
  end.

(** ** [fetchGemini] *)

Module Gemini.

(** What happens to the body of a response whose headers have arrived:
    [response.json()] settles [after] milliseconds later, or never.
    [BodyText t] stands for a parsed body in which
    [data.candidates?.[0]?.content?.parts?.[0]?.text] is the string [t],
    [BodyNoText] for one in which that path ends in [undefined], and
    [BodyThrows] for a rejected [json()] or a [null] body. *)
Inductive body : Type :=
| BodyText (after : Z) (t : string)
| BodyNoText (after : Z)
| BodyThrows (after : Z)
| BodyStalls.

(** What the network does with the request, in milliseconds after the
    call: the promise of [fetch] is rejected, or fulfilled when the
    response headers arrive, or stays pending. *)
Inductive network : Type :=
| FetchRejects (after : Z)
| Headers (after : Z) (b : body)
| NoAnswer.

(** How an [await fetchGemini(..)] ends: settled [at] some time after the
    call with text or [null], or never. *)
Inductive outcome : Type :=
| Settled (at_ms : Z) (result : option string)
| Pending.

Definition timeout : Z := 5000.

Definition keyUsable (key : option string) : bool :=
  match key with
  | Some k => negb (String.length k <? 20)%nat
  | None => false
  end.

(** [x || null] *)
Definition orNull (t : string) : option string :=
  if Js.truthy t then Some t else None.

Definition fetchGemini (key : option string) (prompt : string) (net : network) : outcome :=
  if negb (keyUsable key) then Settled 0 None
  else
    match net with
    | FetchRejects t =>
        if (t <? timeout)%Z then Settled t None else Settled timeout None
    | NoAnswer => Settled timeout None
    | Headers t b =>
        if (t <? timeout)%Z then
          (* [clearTimeout(timeoutId)], then [await response.json()] *)
          match b with
          | BodyText d txt => Settled (t + d) (orNull txt)
          | BodyNoText d => Settled (t + d) None
          | BodyThrows d => Settled (t + d) None
          | BodyStalls => Pending
          end
        else Settled timeout None
    end.

End Gemini.

(** ** [SpeakerAI] *)

Module SpeakerAI.
Import RegExp Firestore.

Inductive role : Type := RoleUser | RoleAssistant.

Record message : Type := { mrole : role; content : string }.

Record state : Type := {
  input : string;
  messages : list message;
  loading : bool;
  matching : bool;
  warning : string;
  emergencyModal : bool
}.

Definition initial : state :=
  {| input := "";
     messages := [ {| mrole := RoleAssistant;
                      content := "Welcome to Aether's quiet space. I am here to listen. What's on your mind today?" |} ];
     loading := false; matching := false; warning := ""; emergencyModal := false |}.

Definition setInput (v : string) (s : state) : state :=
  {| input := v; messages := messages s; loading := loading s;
     matching := matching s; warning := warning s; emergencyModal := emergencyModal s |}.
Definition setMessages (f : list message -> list message) (s : state) : state :=
  {| input := input s; messages := f (messages s); loading := loading s;
     matching := matching s; warning := warning s; emergencyModal := emergencyModal s |}.
Definition setLoading (v : bool) (s : state) : state :=
  {| input := input s; messages := messages s; loading := v;
     matching := matching s; warning := warning s; emergencyModal := emergencyModal s |}.
Definition setMatching (v : bool) (s : state) : state :=
  {| input := input s; messages := messages s; loading := loading s;
     matching := v; warning := warning s; emergencyModal := emergencyModal s |}.
Definition setWarning (v : string) (s : state) : state :=
  {| input := input s; messages := messages s; loading := loading s;
     matching := matching s; warning := v; emergencyModal := emergencyModal s |}.
Definition setEmergencyModal (v : bool) (s : state) : state :=
  {| input := input s; messages := messages s; loading := loading s;
     matching := matching s; warning := warning s; emergencyModal := v |}.

(** [/(?:\+?\d{1,3}[-.\s]?)?\(?\d{3}\)?[-.\s]?\d{3}[-.\s]?\d{4}|[\w.%+-]+@[\w.-]+\.[a-zA-Z]{2,}|(wa\.me|instagram\.|t\.me|facebook\.)/i] *)
Definition separator : regex := cls (fun c => oneOf "-." c || space c).

Definition phonePattern : regex :=
  Seq (Opt (Seq (Opt (chr "+")) (Seq (Range 1 3 (cls digit)) (Opt separator))))
 (Seq (Opt (chr "("))
 (Seq (Rep 3 (cls digit))
 (Seq (Opt (chr ")"))
 (Seq (Opt separator)
 (Seq (Rep 3 (cls digit))
 (Seq (Opt separator)
      (Rep 4 (cls digit)))))))).

Definition emailPattern : regex :=
  Seq (Plus (cls (fun c => word c || oneOf ".%+-" c)))
 (Seq (chr "@")
 (Seq (Plus (cls (fun c => word c || oneOf ".-" c)))
 (Seq (chr ".")
      (AtLeast 2 (cls (fun c => Js.inRange 97 122 c || Js.inRange 65 90 c)))))).

Definition linkPattern : regex :=
  Alt (str "wa.me") (Alt (str "instagram.") (Alt (str "t.me") (str "facebook."))).

Definition privacyPattern : regex :=
  Alt phonePattern (Alt emailPattern linkPattern).

Definition riskKeywords : list string :=
  ["suicide"; "kill myself"; "end it all"; "hurt myself"; "die"; "self-harm"].

Definition privacyWarning : string :=
  "Privacy Shield: Sharing contacts or external links is forbidden for your safety.".

(** The reply used when the text-generation service yields nothing. *)
Definition cannedResponse : string :=
  "تم تشفير كلماتك.. أنا ببحث لك دلوقتي عن شخص حقيقي يقدر يسمعك ويفهمك بجد.".

(** What [setTimeout] was given. *)
Inductive task : Type :=
| ClearWarning
| Respond (userInput : string).

Definition timer : Type := Z * task.

Definition handleSend (s : state) : state * list timer :=
  if negb (Js.truthy (Js.trim (input s))) then (s, [])
  else if test privacyPattern (input s) then
    (setWarning privacyWarning s, [(5000, ClearWarning)])
  else if existsb (fun kw => Js.includes (Js.toLowerCase (input s)) kw) riskKeywords then
    (setEmergencyModal true s, [])
  else
    (setLoading true
       (setInput ""
          (setMessages (fun _ => messages s ++ [ {| mrole := RoleUser; content := input s |} ]) s)),
     [(1500, Respond (input s))]).

Definition quote : string := String (ascii_of_N 34) EmptyString.
Definition newline : string := String (ascii_of_N 10) EmptyString.

Definition prompt (userInput : string) : string :=
  "You are Aether AI, a supportive listener for an Egyptian user. They said: " +:+
  quote +:+ userInput +:+ quote +:+ ". " +:+ newline +:+
  "        Respond in Egyptian Arabic (Ammiya). Be deeply empathetic, poetic, and acknowledge their feelings. " +:+ newline +:+
  "        Tell them you are finding a real soul to listen to them. Keep it mysterious yet very comforting. " +:+ newline +:+
  "        IMPORTANT: Respond in 1 brief sentence.".

Definition aiResponse (realAI : option string) : string := orElse realAI cannedResponse.

(** The record of a new request. *)
Definition pendingRequest (u : User) (summary : string) : doc :=
  {[ "speakerId" := VStr (uid u);
     "speakerName" := VStr (orElse (displayName u) "Anonymous");
     "summary" := VStr summary;
     "status" := VStr "pending";
     "timestamp" := VServerTimestamp ]}.

(** The callback of the 1500 ms timer, from the point where
    [await fetchGemini(..)] has yielded [realAI]. *)
Definition respondWith (user : option User) (realAI : option string) (w : commit)
           (sd : state * db) : state * db :=
  let s1 := setLoading false
              (setMessages (fun prev => prev ++ [ {| mrole := RoleAssistant;
                                                       content := aiResponse realAI |} ]) sd.1) in
  let d1 := match user with
            | Some u => addRequest (pendingRequest u (aiResponse realAI)) w sd.2
            | None => sd.2
            end in
  (setMatching true s1, d1).

(** The environment of one run of a timer callback. *)
Record env : Type := {
  user : option User;
  apiKey : option string;
  net : Gemini.network;
  write : commit
}.

(** Running a timer callback on the state [sd] in which its [await]
    resumes; [None] when it never resumes. *)
Definition runTask (e : env) (t : task) (sd : state * db) : option (state * db) :=
  match t with
  | ClearWarning => Some (setWarning "" sd.1, sd.2)
  | Respond userInput =>
      match Gemini.fetchGemini (apiKey e) (prompt userInput) (net e) with
      | Gemini.Settled _ realAI => Some (respondWith (user e) realAI (write e) sd)
      | Gemini.Pending => None
      end
  end.

End SpeakerAI.

(** ** The storage of the browser *)

Abbreviation localStorage := (gmap string string).

(** ** [ChatRoom] *)

Module ChatRoom.
Import Firestore.

Record state : Type := {
  messages : list doc;
  input : string
}.

Definition toxicityKeywords : list string :=
  ["shut up"; "idiot"; "stupid"; "hate"; "die"; "ugly"; "useless"; "harass"; "kill"].

(** The parameter of the route, which may be missing, is truthy. *)
Definition hasRoom (roomId : option string) : bool :=
  match roomId with
  | Some r => Js.truthy r
  | None => false
  end.

(** The live query of the room: documents ascending by [timestamp]. *)
Definition watch (roomId : string) (d : db) : list doc :=
  snapshotObject <$> orderByAsc "timestamp" (messagesOf roomId d).

(** The effect that subscribes to the room: what a snapshot of the store
    [d] makes of the component. *)
Definition onSnapshot (roomId : option string) (d : db) (s : state) : state :=
  match roomId with
  | Some r => if Js.truthy r then {| messages := watch r d; input := input s |} else s
  | None => s
  end.

Definition chatMessage (u : User) (text : string) : doc :=
  {[ "senderId" := VStr (uid u);
     "senderName" := VStr (orElse (displayName u) "Me");
     "content" := VStr text;
     "timestamp" := VServerTimestamp ]}.

(** Everything [send] can touch. *)
Record world : Type := {
  ui : state;
  storage : localStorage;
  store : db;
  reloaded : bool
}.

Definition banDuration : Z := 86400000.

(** [send], called at client time [now]; [w] is what the server decides
    if a message is written. *)
Definition send (user : option User) (roomId : option string) (now : Z) (w : commit)
           (x : world) : world :=
  if negb (Js.truthy (Js.trim (input (ui x)))) || negb (bool_decide (is_Some user))
     || negb (hasRoom roomId)
  then x
  else
    match user, roomId with
    | Some u, Some r =>
        if existsb (fun kw => Js.includes (Js.toLowerCase (input (ui x))) kw) toxicityKeywords
        then {| ui := ui x;
                storage := <["ban_expiry" := Js.numberToString (now + banDuration)]> (storage x);
                store := store x;
                reloaded := true |}
        else {| ui := {| messages := messages (ui x); input := "" |};
                storage := storage x;
                store := addMessage r (chatMessage u (input (ui x))) w (store x);
                reloaded := reloaded x |}
    | _, _ => x
    end.

(** The [onChange] of the input box. *)
Definition setInput (v : string) (x : world) : world :=
  {| ui := {| messages := messages (ui x); input := v |};
     storage := storage x; store := store x; reloaded := reloaded x |}.

(** A text that [send] lets through. *)
Definition allowedText (t : string) : bool :=
  Js.truthy (Js.trim t) &&
  negb (existsb (fun kw => Js.includes (Js.toLowerCase t) kw) toxicityKeywords).

(** One post: a participant types [text] and sends it at client time
    [clock]; [server] is what the server decides for the write. *)
Record post : Type := {
  sender : User;
  text : string;
  clock : Z;
  server : commit
}.

Definition typeAndSend (roomId : string) (x : world) (p : post) : world :=
  send (Some (sender p)) (Some roomId) (clock p) (server p) (setInput (text p) x).

Definition postAll (roomId : string) (posts : list post) (x : world) : world :=
  foldl (typeAndSend roomId) x posts.

(** The document a post leaves in the room, under its identifier, and the
    message it is read back as. *)
Definition stored (p : post) : string * doc :=
  (autoId (server p), resolve (serverTime (server p)) <$> chatMessage (sender p) (text p)).

Definition delivered (p : post) : doc := snapshotObject (stored p).

(** The time of a message, and the order of a snapshot. *)
Definition timeOf (m : doc) : option Z :=
  match m !! "timestamp" with
  | Some (VTime t) => Some t
  | _ => None
  end.

Definition ascending (a b : doc) : Prop :=
  exists ta tb, timeOf a = Some ta /\ timeOf b = Some tb /\ (ta <= tb)%Z.

End ChatRoom.

(** ** [ListenerHub] *)

Module ListenerHub.
Import Firestore.

(** The live query of the hub: pending requests, newest first. *)
Definition watchPending (d : db) : list doc :=
  snapshotObject <$> orderByDesc "timestamp" (whereEq "status" (VStr "pending") (requests d)).

Definition roomIdOf (req : doc) (u : User) (now : Z) : string :=
  toTemplate (req !! "speakerId") +:+ "_" +:+ uid u +:+ "_" +:+ Js.numberToString now.

Definition systemMessage : doc :=
  {[ "senderId" := VStr "system";
     "senderName" := VStr "Aether";
     "content" := VStr "Connection Established. Speak freely.";
     "timestamp" := VServerTimestamp ]}.

(** [{ ...req, id: req.id, status: 'accepted', roomId, listenerId, timestamp }];
    a field whose value is [undefined] is not written. *)
Definition acceptedRequest (req : doc) (u : User) (roomId : string) : doc :=
  <["timestamp" := VServerTimestamp]>
    (<["listenerId" := VStr (uid u)]>
       (<["roomId" := VStr roomId]>
          (<["status" := VStr "accepted"]> req))).

(** One call of [acceptRequest]: the store operations it awaits, in
    program order, and the route it navigates to afterwards.  [w1] and
    [w2] are what the server decides for its two writes.  Without a
    string [req.id] the reference of the document to delete cannot be
    built and the call stops after the room has been created. *)
Record call : Type := {
  operations : list (db -> db);
  navigates : option string
}.

Definition acceptRequest (user : option User) (req : doc) (now : Z) (w1 w2 : commit) : call :=
  match user with
  | None => {| operations := []; navigates := None |}
  | Some u =>
      let roomId := roomIdOf req u now in
      match req !! "id" with
      | Some (VStr id) =>
          {| operations := [ addMessage roomId systemMessage w1;
                             deleteRequest id;
                             addRequest (acceptedRequest req u roomId) w2 ];
             navigates := Some ("/chat/" +:+ roomId) |}
      | _ =>
          {| operations := [ addMessage roomId systemMessage w1 ];
             navigates := None |}
      end
  end.

(** Running store operations one after the other. *)
Definition run (ops : list (db -> db)) (d : db) : db :=
  foldl (fun acc op => op acc) d ops.

(** All ways two calls can take turns at the store. *)
Fixpoint interleavings {A : Type} (l1 : list A) : list A -> list (list A) :=
  fix inner (l2 : list A) : list (list A) :=
    match l1, l2 with
    | [], _ => [l2]
    | _, [] => [l1]
    | x :: l1', y :: l2' =>
        (cons x <$> interleavings l1' l2) ++ (cons y <$> inner l2')
    end.

(** [l] takes its elements from [l1] and [l2], keeping the order of each. *)
Inductive merges {A : Type} : list A -> list A -> list A -> Prop :=
| merges_nil_l (l : list A) : merges [] l l
| merges_nil_r (l : list A) : merges l [] l
| merges_l (x : A) (l1 l2 l : list A) : merges l1 l2 l -> merges (x :: l1) l2 (x :: l)
| merges_r (y : A) (l1 l2 l : list A) : merges l1 l2 l -> merges l1 (y :: l2) (y :: l).

End ListenerHub.

(** ** [AppContent] *)

Module AppContent.

Record state : Type := {
  isBanned : bool;
  banTimeRemaining : string
}.

Definition initial : state := {| isBanned := false; banTimeRemaining := "" |}.

(** The effect run once when the client starts, at client time [now], a
    [Date] value.  The remaining time, the days and the hours are the
    numbers of the source while the stored expiry is below 2^53 in size and
    [now] is not negative. *)
Definition onStart (now : Z) (sl : state * localStorage) : state * localStorage :=
  match sl.2 !! "ban_expiry" with
  | Some expiry =>
      if Js.truthy expiry then
        match Js.parseInt expiry with
        | Some e =>
            let remaining := e - now in
            if 0 <? remaining then
              let days := remaining / (1000 * 60 * 60 * 24) in
              let hours := (remaining / (1000 * 60 * 60)) mod 24 in
              ({| isBanned := true;
                  banTimeRemaining :=
                    Js.numberToString days +:+ "d " +:+ Js.numberToString hours +:+ "h" |},
               sl.2)
            else (sl.1, delete "ban_expiry" sl.2)
        | None => (sl.1, delete "ban_expiry" sl.2)
        end
      else sl
  | None => sl
  end.

(** What [AppContent] renders. *)
Inductive view : Type :=
| AccessRevoked (expiresIn : string)
| Surface.

Definition render (s : state) : view :=
  if isBanned s then AccessRevoked (banTimeRemaining s) else Surface.

End AppContent.

(** ** The request ledger as the handlers write it *)

Module Ledger.
Import Firestore.

(** One atomic write of a handler to the store: the record of a
    submission, one store operation of an [acceptRequest] call, or a chat
    message.  The server gives a new request record an identifier that is
    not in use. *)
Inductive writes : db -> db -> Prop :=
| writes_submit (u : User) (realAI : option string) (w : commit) (s : SpeakerAI.state) (d : db) :
    requests d !! autoId w = None ->
    writes d (SpeakerAI.respondWith (Some u) realAI w (s, d)).2
| writes_accept (user : option User) (req : doc) (now : Z) (w1 w2 : commit)
                (op : db -> db) (d : db) :
    requests d !! autoId w2 = None ->
    In op (ListenerHub.operations (ListenerHub.acceptRequest user req now w1 w2)) ->
    writes d (op d)
| writes_post (user : option User) (roomId : option string) (now : Z) (w : commit)
              (x : ChatRoom.world) :
    writes (ChatRoom.store x) (ChatRoom.store (ChatRoom.send user roomId now w x)).

(** The stores the handlers can produce from the empty one. *)
Definition reachable (d : db) : Prop := rtc writes empty d.

(** The shape of a request record. *)
Definition wellFormed (r : doc) : Prop :=
  (r !! "status" = Some (VStr "pending") -> r !! "roomId" = None) /\
  (r !! "status" = Some (VStr "accepted") ->
   is_Some (r !! "roomId") /\ is_Some (r !! "listenerId")).

End Ledger.

(** ** Collections outside the matching core *)

Module Collections.
Import Firestore.

(** [addDoc(collection(db, name), data)] and [deleteDoc(doc(db, name, id))]
    on one top-level collection. *)
Definition addDoc (data : doc) (w : commit) (c : gmap string doc) : gmap string doc :=
  <[autoId w := resolve (serverTime w) <$> data]> c.

Definition deleteDoc (id : string) (c : gmap string doc) : gmap string doc :=
  delete id c.

(** The documents of a query without [orderBy]: by document identifier. *)
Definition name_le (x y : string * doc) : Prop := String.le x.1 y.1.

#[global] Instance name_le_dec : RelDecision name_le.
Proof. intros x y. unfold name_le. apply _. Defined.

Definition byName (c : gmap string doc) : list (string * doc) :=
  merge_sort name_le (map_to_list c).

(** Truthiness of a field value: a string unless it is empty, and every
    timestamp object. *)
Definition truthyValue (v : value) : bool :=
  match v with
  | VStr s => Js.truthy s
  | _ => true
  end.

End Collections.

(** ** [Navbar] *)

Module Navbar.
Import Firestore.

(** [s.docs.length] of the query for pending requests. *)
Definition requestCount (d : db) : nat :=
  size (whereEq "status" (VStr "pending") (requests d)).

Definition badgeShown (d : db) : bool := (0 <? requestCount d)%nat.

End Navbar.

(** ** The subscription of [SpeakerAI] to its accepted requests *)

Module SpeakerWatch.
Import Firestore.

(** [where("speakerId", "==", uid), where("status", "==", "accepted")] *)
Definition acceptedOf (u : User) (d : db) : list (string * doc) :=
  Collections.byName
    (whereEq "status" (VStr "accepted") (whereEq "speakerId" (VStr (uid u)) (requests d))).

(** What a snapshot of the store makes the effect do: the route it
    navigates to, if any.  Only the first document of the snapshot is
    looked at. *)
Definition onSnapshot (matching : bool) (user : option User) (d : db) : option string :=
  match user with
  | Some u =>
      if matching then
        match acceptedOf u d with
        | [] => None
        | kd :: _ =>
            match kd.2 !! "roomId" with
            | Some v =>
                if Collections.truthyValue v
                then Some ("/chat/" +:+ toTemplate (Some v))
                else None
            | None => None
            end
        end
      else None
  | None => None
  end.

End SpeakerWatch.

(** ** [Auth] *)

Module Auth.

Definition alphanumeric (c : ascii) : bool :=
  Js.inRange 97 122 c || Js.inRange 65 90 c || Js.inRange 48 57 c.

(** [s.replace(/p+/g, rep)] for a class [p]: every maximal run of
    characters of the class becomes [rep].  [inRun] tells that the
    character before belongs to a run already replaced. *)
Fixpoint replaceRuns (p : ascii -> bool) (rep : string) (inRun : bool) (s : string) : string :=
  match s with
  | EmptyString => EmptyString
  | String c s' =>
      if p c then
        if inRun then replaceRuns p rep true s'
        else rep +:+ replaceRuns p rep true s'
      else String c (replaceRuns p rep false s')
  end.

(** [s.replace(/p/g, rep)] for a class [p]: every character of the class
    becomes [rep]. *)
Fixpoint replaceEach (p : ascii -> bool) (rep : string) (s : string) : string :=
  match s with
  | EmptyString => EmptyString
  | String c s' =>
      if p c then rep +:+ replaceEach p rep s' else String c (replaceEach p rep s')
  end.

Fixpoint dropChars (n : nat) (s : string) : string :=
  match n, s with
  | O, _ => s
  | S n', String _ s' => dropChars n' s'
  | S _, EmptyString => EmptyString
  end.

(** [s.replace(pat, rep)] with a string pattern, and a replacement without
    [$]: the first occurrence only. *)
Fixpoint replaceFirst (pat rep s : string) : string :=
  if String.prefix pat s then rep +:+ dropChars (String.length pat) s
  else
    match s with
    | EmptyString => EmptyString
    | String c s' => String c (replaceFirst pat rep s')
    end.

Record formData : Type := {
  username : string;
  nickname : string;
  password : string;
  role : string
}.

Record state : Type := {
  isRegistering : bool;
  error : string;
  form : formData
}.

Definition initial : state :=
  {| isRegistering := true; error := "";
     form := {| username := ""; nickname := ""; password := ""; role := "speaker" |} |}.

(** [formData.username.replace(/\s+/g, '').replace(/[^a-zA-Z0-9]/g, '')] *)
Definition cleanUsername (name : string) : string :=
  replaceEach (fun c => negb (alphanumeric c)) "" (replaceRuns Js.isWhiteSpace "" false name).

Definition email (name : string) : string := cleanUsername name +:+ "@aether.local".

(** What [handleSubmit] asks of the auth provider, in order. *)
Inductive authCall : Type :=
| CreateUser (mail pass : string)
| UpdateProfile (display : string)
| SignIn (mail pass : string).

Definition authCalls (s : state) : list authCall :=
  if isRegistering s then
    [ CreateUser (email (username (form s))) (password (form s));
      UpdateProfile (orElse (Some (nickname (form s))) (username (form s))) ]
  else
    [ SignIn (email (username (form s))) (password (form s)) ].

(** How the calls end: all fulfilled, or one rejected with a message. *)
Inductive authOutcome : Type :=
| Fulfilled
| Rejected (message : string).

(** [handleSubmit]: the new state and the route it navigates to. *)
Definition handleSubmit (o : authOutcome) (s : state) : state * option string :=
  match o with
  | Fulfilled =>
      ({| isRegistering := isRegistering s; error := ""; form := form s |}, Some "/")
  | Rejected m =>
      ({| isRegistering := isRegistering s;
          error := replaceFirst "Firebase:" "Security:" m;
          form := form s |}, None)
  end.

End Auth.

(** ** [Journal] *)

Module Journal.
Import Firestore.

Record state : Type := {
  entry : string;
  rephrased : string
}.

Definition journalEntry (u : User) (text : string) : doc :=
  {[ "userId" := VStr (uid u);
     "content" := VStr text;
     "timestamp" := VServerTimestamp ]}.

Definition prompt (text : string) : string :=
  "The user wrote this in their private sanctuary: " +:+
  SpeakerAI.quote +:+ text +:+ SpeakerAI.quote +:+ ". " +:+ SpeakerAI.newline +:+
  "    Acknowledge their feelings with extreme empathy and rephrase it in a way that makes them feel heard, validated, and poetic. " +:+ SpeakerAI.newline +:+
  "    Start with " +:+ SpeakerAI.quote +:+ "AI Reflection:" +:+ SpeakerAI.quote +:+
  ". Keep it meaningful and supportive.".

Definition sensing : string := "AI is sensing the depth of your words...".

Definition sorrowReply : string :=
  "I can feel the depth of your words. Sharing them here is the first step towards peace.".
Definition joyReply : string :=
  "Your positive energy is a beacon in the Aether. Keep shining.".
Definition fearReply : string :=
  "Take a deep breath. You are in a safe haven where no one judges your frequencies.".
Definition defaultReply : string :=
  "I hear you. This space is yours to reflect in absolute safety.".

Definition fallbackResponse (text : string) : string :=
  let lowercaseEntry := Js.toLowerCase text in
  if Js.includes lowercaseEntry "sad" || Js.includes lowercaseEntry "heavy"
     || Js.includes lowercaseEntry "pain"
  then sorrowReply
  else if Js.includes lowercaseEntry "happy" || Js.includes lowercaseEntry "joy"
          || Js.includes lowercaseEntry "great"
  then joyReply
  else if Js.includes lowercaseEntry "scared" || Js.includes lowercaseEntry "anxious"
          || Js.includes lowercaseEntry "fear"
  then fearReply
  else defaultReply.

(** [rephrase]: the state it leaves and the journal collection.  When the
    awaited call never settles, the state is the one set before it. *)
Definition rephrase (user : option User) (key : option string) (net : Gemini.network)
           (w : commit) (sj : state * gmap string doc) : state * gmap string doc :=
  match user with
  | Some u =>
      if negb (Js.truthy (Js.trim (entry sj.1))) then sj
      else
        let j := Collections.addDoc (journalEntry u (entry sj.1)) w sj.2 in
        match Gemini.fetchGemini key (prompt (entry sj.1)) net with
        | Gemini.Pending => ({| entry := entry sj.1; rephrased := sensing |}, j)
        | Gemini.Settled _ (Some result) =>
            if Js.truthy result
            then ({| entry := entry sj.1; rephrased := result |}, j)
            else ({| entry := entry sj.1;
                     rephrased := "AI Reflection: " +:+ fallbackResponse (entry sj.1) |}, j)
        | Gemini.Settled _ None =>
            ({| entry := entry sj.1;
                rephrased := "AI Reflection: " +:+ fallbackResponse (entry sj.1) |}, j)
        end
  | None => sj
  end.

End Journal.

(** ** [AdminDashboard] *)

Module Admin.
Import Firestore.

Definition criticalWords : list string := ["die"; "suicide"; "hurt"; "kill"].

(** The test of the critical watch on one journal entry; [None] when
    [e.content] is not a string and [toLowerCase] cannot be called. *)
Definition isCritical (e : doc) : option bool :=
  match e !! "content" with
  | Some (VStr c) => Some (existsb (fun w => Js.includes (Js.toLowerCase c) w) criticalWords)
  | _ => None
  end.

(** [entries.filter(..)]; [None] when the test throws on some entry. *)
Fixpoint criticalWatch (entries : list doc) : option (list doc) :=
  match entries with
  | [] => Some []
  | e :: rest =>
      match isCritical e, criticalWatch rest with
      | Some b, Some l => Some (if b then e :: l else l)
      | _, _ => None
      end
  end.

(** [deleteItem(coll, id)], after the answer to [window.confirm]. *)
Definition deleteItem (confirmed : bool) (id : string) (c : gmap string doc) : gmap string doc :=
  if confirmed then Collections.deleteDoc id c else c.

(** [clearColl(coll)]: [snapshot] is what [getDocs] returned, [c] is the
    collection when the deletions are committed. *)
Definition clearColl (confirmed : bool) (snapshot c : gmap string doc) : gmap string doc :=
  if confirmed
  then foldr (fun kd acc => Collections.deleteDoc kd.1 acc) c (map_to_list snapshot)
  else c.

End Admin.

(** ** [CommunityRoom] and [CommunityHub] *)

Module Community.
Import Firestore.

Record mood : Type := { moodKey : string; moodName : string; moodColor : string }.

Definition calm : mood :=
  {| moodKey := "calm"; moodName := "Sea of Calm"; moodColor := "#C0C0C0" |}.

Definition moods : list mood :=
  [ calm;
    {| moodKey := "void"; moodName := "The Void"; moodColor := "#444444" |};
    {| moodKey := "hope"; moodName := "Fires of Hope"; moodColor := "#888888" |};
    {| moodKey := "woods"; moodName := "Whispering Woods"; moodColor := "#666666" |} ].

(** [moods.find(m => m.id === moodId) || moods[0]] *)
Definition currentMood (moodId : string) : mood :=
  default calm (List.find (fun m => String.eqb (moodKey m) moodId) moods).

(** The placeholder of the input box. *)
Definition placeholder (moodId : string) : string :=
  "Message in #" +:+
  Auth.replaceRuns Js.isWhiteSpace "-" false (Js.toLowerCase (moodName (currentMood moodId))).

Definition echo (moodId : string) (u : User) (text : string) : doc :=
  {[ "moodId" := VStr moodId;
     "content" := VStr text;
     "timestamp" := VServerTimestamp;
     "nickname" := VStr (orElse (displayName u) "Seeker") ]}.

(** [postEcho]: the input box and the collection of echoes. *)
Definition postEcho (user : option User) (moodId : string) (w : commit)
           (ie : string * gmap string doc) : string * gmap string doc :=
  match user with
  | Some u =>
      if negb (Js.truthy (Js.trim ie.1)) then ie
      else ("", Collections.addDoc (echo moodId u ie.1) w ie.2)
  | None => ie
  end.

(** The live query of a room. *)
Definition watch (moodId : string) (echoes : gmap string doc) : list doc :=
  snapshotObject <$> orderByAsc "timestamp" (whereEq "moodId" (VStr moodId) echoes).

(** [snapshot.size] of the query of the hub for one mood. *)
Definition countOf (moodId : string) (echoes : gmap string doc) : nat :=
  size (whereEq "moodId" (VStr moodId) echoes).

(** The counters of the hub, one per mood, in the order of [moods]. *)
Definition counts (echoes : gmap string doc) : list (string * nat) :=
  (fun m => (moodKey m, countOf (moodKey m) echoes)) <$> moods.

End Community.

(** ** [Insights] *)

Module Insights.

Definition keywords : list (string * list string) :=
  [ ("calm", ["quiet"; "peace"; "calm"; "relax"; "still"; "serene"; "tranquil"]);
    ("joy", ["happy"; "love"; "content"; "great"; "smile"; "bliss"; "delight"]);
    ("sorrow", ["sad"; "pain"; "heavy"; "cry"; "dark"; "grief"; "lonely"]);
    ("hope", ["future"; "bright"; "forward"; "better"; "try"; "trust"; "light"]) ].

(** [counts[key]] after the loops: one for every entry and every word of
    the key that the entry includes. *)
Definition countOf (words : list string) (entries : list string) : nat :=
  list_sum ((fun text => length (List.filter (fun word => Js.includes text word) words))
              <$> entries).

Definition countsOf (entries : list string) : list (string * nat) :=
  (fun kw => (kw.1, countOf kw.2 entries)) <$> keywords.

Definition total (entries : list string) : nat := list_sum (snd <$> countsOf entries).

(** A share as [setData] receives it: the number [(count / total) * 100],
    which is [NaN] when both are zero. *)
Inductive share : Type :=
| Fixed (percent : nat)
| Ratio (count whole : nat).

Definition isNaN (s : share) : bool :=
  match s with
  | Ratio O O => true
  | _ => false
  end.

Record state : Type := {
  data : list (string * share);
  loading : bool
}.

Definition initial : state :=
  {| data := [ ("calm", Fixed 40); ("joy", Fixed 20); ("sorrow", Fixed 30); ("hope", Fixed 10) ];
     loading := true |}.

(** The callback of the subscription, on the contents of the user's
    journal entries. *)
Definition onSnapshot (contents : list string) (s : state) : state :=
  let entries := Js.toLowerCase <$> contents in
  {| data := match entries with
             | [] => data s
             | _ => (fun kc => (kc.1, Ratio kc.2 (total entries))) <$> countsOf entries
             end;
     loading := false |}.

End Insights.

(** * Properties *)

Import Js RegExp Firestore.

#[local] Arguments String.append !_ _ / : simpl nomatch.

(** ** Strings *)

Section Strings.

Lemma append_nil_r (s : string) : s +:+ "" = s.
Proof. induction s as [|c s IH]; simpl; [reflexivity | by rewrite IH]. Qed.

Lemma append_assoc (a b c : string) : (a +:+ b) +:+ c = a +:+ (b +:+ c).
Proof. induction a as [|x a IH]; simpl; [reflexivity | by rewrite IH]. Qed.

Lemma trimEnd_truthy (s : string) : truthy (trimEnd s) = negb (allWhite s).
Proof.
  induction s as [|c s IH]; simpl; [reflexivity|].
  destruct (trimEnd s) eqn:E; simpl in *.
  - apply (f_equal negb) in IH. rewrite negb_involutive in IH. rewrite <- IH.
    destruct (isWhiteSpace c); reflexivity.
  - apply (f_equal negb) in IH. rewrite negb_involutive in IH. rewrite <- IH.
    by rewrite andb_false_r.
Qed.

Lemma allWhite_trimStart (s : string) : allWhite (trimStart s) = allWhite s.
Proof.
  induction s as [|c s IH]; simpl; [reflexivity|].
  destruct (isWhiteSpace c) eqn:E; simpl; [exact IH | by rewrite E].
Qed.

(** [trim] leaves something exactly when the text has a character that is
    not white space. *)
Lemma trim_truthy (s : string) : truthy (trim s) = negb (allWhite s).
Proof. unfold trim. by rewrite trimEnd_truthy, allWhite_trimStart. Qed.

Lemma allWhite_app (a b : string) : allWhite (a +:+ b) = allWhite a && allWhite b.
Proof.
  induction a as [|c a IH]; simpl; [reflexivity|].
  by rewrite IH, andb_assoc.
Qed.

Lemma lowerChar_white (c : ascii) : isWhiteSpace (lowerChar c) = isWhiteSpace c.
Proof. destruct c as [[] [] [] [] [] [] [] []]; reflexivity. Qed.

Lemma allWhite_toLowerCase (s : string) : allWhite (toLowerCase s) = allWhite s.
Proof.
  induction s as [|c s IH]; simpl; [reflexivity|].
  by rewrite lowerChar_white, IH.
Qed.

Lemma toLowerCase_app (a b : string) :
  toLowerCase (a +:+ b) = toLowerCase a +:+ toLowerCase b.
Proof. induction a as [|c a IH]; simpl; [reflexivity | by rewrite IH]. Qed.

Lemma toLowerCase_split (s u v : string) :
  toLowerCase s = u +:+ v ->
  exists a b, s = a +:+ b /\ toLowerCase a = u /\ toLowerCase b = v.
Proof.
  revert s. induction u as [|c u IH]; intros s H; simpl in H.
  - exists "", s. auto.
  - destruct s as [|x s]; simpl in H; [discriminate|].
    injection H as Hc Hs. destruct (IH _ Hs) as (a & b & -> & Ha & Hb).
    exists (String x a), b. simpl. by rewrite Hc, Ha.
Qed.

Lemma prefix_spec (kw s : string) :
  String.prefix kw s = true <-> exists post, s = kw +:+ post.
Proof.
  revert s. induction kw as [|c kw IH]; intros s; simpl.
  - split; [intros _; by exists s | by destruct s].
  - destruct s as [|x s]; simpl.
    + split; [discriminate | intros [post H]; discriminate].
    + destruct (ascii_dec c x) as [->|Hne].
      * rewrite IH. split; intros [post H]; exists post; congruence.
      * split; [discriminate | intros [post H]; congruence].
Qed.

Lemma includes_spec (s kw : string) :
  includes s kw = true <-> exists pre post, s = pre +:+ kw +:+ post.
Proof.
  induction s as [|c s IH]; cbn [includes].
  - rewrite orb_false_r, prefix_spec. split.
    + intros [post H]. by exists "", post.
    + intros (pre & post & H). destruct pre; simpl in H; [by exists post | discriminate].
  - rewrite orb_true_iff, prefix_spec, IH. split.
    + intros [[post H] | (pre & post & H)].
      * by exists "", post.
      * exists (String c pre), post. simpl. by rewrite H.
    + intros (pre & post & H). destruct pre as [|x pre]; simpl in H.
      * left. by exists post.
      * right. exists pre, post. congruence.
Qed.

(** What the handlers compute, [lower.includes(kw)], is containment up to
    case for a term written in lower case. *)
Lemma includes_toLowerCase (s kw : string) :
  toLowerCase kw = kw ->
  includes (toLowerCase s) kw = true <-> containsIgnoringCase s kw.
Proof.
  intros Hkw. rewrite includes_spec. unfold containsIgnoringCase. rewrite Hkw. split.
  - intros (pre & post & H).
    destruct (toLowerCase_split _ _ _ H) as (a & b & -> & Ha & Hb).
    destruct (toLowerCase_split _ _ _ Hb) as (w & r & -> & Hw & Hr).
    by exists a, w, r.
  - intros (pre & w & post & -> & Hw).
    exists (toLowerCase pre), (toLowerCase post).
    by rewrite !toLowerCase_app, Hw.
Qed.

Lemma contains_not_blank (s kw : string) :
  containsIgnoringCase s kw -> allWhite kw = false -> allWhite s = false.
Proof.
  intros (pre & w & post & -> & Hw) Hkw.
  rewrite !allWhite_app, <- (allWhite_toLowerCase w), Hw, allWhite_toLowerCase, Hkw.
  by rewrite andb_false_r.
Qed.

End Strings.

(** ** The matcher decides the words of an expression *)

Section Matcher.

Lemma lang_Void (s : string) : ~ lang Void s.
Proof. inversion 1. Qed.

Lemma lang_Eps_inv (s : string) : lang Eps s -> s = "".
Proof. by inversion 1. Qed.

Lemma lang_Seq_inv (r1 r2 : regex) (s : string) :
  lang (Seq r1 r2) s -> exists u v, s = u +:+ v /\ lang r1 u /\ lang r2 v.
Proof. inversion 1; subst; eauto. Qed.

Lemma lang_Alt_inv (r1 r2 : regex) (s : string) :
  lang (Alt r1 r2) s -> lang r1 s \/ lang r2 s.
Proof. inversion 1; subst; auto. Qed.

Lemma lang_Seq_intro (r1 r2 : regex) (u v s : string) :
  s = u +:+ v -> lang r1 u -> lang r2 v -> lang (Seq r1 r2) s.
Proof. intros ->. apply lang_seq. Qed.

Create HintDb lang.
#[local] Hint Resolve lang_eps lang_alt_l lang_alt_r lang_star_nil : lang.

Ltac lang_inv :=
  repeat match goal with
    | H : lang Void _ |- _ => destruct (lang_Void _ H)
    | H : lang Eps _ |- _ => apply lang_Eps_inv in H; subst
    | H : lang (Seq _ _) _ |- _ =>
        apply lang_Seq_inv in H; destruct H as (? & ? & ? & ? & ?); subst
    | H : lang (Alt _ _) _ |- _ => apply lang_Alt_inv in H; destruct H
    end.

Lemma lang_mkSeq (r1 r2 : regex) (s : string) :
  lang (mkSeq r1 r2) s <-> lang (Seq r1 r2) s.
Proof.
  split.
  - destruct r1, r2; simpl; intros H; try assumption;
      first [ by destruct (lang_Void _ H)
            | by apply (lang_Seq_intro _ _ "" s); auto with lang ].
  - intros H. apply lang_Seq_inv in H as (u & v & -> & Hu & Hv).
    destruct r1, r2; simpl;
      first [ by apply lang_seq
            | by destruct (lang_Void _ Hu)
            | by destruct (lang_Void _ Hv)
            | by apply lang_Eps_inv in Hu; subst ].
Qed.

Lemma lang_mkAlt (r1 r2 : regex) (s : string) :
  lang (mkAlt r1 r2) s <-> lang (Alt r1 r2) s.
Proof.
  split.
  - destruct r1, r2; simpl; intros H; try assumption; auto with lang.
  - intros H. apply lang_Alt_inv in H as [H|H]; destruct r1, r2; simpl;
      first [ by destruct (lang_Void _ H) | by auto with lang ].
Qed.

Lemma append_empty (u v : string) : u +:+ v = "" -> u = "" /\ v = "".
Proof. destruct u; simpl; [auto | discriminate]. Qed.

Lemma nullable_spec (r : regex) : nullable r = true <-> lang r "".
Proof.
  induction r as [| |p|r1 IH1 r2 IH2|r1 IH1 r2 IH2|r IH]; simpl.
  - split; [discriminate | intros H; lang_inv].
  - split; auto with lang.
  - split; [discriminate | inversion 1].
  - rewrite andb_true_iff, IH1, IH2. split.
    + intros [H1 H2]. by apply (lang_Seq_intro _ _ "" "").
    + intros H. lang_inv.
      match goal with E : "" = _ |- _ => symmetry in E; apply append_empty in E as [-> ->] end.
      auto.
  - rewrite orb_true_iff, IH1, IH2. split; [intros []; auto with lang | intros H; lang_inv; auto].
  - split; auto with lang.
Qed.

Lemma lang_Star_cons (r : regex) (c : ascii) (s : string) :
  lang (Star r) (String c s) ->
  exists u v, s = u +:+ v /\ lang r (String c u) /\ lang (Star r) v.
Proof.
  intros H. remember (Star r) as r' eqn:Er. remember (String c s) as w eqn:Ew.
  induction H as [| | | | | |r0 u v Hu _ Hv IHv]; try discriminate.
  injection Er as ->. destruct u as [|x u]; simpl in Ew.
  - by apply IHv.
  - injection Ew as -> <-. eauto.
Qed.

Lemma deriv_spec (c : ascii) (r : regex) (s : string) :
  lang (deriv c r) s <-> lang r (String c s).
Proof.
  revert s. induction r as [| |p|r1 IH1 r2 IH2|r1 IH1 r2 IH2|r IH]; intros s; simpl.
  - split; inversion 1.
  - split; inversion 1.
  - destruct (p c) eqn:Hp; split; intros H.
    + lang_inv. by apply lang_cls.
    + inversion H; subst. auto with lang.
    + lang_inv.
    + inversion H; subst. congruence.
  - rewrite lang_mkAlt. split; intros H.
    + apply lang_Alt_inv in H as [H|H].
      * apply lang_mkSeq in H. lang_inv.
        match goal with H1 : lang (deriv c r1) ?u, H2 : lang r2 ?v |- _ =>
          apply (lang_Seq_intro _ _ (String c u) v); [reflexivity | by apply IH1 | assumption] end.
      * destruct (nullable r1) eqn:Hn; [|lang_inv].
        apply (lang_Seq_intro _ _ "" (String c s)); [reflexivity | by apply nullable_spec | by apply IH2].
    + apply lang_Seq_inv in H as (u & v & E & Hu & Hv). destruct u as [|x u]; simpl in E.
      * subst v. apply lang_alt_r. apply nullable_spec in Hu. rewrite Hu. by apply IH2.
      * injection E as <- ->. apply lang_alt_l, lang_mkSeq, lang_seq; [by apply IH1 | assumption].
  - rewrite lang_mkAlt. split; intros H.
    + apply lang_Alt_inv in H as [H|H]; [apply lang_alt_l, IH1 | apply lang_alt_r, IH2]; assumption.
    + apply lang_Alt_inv in H as [H|H]; [apply lang_alt_l, IH1 | apply lang_alt_r, IH2]; assumption.
  - rewrite lang_mkSeq. split; intros H.
    + apply lang_Seq_inv in H as (u & v & -> & Hu & Hv).
      apply (lang_star_app r (String c u) v); [by apply IH | assumption].
    + apply lang_Star_cons in H as (u & v & -> & Hu & Hv).
      apply lang_seq; [by apply IH | assumption].
Qed.

Lemma isVoid_spec (r : regex) : isVoid r = true -> r = Void.
Proof. by destruct r. Qed.

(** [matchPrefix] finds the texts that start with a word of the expression. *)
Lemma matchPrefix_spec (r : regex) (s : string) :
  matchPrefix r s = true <-> exists u v, s = u +:+ v /\ lang r u.
Proof.
  revert r. induction s as [|c s IH]; intros r; cbn [matchPrefix].
  - rewrite orb_false_r, nullable_spec. split.
    + intros H. by exists "", "".
    + intros (u & v & E & H). symmetry in E. by apply append_empty in E as [-> ->].
  - rewrite orb_true_iff, nullable_spec. split.
    + intros [H|H]; [by exists "", (String c s)|].
      destruct (isVoid (deriv c r)); [discriminate|].
      apply IH in H as (u & v & -> & H). exists (String c u), v.
      split; [reflexivity | by apply deriv_spec].
    + intros (u & v & E & H). destruct u as [|x u]; simpl in E; [by left | right].
      injection E as <- ->. apply deriv_spec in H.
      destruct (isVoid (deriv c r)) eqn:Hv.
      * apply isVoid_spec in Hv. rewrite Hv in H. lang_inv.
      * apply IH. eauto.
Qed.

(** [test] finds the texts that have a word of the expression as a
    substring. *)
Lemma test_spec (r : regex) (s : string) :
  test r s = true <-> exists pre u post, s = pre +:+ u +:+ post /\ lang r u.
Proof.
  induction s as [|c s IH]; cbn [test]; rewrite orb_true_iff, matchPrefix_spec.
  - split.
    + intros [(u & v & E & H)|]; [|discriminate]. by exists "", u, v.
    + intros (pre & u & post & E & H). left. destruct pre; [|discriminate]. simpl in E. eauto.
  - rewrite IH. split.
    + intros [(u & v & E & H)|(pre & u & post & -> & H)].
      * by exists "", u, v.
      * by exists (String c pre), u, post.
    + intros (pre & u & post & E & H). destruct pre as [|x pre]; simpl in E.
      * left. eauto.
      * injection E as <- ->. right. eauto.
Qed.

(** An expression whose words all start with a character that is not
    white space finds nothing in a blank text. *)
Lemma test_blank (r : regex) (s : string) :
  nullable r = false ->
  (forall c, isWhiteSpace c = true -> deriv c r = Void) ->
  allWhite s = true -> test r s = false.
Proof.
  intros Hn Hd. induction s as [|c s IH]; cbn [test matchPrefix allWhite]; rewrite Hn.
  - reflexivity.
  - intros [Hc Hs]%andb_true_iff. by rewrite (Hd c Hc), (IH Hs).
Qed.

End Matcher.

(** ** Printing a number and reading it back *)

Section Numbers.

Lemma parseDigits_uint (d : Decimal.uint) (n : N) :
  parseDigits 10 (Some n) (NilEmpty.string_of_uint d) = Some (uintValue d n).
Proof. revert n. induction d; intros n; simpl; auto. Qed.

Lemma uintValue_pos (d : Decimal.uint) (a : positive) :
  uintValue d (Npos a) = Npos (Pos.of_uint_acc d a).
Proof.
  revert a. induction d; intros a; simpl; [reflexivity | rewrite <- IHd; f_equal; lia ..].
Qed.

Lemma uintValue_0 (d : Decimal.uint) : uintValue d 0 = Pos.of_uint d.
Proof. induction d; simpl; auto; apply uintValue_pos. Qed.

Lemma parseMagnitude_uint (d : Decimal.uint) :
  d <> Decimal.Nil ->
  parseMagnitude (NilEmpty.string_of_uint d) = Some (Pos.of_uint d).
Proof.
  intros Hd. rewrite <- uintValue_0.
  destruct d as [|l|l|l|l|l|l|l|l|l|l]; try congruence;
    try (unfold parseMagnitude; simpl; apply parseDigits_uint).
  unfold parseMagnitude.
  destruct l; simpl; auto using parseDigits_uint.
Qed.

Lemma parseInt_unsigned (c : ascii) (s : string) :
  isWhiteSpace c = false -> Ascii.eqb c "-" = false -> Ascii.eqb c "+" = false ->
  parseInt (String c s) = Z.of_N <$> parseMagnitude (String c s).
Proof. intros H1 H2 H3. unfold parseInt. cbn [trimStart]. by rewrite H1, H2, H3. Qed.

Lemma parseInt_negative (s : string) :
  parseInt (String "-" s) = (fun n => - Z.of_N n) <$> parseMagnitude s.
Proof. reflexivity. Qed.

Lemma parseInt_uint (d : Decimal.uint) :
  d <> Decimal.Nil ->
  parseInt (NilEmpty.string_of_uint d) = Some (Z.of_N (Pos.of_uint d)) /\
  parseInt (String "-" (NilEmpty.string_of_uint d)) = Some (- Z.of_N (Pos.of_uint d)).
Proof.
  intros Hd. pose proof (parseMagnitude_uint d Hd) as H. split.
  - destruct d; try congruence; cbn [NilEmpty.string_of_uint] in *;
      rewrite parseInt_unsigned by reflexivity; by rewrite H.
  - by rewrite parseInt_negative, H.
Qed.

(** [parseInt] reads back what [toString] printed. *)
Lemma parseInt_numberToString (z : Z) : parseInt (numberToString z) = Some z.
Proof.
  unfold numberToString. destruct z as [|p|p]; simpl.
  - reflexivity.
  - destruct (parseInt_uint _ (DecimalPos.Unsigned.to_uint_nonnil p)) as [-> _].
    by rewrite DecimalPos.Unsigned.of_to.
  - destruct (parseInt_uint _ (DecimalPos.Unsigned.to_uint_nonnil p)) as [_ ->].
    by rewrite DecimalPos.Unsigned.of_to.
Qed.

Lemma numberToString_inj (a b : Z) : numberToString a = numberToString b -> a = b.
Proof.
  intros H. apply (f_equal parseInt) in H.
  rewrite !parseInt_numberToString in H. congruence.
Qed.

Lemma numberToString_truthy (z : Z) : truthy (numberToString z) = true.
Proof.
  unfold numberToString. destruct z as [|p|p]; simpl; try reflexivity.
  pose proof (DecimalPos.Unsigned.to_uint_nonnil p). by destruct (Pos.to_uint p).
Qed.

Lemma hasChar_uint (d : Decimal.uint) : hasChar "_" (NilEmpty.string_of_uint d) = false.
Proof. induction d; simpl; auto. Qed.

Lemma hasChar_numberToString (z : Z) : hasChar "_" (numberToString z) = false.
Proof. unfold numberToString. destruct z; simpl; auto using hasChar_uint. Qed.

Lemma hasChar_app (c : ascii) (a b : string) :
  hasChar c (a +:+ b) = hasChar c a || hasChar c b.
Proof. induction a as [|x a IH]; simpl; [reflexivity | by rewrite IH, orb_assoc]. Qed.

(** The part after the last underscore of a text determines the part
    before it. *)
Lemma split_last_underscore (a a' d d' : string) :
  hasChar "_" d = false -> hasChar "_" d' = false ->
  a +:+ "_" +:+ d = a' +:+ "_" +:+ d' -> a = a' /\ d = d'.
Proof.
  intros Hd Hd'. revert a'. induction a as [|c a IH]; intros [|x a'] E; simpl in E.
  - by injection E.
  - injection E as <- ->. rewrite hasChar_app in Hd. simpl in Hd.
    by rewrite orb_true_r in Hd.
  - injection E as -> <-. rewrite hasChar_app in Hd'. simpl in Hd'.
    by rewrite orb_true_r in Hd'.
  - injection E as -> E. destruct (IH _ E) as [-> ->]. auto.
Qed.

End Numbers.

(** ** The speak submission: [SpeakerAI.handleSend] *)

Section Speak.

Import SpeakerAI.

Lemma privacyPattern_white (c : ascii) :
  isWhiteSpace c = true -> deriv c privacyPattern = Void.
Proof.
  destruct c as [[] [] [] [] [] [] [] []]; intros H;
    first [ discriminate H | vm_compute; reflexivity ].
Qed.

(** A text that the privacy pattern finds something in is not blank. *)
Lemma privacy_match_not_blank (s : string) :
  test privacyPattern s = true -> allWhite s = false.
Proof.
  intros H. destruct (allWhite s) eqn:E; [|reflexivity].
  rewrite (test_blank privacyPattern s) in H; [discriminate | reflexivity | | exact E].
  apply privacyPattern_white.
Qed.

(** *** What the privacy pattern finds *)

Lemma allChars_complete (c : ascii) : In c allChars.
Proof.
  assert (existsb (Ascii.eqb c) allChars = true) as H
    by (destruct c as [[] [] [] [] [] [] [] []]; vm_compute; reflexivity).
  apply existsb_exists in H as (x & Hx & E). apply Ascii.eqb_eq in E. by subst.
Qed.

(** A class of the pattern has, under [/i], at least its own members. *)
Lemma lang_cls_member (p : ascii -> bool) (c : ascii) :
  p c = true -> lang (cls p) (String c "").
Proof.
  intros H. apply lang_cls. cbv zeta. apply existsb_exists. exists c.
  split; [apply allChars_complete|]. by rewrite H, Ascii.eqb_refl.
Qed.

Lemma canonicalize_lowerChar (c : ascii) : canonicalize (lowerChar c) = canonicalize c.
Proof. destruct c as [[] [] [] [] [] [] [] []]; reflexivity. Qed.

(** A text of the pattern finds every spelling of it, in either case. *)
Lemma lang_str (k w : string) : toLowerCase w = toLowerCase k -> lang (str k) w.
Proof.
  revert w. induction k as [|c k IH]; intros [|x w] H; simpl in H; try discriminate.
  - apply lang_eps.
  - injection H as Hc Hw. apply (lang_seq _ _ (String x "") w); [|by apply IH].
    apply lang_cls. apply Ascii.eqb_eq.
    by rewrite <- (canonicalize_lowerChar x), Hc, canonicalize_lowerChar.
Qed.

Lemma lang_Rep (p : ascii -> bool) (n : nat) (s : string) :
  String.length s = n -> allOf p s = true -> lang (Rep n (cls p)) s.
Proof.
  revert s. induction n as [|n IH]; intros [|c s] Hl Hp; simpl in *; try discriminate.
  - apply lang_eps.
  - apply andb_true_iff in Hp as [Hc Hs].
    apply (lang_seq _ _ (String c "") s); [by apply lang_cls_member | apply IH; [lia | assumption]].
Qed.

Lemma lang_Star_all (p : ascii -> bool) (s : string) :
  allOf p s = true -> lang (Star (cls p)) s.
Proof.
  induction s as [|c s IH]; simpl; [intros _; apply lang_star_nil|].
  intros [Hc Hs]%andb_true_iff.
  apply (lang_star_app _ (String c "") s); [by apply lang_cls_member | by apply IH].
Qed.

Lemma lang_Plus_all (p : ascii -> bool) (s : string) :
  s <> "" -> allOf p s = true -> lang (Plus (cls p)) s.
Proof.
  destruct s as [|c s]; [congruence|]. simpl. intros _ [Hc Hs]%andb_true_iff.
  apply (lang_seq _ _ (String c "") s); [by apply lang_cls_member | by apply lang_Star_all].
Qed.

Ltac rewrite_digit :=
  match goal with H : digit ?c = true |- context [digit ?c] => rewrite H end.

(** Ten digits in a row, anywhere in the text. *)
Lemma ten_digits_found (pre ds post : string) :
  String.length ds = 10%nat -> allOf digit ds = true ->
  test privacyPattern (pre +:+ ds +:+ post) = true.
Proof.
  intros Hl Hd. apply test_spec. exists pre, ds, post. split; [reflexivity|].
  apply lang_alt_l.
  do 10 (destruct ds as [|? ds]; [discriminate Hl|]). destruct ds; [|discriminate Hl].
  cbn [allOf] in Hd. repeat (apply andb_true_iff in Hd as [? Hd]).
  unfold phonePattern.
  apply (lang_Seq_intro _ _ "" _ _ eq_refl); [apply lang_alt_r, lang_eps|].
  apply (lang_Seq_intro _ _ "" _ _ eq_refl); [apply lang_alt_r, lang_eps|].
  match goal with |- lang _ (String ?a (String ?b (String ?c ?r))) =>
    apply (lang_Seq_intro _ _ (String a (String b (String c ""))) r _ eq_refl) end;
    [apply lang_Rep; [reflexivity | cbn [allOf]; by repeat rewrite_digit]|].
  apply (lang_Seq_intro _ _ "" _ _ eq_refl); [apply lang_alt_r, lang_eps|].
  apply (lang_Seq_intro _ _ "" _ _ eq_refl); [apply lang_alt_r, lang_eps|].
  match goal with |- lang _ (String ?a (String ?b (String ?c ?r))) =>
    apply (lang_Seq_intro _ _ (String a (String b (String c ""))) r _ eq_refl) end;
    [apply lang_Rep; [reflexivity | cbn [allOf]; by repeat rewrite_digit]|].
  apply (lang_Seq_intro _ _ "" _ _ eq_refl); [apply lang_alt_r, lang_eps|].
  apply lang_Rep; [reflexivity | cbn [allOf]; by repeat rewrite_digit].
Qed.

(** An address [local@domain.tld], anywhere in the text. *)
Lemma email_found (pre loc dom tld post : string) :
  loc <> "" -> allOf (fun c => word c || oneOf ".%+-" c) loc = true ->
  dom <> "" -> allOf (fun c => word c || oneOf ".-" c) dom = true ->
  (2 <= String.length tld)%nat ->
  allOf (fun c => Js.inRange 97 122 c || Js.inRange 65 90 c) tld = true ->
  test privacyPattern (pre +:+ (loc +:+ "@" +:+ dom +:+ "." +:+ tld) +:+ post) = true.
Proof.
  intros Hl Hlp Hd Hdp Ht Htp. apply test_spec. eexists pre, _, post. split; [reflexivity|].
  apply lang_alt_r, lang_alt_l. unfold emailPattern.
  apply lang_seq; [by apply lang_Plus_all|].
  apply (lang_seq _ _ "@"); [apply lang_cls; reflexivity|].
  apply lang_seq; [by apply lang_Plus_all|].
  apply (lang_seq _ _ "."); [apply lang_cls; reflexivity|].
  destruct tld as [|a [|b tld]]; simpl in Ht; try lia.
  simpl in Htp. apply andb_true_iff in Htp as [Ha Htp]. apply andb_true_iff in Htp as [Hb Htp].
  unfold AtLeast.
  apply (lang_seq _ _ (String a (String b "")) tld); [|by apply lang_Star_all].
  apply lang_Rep; [reflexivity | simpl; by rewrite Ha, Hb].
Qed.

(** A messenger fragment, in either case, anywhere in the text. *)
Lemma messenger_link_found (s frag : string) :
  In frag ["wa.me"; "instagram."; "t.me"; "facebook."] ->
  containsIgnoringCase s frag ->
  test privacyPattern s = true.
Proof.
  intros Hin (pre & w & post & -> & Hw). apply test_spec. exists pre, w, post.
  split; [reflexivity|]. apply lang_alt_r, lang_alt_r. unfold linkPattern.
  simpl in Hin. destruct Hin as [<-|[<-|[<-|[<-|[]]]]].
  - by apply lang_alt_l, lang_str.
  - by apply lang_alt_r, lang_alt_l, lang_str.
  - by apply lang_alt_r, lang_alt_r, lang_alt_l, lang_str.
  - by apply lang_alt_r, lang_alt_r, lang_alt_r, lang_str.
Qed.

Lemma riskKeywords_lower (kw : string) :
  In kw riskKeywords -> toLowerCase kw = kw /\ allWhite kw = false.
Proof. simpl. intros H. repeat destruct H as [<-|H]; try (split; reflexivity). destruct H. Qed.

Lemma risk_detected (text kw : string) :
  In kw riskKeywords -> containsIgnoringCase text kw ->
  existsb (fun k => includes (toLowerCase text) k) riskKeywords = true.
Proof.
  intros Hin Hc. apply existsb_exists. exists kw. split; [assumption|].
  apply includes_toLowerCase; [by apply riskKeywords_lower | assumption].
Qed.

Lemma handleSend_privacy (s : state) :
  test privacyPattern (input s) = true ->
  handleSend s = (setWarning privacyWarning s, [(5000, ClearWarning)]).
Proof.
  intros H. unfold handleSend.
  by rewrite trim_truthy, (privacy_match_not_blank _ H), H.
Qed.

End Speak.

Section Verdicts.

Import SpeakerAI.

Lemma lang_Opt_skip (r : regex) : lang (Opt r) "".
Proof. apply lang_alt_r, lang_eps. Qed.

Lemma lang_Opt_chr (c : ascii) (w : string) :
  w = "" \/ w = String c "" -> lang (Opt (chr c)) w.
Proof.
  intros [->| ->]; [apply lang_Opt_skip|].
  apply lang_alt_l, lang_cls, Ascii.eqb_refl.
Qed.

Lemma lang_Opt_separator (w : string) :
  (w = "" \/ exists c, w = String c "" /\ (oneOf "-." c || space c) = true) ->
  lang (Opt separator) w.
Proof.
  intros [->|(c & -> & H)]; [apply lang_Opt_skip|].
  by apply lang_alt_l, lang_cls_member.
Qed.

(** Digits grouped 3-3-4, with at most one separator between the groups
    and the first group in parentheses or not, anywhere in the text. *)
Lemma grouped_number_found (pre o a cl s1 b s2 c post : string) :
  (o = "" \/ o = "(") -> (cl = "" \/ cl = ")") ->
  (s1 = "" \/ exists x, s1 = String x "" /\ (oneOf "-." x || space x) = true) ->
  (s2 = "" \/ exists x, s2 = String x "" /\ (oneOf "-." x || space x) = true) ->
  String.length a = 3%nat -> allOf digit a = true ->
  String.length b = 3%nat -> allOf digit b = true ->
  String.length c = 4%nat -> allOf digit c = true ->
  test privacyPattern
    (pre +:+ (o +:+ a +:+ cl +:+ s1 +:+ b +:+ s2 +:+ c) +:+ post) = true.
Proof.
  intros Ho Hcl Hs1 Hs2 Hla Ha Hlb Hb Hlc Hc.
  apply test_spec. eexists pre, _, post. split; [reflexivity|].
  apply lang_alt_l. unfold phonePattern.
  apply (lang_Seq_intro _ _ "" _ _ eq_refl); [apply lang_Opt_skip|].
  apply lang_seq; [by apply lang_Opt_chr|].
  apply lang_seq; [by apply lang_Rep|].
  apply lang_seq; [by apply lang_Opt_chr|].
  apply lang_seq; [by apply lang_Opt_separator|].
  apply lang_seq; [by apply lang_Rep|].
  apply lang_seq; [by apply lang_Opt_separator|].
  by apply lang_Rep.
Qed.

(** The privacy verdict, field by field. *)
Lemma handleSend_warns (s : state) :
  test privacyPattern (input s) = true ->
  handleSend s =
    ({| input := input s; messages := messages s; loading := loading s;
        matching := matching s;
        warning := "Privacy Shield: Sharing contacts or external links is forbidden for your safety.";
        emergencyModal := emergencyModal s |},
     [(5000, ClearWarning)]).
Proof. intros H. by rewrite (handleSend_privacy s H). Qed.

(** The crisis verdict, field by field. *)
Lemma handleSend_escalates (s : state) (kw : string) :
  In kw riskKeywords -> containsIgnoringCase (input s) kw ->
  test privacyPattern (input s) = false ->
  handleSend s =
    ({| input := input s; messages := messages s; loading := loading s;
        matching := matching s; warning := warning s; emergencyModal := true |}, []).
Proof.
  intros Hin Hc Hp. unfold handleSend.
  rewrite trim_truthy, (contains_not_blank _ _ Hc), Hp, (risk_detected _ _ Hin Hc);
    [reflexivity | by apply riskKeywords_lower].
Qed.

End Verdicts.

(** C1 fails as the spec states it: a text with a crisis term and a phone
    number gets the privacy warning and its timer, and the escalation
    dialog stays closed. *)
Lemma crisis_with_phone_number_gets_privacy_warning :
  let s := SpeakerAI.setInput "suicide 0123456789" SpeakerAI.initial in
  containsIgnoringCase (SpeakerAI.input s) "suicide" /\
  SpeakerAI.warning (SpeakerAI.handleSend s).1 =
    "Privacy Shield: Sharing contacts or external links is forbidden for your safety." /\
  SpeakerAI.emergencyModal (SpeakerAI.handleSend s).1 = false /\
  (SpeakerAI.handleSend s).2 = [(5000, SpeakerAI.ClearWarning)].
Proof.
  split; [by exists "", "suicide", " 0123456789" | vm_compute; auto].
Qed.

(** C1, amended: for a text that contains a crisis term, [handleSend] tests
    the privacy pattern first.  When the pattern finds nothing, the verdict
    is the crisis one: the escalation dialog is open in the new state,
    nothing else of the state changes and no timer is scheduled, so nothing
    is sent or stored.  When the pattern finds something, the verdict is
    the privacy one: the warning is set, its timer is scheduled, and the
    dialog is as it was. *)
Theorem crisis_verdict_follows_privacy_check (s : SpeakerAI.state) (kw : string) :
  In kw SpeakerAI.riskKeywords ->
  containsIgnoringCase (SpeakerAI.input s) kw ->
  SpeakerAI.handleSend s =
    if test SpeakerAI.privacyPattern (SpeakerAI.input s)
    then ({| SpeakerAI.input := SpeakerAI.input s;
             SpeakerAI.messages := SpeakerAI.messages s;
             SpeakerAI.loading := SpeakerAI.loading s;
             SpeakerAI.matching := SpeakerAI.matching s;
             SpeakerAI.warning :=
               "Privacy Shield: Sharing contacts or external links is forbidden for your safety.";
             SpeakerAI.emergencyModal := SpeakerAI.emergencyModal s |},
          [(5000, SpeakerAI.ClearWarning)])
    else ({| SpeakerAI.input := SpeakerAI.input s;
             SpeakerAI.messages := SpeakerAI.messages s;
             SpeakerAI.loading := SpeakerAI.loading s;
             SpeakerAI.matching := SpeakerAI.matching s;
             SpeakerAI.warning := SpeakerAI.warning s;
             SpeakerAI.emergencyModal := true |}, []).
Proof.
  intros Hin Hc.
  destruct (test SpeakerAI.privacyPattern (SpeakerAI.input s)) eqn:Hp.
  - by apply handleSend_warns.
  - by apply (handleSend_escalates s kw).
Qed.

Lemma crisis_verdict_follows_privacy_check_witness :
  let s := SpeakerAI.setInput "I want to DIE" SpeakerAI.initial in
  SpeakerAI.emergencyModal (SpeakerAI.handleSend s).1 = true /\
  (SpeakerAI.handleSend s).2 = [].
Proof.
  intros s.
  rewrite (crisis_verdict_follows_privacy_check s "die");
    [ | simpl; auto 10 | by exists "I want to ", "DIE", "" ].
  vm_compute. auto.
Defined.

(** C4 fails as the spec states it: phone numbers of ten and eleven digits
    written in other groups than 3-3-4 are not recognised.  The text is
    taken as an ordinary message: it joins the conversation and is sent to
    the text-generation call by the timer. *)
Lemma spaced_phone_numbers_are_sent :
  let sent t :=
    ({| SpeakerAI.input := "";
        SpeakerAI.messages :=
          SpeakerAI.messages SpeakerAI.initial ++
          [ {| SpeakerAI.mrole := SpeakerAI.RoleUser; SpeakerAI.content := t |} ];
        SpeakerAI.loading := true; SpeakerAI.matching := false;
        SpeakerAI.warning := ""; SpeakerAI.emergencyModal := false |},
     [(1500, SpeakerAI.Respond t)]) in
  SpeakerAI.handleSend (SpeakerAI.setInput "010 1234 5678" SpeakerAI.initial)
    = sent "010 1234 5678" /\
  SpeakerAI.handleSend (SpeakerAI.setInput "12345 67890" SpeakerAI.initial)
    = sent "12345 67890".
Proof. vm_compute. auto. Qed.

(** C4, amended: a text is blocked for privacy, with or without a crisis
    term, when it contains digits grouped 3-3-4 with at most one separator
    (a hyphen, a dot or white space) between the groups, the first group
    in parentheses or not, so in particular ten digits in a row; or an
    address [local@domain.tld] with at least two letters at the end; or one
    of the four messenger fragments in whatever case.  The state changes
    in the warning only, so the input stays as typed; the one timer
    scheduled is due after 5000 ms; running it clears the warning and
    leaves the store as it is, so the text is never stored. *)
Theorem privacy_match_only_warns (s : SpeakerAI.state) :
  (exists pre o a cl s1 b s2 c post,
      SpeakerAI.input s = pre +:+ (o +:+ a +:+ cl +:+ s1 +:+ b +:+ s2 +:+ c) +:+ post /\
      (o = "" \/ o = "(") /\ (cl = "" \/ cl = ")") /\
      (s1 = "" \/ exists x, s1 = String x "" /\ (oneOf "-." x || space x) = true) /\
      (s2 = "" \/ exists x, s2 = String x "" /\ (oneOf "-." x || space x) = true) /\
      String.length a = 3%nat /\ allOf digit a = true /\
      String.length b = 3%nat /\ allOf digit b = true /\
      String.length c = 4%nat /\ allOf digit c = true) \/
  (exists pre loc dom tld post,
      SpeakerAI.input s = pre +:+ (loc +:+ "@" +:+ dom +:+ "." +:+ tld) +:+ post /\
      loc <> "" /\ allOf (fun c => word c || oneOf ".%+-" c) loc = true /\
      dom <> "" /\ allOf (fun c => word c || oneOf ".-" c) dom = true /\
      (2 <= String.length tld)%nat /\
      allOf (fun c => inRange 97 122 c || inRange 65 90 c) tld = true) \/
  (exists frag, In frag ["wa.me"; "instagram."; "t.me"; "facebook."] /\
      containsIgnoringCase (SpeakerAI.input s) frag) ->
  SpeakerAI.handleSend s =
    ({| SpeakerAI.input := SpeakerAI.input s;
        SpeakerAI.messages := SpeakerAI.messages s;
        SpeakerAI.loading := SpeakerAI.loading s;
        SpeakerAI.matching := SpeakerAI.matching s;
        SpeakerAI.warning :=
          "Privacy Shield: Sharing contacts or external links is forbidden for your safety.";
        SpeakerAI.emergencyModal := SpeakerAI.emergencyModal s |},
     [(5000, SpeakerAI.ClearWarning)]) /\
  forall (e : SpeakerAI.env) (d : db),
    SpeakerAI.runTask e SpeakerAI.ClearWarning ((SpeakerAI.handleSend s).1, d) =
      Some ({| SpeakerAI.input := SpeakerAI.input s;
               SpeakerAI.messages := SpeakerAI.messages s;
               SpeakerAI.loading := SpeakerAI.loading s;
               SpeakerAI.matching := SpeakerAI.matching s;
               SpeakerAI.warning := "";
               SpeakerAI.emergencyModal := SpeakerAI.emergencyModal s |}, d).
Proof.
  intros H.
  assert (test SpeakerAI.privacyPattern (SpeakerAI.input s) = true) as Hp.
  { destruct H as [(pre & o & a & cl & s1 & b & s2 & c & post & -> & Ho & Hcl & Hs1 & Hs2
                      & Hla & Ha & Hlb & Hb & Hlc & Hc)
                  |[(pre & loc & dom & tld & post & -> & H1 & H2 & H3 & H4 & H5 & H6)
                   |(frag & Hf & Hc)]].
    - by apply grouped_number_found.
    - by apply email_found.
    - by apply (messenger_link_found _ frag). }
  rewrite (handleSend_warns s Hp). split; reflexivity.
Qed.

Lemma privacy_match_only_warns_witness :
  let s := SpeakerAI.setInput "call me on (012) 345-6789" SpeakerAI.initial in
  SpeakerAI.warning (SpeakerAI.handleSend s).1 =
    "Privacy Shield: Sharing contacts or external links is forbidden for your safety." /\
  SpeakerAI.input (SpeakerAI.handleSend s).1 = "call me on (012) 345-6789".
Proof.
  intros s.
  rewrite (proj1 (privacy_match_only_warns s (or_introl
    (ex_intro _ "call me on " (ex_intro _ "(" (ex_intro _ "012" (ex_intro _ ")"
      (ex_intro _ " " (ex_intro _ "345" (ex_intro _ "-" (ex_intro _ "6789" (ex_intro _ ""
        (conj eq_refl (conj (or_intror eq_refl) (conj (or_intror eq_refl)
          (conj (or_intror (ex_intro _ " "%char (conj eq_refl eq_refl)))
            (conj (or_intror (ex_intro _ "-"%char (conj eq_refl eq_refl)))
              (conj eq_refl (conj eq_refl (conj eq_refl (conj eq_refl
                (conj eq_refl eq_refl)))))))))))))))))))))).
  split; reflexivity.
Defined.

(** ** The text-generation call: [fetchGemini] *)

Section TextGeneration.

Import Gemini.

(** Without a usable key nothing is sent. *)
Lemma fetchGemini_without_key (key : option string) (p : string) (n : network) :
  keyUsable key = false -> fetchGemini key p n = Settled 0 None.
Proof. intros H. unfold fetchGemini. by rewrite H. Qed.

(** While the headers have not arrived, the timer bounds the call: it
    settles with [null] no later than the timeout. *)
Lemma fetchGemini_no_headers_in_time (key : option string) (p : string) (n : network) :
  match n with
  | Headers t _ => timeout <= t
  | FetchRejects t => 0 <= t
  | NoAnswer => True
  end ->
  exists t, fetchGemini key p n = Settled t None /\ t <= timeout.
Proof.
  unfold fetchGemini, timeout. intros H.
  destruct (keyUsable key); simpl; [|exists 0; split; [reflexivity | lia]].
  destruct n as [t|t b|].
  - destruct (Z.ltb_spec t 5000); eexists; split; try reflexivity; lia.
  - destruct (Z.ltb_spec t 5000); [lia|]. eexists; split; [reflexivity | lia].
  - eexists; split; [reflexivity | lia].
Qed.

(** Whatever the call yields, the reply is a text that is not empty: the
    generated one, or else the canned one. *)
Lemma aiResponse_truthy (realAI : option string) :
  truthy (SpeakerAI.aiResponse realAI) = true.
Proof.
  unfold SpeakerAI.aiResponse, orElse. destruct realAI as [t|]; [|reflexivity].
  destruct (truthy t) eqn:E; [exact E | reflexivity].
Qed.

Lemma aiResponse_fallback : SpeakerAI.aiResponse None = SpeakerAI.cannedResponse.
Proof. reflexivity. Qed.

End TextGeneration.

(** C9: the timer of [fetchGemini] is cleared as soon as the headers of the
    response arrive, so the reading of the body is not bounded.  With a
    usable key and headers after 100 ms, a body that never completes leaves
    the call pending for ever, a body that completes after a minute settles
    the call after 60100 ms, and in the first case the callback of
    [handleSend] never resumes: no reply is shown. *)
Theorem body_read_outlives_the_timeout :
  let key := Some "AIzaSy-0123456789abcdefghij" in
  let s := (SpeakerAI.handleSend (SpeakerAI.setInput "I feel so heavy today" SpeakerAI.initial)).1 in
  let e := {| SpeakerAI.user := None; SpeakerAI.apiKey := key;
              SpeakerAI.net := Gemini.Headers 100 Gemini.BodyStalls;
              SpeakerAI.write := {| autoId := "r1"; serverTime := 0 |} |} in
  Gemini.fetchGemini key (SpeakerAI.prompt "I feel so heavy today")
    (Gemini.Headers 100 Gemini.BodyStalls) = Gemini.Pending /\
  Gemini.fetchGemini key (SpeakerAI.prompt "I feel so heavy today")
    (Gemini.Headers 100 (Gemini.BodyText 60000 "ok")) = Gemini.Settled 60100 (Some "ok") /\
  SpeakerAI.loading s = true /\
  SpeakerAI.runTask e (SpeakerAI.Respond "I feel so heavy today") (s, Firestore.empty) = None.
Proof. vm_compute. auto. Qed.




(** ** The suspension: [AppContent] at start-up *)

Section Suspension.

Import AppContent.

Lemma onStart_future (now e : Z) (s : state) (ls : localStorage) :
  ls !! "ban_expiry" = Some (numberToString e) -> now < e ->
  onStart now (s, ls) =
    ({| isBanned := true;
        banTimeRemaining :=
          numberToString ((e - now) / 86400000) +:+ "d " +:+
          numberToString (((e - now) / 3600000) mod 24) +:+ "h" |}, ls).
Proof.
  intros H Hlt. unfold onStart. simpl.
  rewrite H, numberToString_truthy, parseInt_numberToString.
  destruct (Z.ltb_spec 0 (e - now)); [reflexivity | lia].
Qed.

Lemma onStart_past (now e : Z) (s : state) (ls : localStorage) :
  ls !! "ban_expiry" = Some (numberToString e) -> e <= now ->
  onStart now (s, ls) = (s, delete "ban_expiry" ls).
Proof.
  intros H Hle. unfold onStart. simpl.
  rewrite H, numberToString_truthy, parseInt_numberToString.
  destruct (Z.ltb_spec 0 (e - now)); [lia | reflexivity].
Qed.

(** Days and hours are the remaining time rounded down to the hour. *)
Lemma days_hours_round_down (r : Z) :
  0 < r ->
  let days := r / 86400000 in
  let hours := (r / 3600000) mod 24 in
  0 <= days /\ 0 <= hours < 24 /\
  days * 86400000 + hours * 3600000 <= r < days * 86400000 + (hours + 1) * 3600000.
Proof.
  intros Hr days hours. subst days hours.
  replace 86400000 with (3600000 * 24) by reflexivity.
  rewrite <- Z.div_div by lia.
  pose proof (Z.div_mod r 3600000 ltac:(lia)) as Hq.
  pose proof (Z.mod_pos_bound r 3600000 ltac:(lia)) as Hqb.
  set (q := r / 3600000) in *.
  pose proof (Z.div_mod q 24 ltac:(lia)) as Hd.
  pose proof (Z.mod_pos_bound q 24 ltac:(lia)) as Hdb.
  assert (0 <= q) by (subst q; apply Z.div_pos; lia).
  assert (0 <= q / 24) by (apply Z.div_pos; lia).
  lia.
Qed.

End Suspension.

(** C7: at start-up, with the expiry [e] that a suspension stored, a time
    [now] at or after [e] leaves the surface in place and removes the stored
    key; a time before [e] replaces the surface by the notice, which shows
    the remaining time rounded down to days and hours; 26 hours before the
    expiry it shows [1d 2h].  The time is not negative, and both numbers are
    below 2^53 in size, where the numbers of the source are exact. *)
Theorem startup_respects_expiry (now e : Z) (ls : localStorage) :
  0 <= now < 9007199254740992 ->
  - 9007199254740992 < e < 9007199254740992 ->
  ls !! "ban_expiry" = Some (numberToString e) ->
  let r := AppContent.onStart now (AppContent.initial, ls) in
  (e <= now ->
     r = (AppContent.initial, delete "ban_expiry" ls) /\
     AppContent.render r.1 = AppContent.Surface) /\
  (now < e ->
     exists days hours : Z,
       r.2 = ls /\
       AppContent.render r.1 =
         AppContent.AccessRevoked (numberToString days +:+ "d " +:+ numberToString hours +:+ "h") /\
       0 <= days /\ 0 <= hours < 24 /\
       days * 86400000 + hours * 3600000 <= e - now
         < days * 86400000 + (hours + 1) * 3600000) /\
  (e = now + 26 * 3600000 -> AppContent.render r.1 = AppContent.AccessRevoked "1d 2h").
Proof.
  intros _ _ H r. subst r. repeat split.
  - by rewrite (onStart_past now e _ ls H).
  - by rewrite (onStart_past now e _ ls H).
  - intros Hlt. rewrite (onStart_future now e _ ls H Hlt).
    exists ((e - now) / 86400000), (((e - now) / 3600000) mod 24).
    split; [reflexivity|]. split; [reflexivity|].
    apply days_hours_round_down. lia.
  - intros ->. rewrite (onStart_future now _ _ ls H) by lia.
    replace (now + 26 * 3600000 - now) with 93600000 by lia. reflexivity.
Qed.

Lemma startup_respects_expiry_witness :
  AppContent.render
    (AppContent.onStart 1700000000000
       (AppContent.initial, {[ "ban_expiry" := "1700093600000" ]})).1
  = AppContent.AccessRevoked "1d 2h".
Proof.
  refine (proj2 (proj2 (startup_respects_expiry 1700000000000 1700093600000
                          {[ "ban_expiry" := "1700093600000" ]} _ _ _)) _);
    first [ lia | vm_compute; reflexivity ].
Defined.

(** ** The chat room: [ChatRoom.send] *)

Section Chat.

Import ChatRoom.

Lemma toxicityKeywords_lower (kw : string) :
  In kw toxicityKeywords -> toLowerCase kw = kw /\ allWhite kw = false.
Proof. simpl. intros H. repeat destruct H as [<-|H]; try (split; reflexivity). destruct H. Qed.

Lemma toxicity_detected (t kw : string) :
  In kw toxicityKeywords -> containsIgnoringCase t kw ->
  existsb (fun k => includes (toLowerCase t) k) toxicityKeywords = true.
Proof.
  intros Hin Hc. apply existsb_exists. exists kw. split; [assumption|].
  apply includes_toLowerCase; [by apply toxicityKeywords_lower | assumption].
Qed.

Lemma send_toxic (u : User) (r : string) (now : Z) (w : commit) (x : world) (kw : string) :
  In kw toxicityKeywords -> containsIgnoringCase (input (ui x)) kw -> truthy r = true ->
  send (Some u) (Some r) now w x =
    {| ui := ui x;
       storage := <["ban_expiry" := numberToString (now + banDuration)]> (storage x);
       store := store x;
       reloaded := true |}.
Proof.
  intros Hin Hc Hr. unfold send, hasRoom.
  rewrite trim_truthy, (contains_not_blank _ _ Hc), Hr, (toxicity_detected _ _ Hin Hc);
    [reflexivity | by apply toxicityKeywords_lower].
Qed.

Lemma send_allowed (u : User) (r : string) (now : Z) (w : commit) (x : world) :
  allowedText (input (ui x)) = true -> truthy r = true ->
  send (Some u) (Some r) now w x =
    {| ui := {| messages := messages (ui x); input := "" |};
       storage := storage x;
       store := addMessage r (chatMessage u (input (ui x))) w (store x);
       reloaded := reloaded x |}.
Proof.
  unfold allowedText. intros [Ht Hk]%andb_true_iff Hr. unfold send, hasRoom.
  apply negb_true_iff in Hk. by rewrite Ht, Hr, Hk.
Qed.

Lemma send_signed_out (roomId : option string) (now : Z) (w : commit) (x : world) :
  send None roomId now w x = x.
Proof. unfold send. by destruct (negb (truthy (trim (input (ui x))))). Qed.

End Chat.

(** C3 fails as the spec states it: without a signed-in user [send] returns
    at its first line, so a text with a toxicity term changes nothing, and
    no suspension is stored. *)
Lemma toxic_text_without_user_changes_nothing :
  let x := {| ChatRoom.ui := {| ChatRoom.messages := []; ChatRoom.input := "you are an IDIOT" |};
              ChatRoom.storage := ∅;
              ChatRoom.store := Firestore.empty;
              ChatRoom.reloaded := false |} in
  let x' := ChatRoom.send None (Some "s1_l1_1700000000000") 1700000000000
              {| autoId := "m1"; serverTime := 1700000000001 |} x in
  containsIgnoringCase (ChatRoom.input (ChatRoom.ui x)) "idiot" /\
  x' = x /\
  ChatRoom.storage x' !! "ban_expiry" = None /\
  ChatRoom.reloaded x' = false.
Proof.
  split; [by exists "you are an ", "IDIOT", "" | vm_compute; auto].
Qed.

(** C3, amended: when a signed-in user sends, in a room with an identifier,
    a text that contains a toxicity term, the store is left as it is, the
    expiry [now + 86400000] is stored under [ban_expiry], the page is
    reloaded, and every start-up before the expiry shows the notice instead
    of the surface.  Without a signed-in user [send] changes nothing. *)
Theorem toxic_send_by_user_suspends
    (u : User) (r : string) (now : Z) (w : commit) (x : ChatRoom.world) (kw : string) :
  In kw ChatRoom.toxicityKeywords ->
  containsIgnoringCase (ChatRoom.input (ChatRoom.ui x)) kw ->
  truthy r = true ->
  let x' := ChatRoom.send (Some u) (Some r) now w x in
  ChatRoom.store x' = ChatRoom.store x /\
  ChatRoom.storage x' !! "ban_expiry" = Some (numberToString (now + 86400000)) /\
  ChatRoom.reloaded x' = true /\
  (forall now', now' < now + 86400000 ->
     exists remaining,
       AppContent.render (AppContent.onStart now' (AppContent.initial, ChatRoom.storage x')).1
       = AppContent.AccessRevoked remaining) /\
  ChatRoom.send None (Some r) now w x = x.
Proof.
  intros Hin Hc Hr x'. subst x'. rewrite (send_toxic u r now w x kw Hin Hc Hr). simpl.
  assert (<["ban_expiry" := numberToString (now + ChatRoom.banDuration)]> (ChatRoom.storage x)
            !! "ban_expiry" = Some (numberToString (now + 86400000))) as Hs
    by apply lookup_insert_eq.
  repeat split; [exact Hs| |apply send_signed_out].
  intros now' Hlt. rewrite (onStart_future now' _ _ _ Hs Hlt). eauto.
Qed.

Lemma toxic_send_by_user_suspends_witness :
  let x := {| ChatRoom.ui := {| ChatRoom.messages := []; ChatRoom.input := "you are an IDIOT" |};
              ChatRoom.storage := ∅;
              ChatRoom.store := Firestore.empty;
              ChatRoom.reloaded := false |} in
  let x' := ChatRoom.send (Some {| uid := "l1"; displayName := None |})
              (Some "s1_l1_1700000000000") 1700000000000
              {| autoId := "m1"; serverTime := 1700000000001 |} x in
  ChatRoom.storage x' !! "ban_expiry" = Some (numberToString (1700000000000 + 86400000)).
Proof.
  intros x x'.
  refine (proj1 (proj2 (toxic_send_by_user_suspends _ _ _ _ x "idiot" _ _ _))).
  - simpl. auto 10.
  - by exists "you are an ", "IDIOT", "".
  - reflexivity.
Defined.

(** ** The live query of a room *)

Section RoomQuery.

Import ChatRoom.

Lemma value_le_total (v1 v2 : value) : value_le v1 v2 \/ value_le v2 v1.
Proof.
  destruct v1 as [s1|t1|], v2 as [s2|t2|]; cbn [value_le]; auto;
    [apply (total String.le) | lia].
Qed.

Lemma value_le_refl (v : value) : value_le v v.
Proof. destruct (value_le_total v v); assumption. Qed.

#[local] Instance field_le_total (f : string) : Total (field_le f).
Proof.
  intros x y. unfold field_le.
  destruct (x.2 !! f) as [v1|], (y.2 !! f) as [v2|]; auto.
  destruct (decide (v1 = v2)) as [->|Hne].
  - rewrite decide_True by reflexivity. apply String.le_total.
  - rewrite decide_False by congruence. apply value_le_total.
Qed.

(** The query returns its documents in the order of the field. *)
Lemma orderByAsc_sorted (f : string) (c : gmap string (gmap string value)) :
  Sorted (field_le f) (orderByAsc f c).
Proof. apply Sorted_merge_sort, _. Qed.

Lemma orderByAsc_permutation (f : string) (c : gmap string (gmap string value)) :
  (forall i m, c !! i = Some m -> is_Some (m !! f)) ->
  orderByAsc f c ≡ₚ map_to_list c.
Proof.
  intros H. unfold orderByAsc. rewrite merge_sort_Permutation.
  rewrite map_filter_id; [reflexivity|]. intros i m Hm. by apply (H i).
Qed.

Lemma messagesOf_addMessage (r : string) (data : gmap string value) (w : commit) (d : db) :
  messagesOf r (addMessage r data w d) =
    <[autoId w := resolve (serverTime w) <$> data]> (messagesOf r d).
Proof. unfold messagesOf at 1, addMessage. simpl. by rewrite lookup_insert_eq. Qed.

Lemma stored_time (p : post) : (stored p).2 !! "timestamp" = Some (VTime (serverTime (server p))).
Proof. reflexivity. Qed.

Lemma delivered_time (p : post) : timeOf (delivered p) = Some (serverTime (server p)).
Proof. reflexivity. Qed.

Lemma delivered_id (p : post) : delivered p !! "id" = Some (VStr (autoId (server p))).
Proof. reflexivity. Qed.

Lemma typeAndSend_store (r : string) (x : world) (p : post) :
  truthy r = true -> allowedText (text p) = true ->
  messagesOf r (store (typeAndSend r x p)) = <[(stored p).1 := (stored p).2]> (messagesOf r (store x)).
Proof.
  intros Hr Ha. unfold typeAndSend. rewrite send_allowed by assumption.
  simpl. apply messagesOf_addMessage.
Qed.

Lemma postAll_snoc (r : string) (posts : list post) (p : post) (x : world) :
  postAll r (posts ++ [p]) x = typeAndSend r (postAll r posts x) p.
Proof. unfold postAll. by rewrite foldl_snoc. Qed.

#[local] Instance ascending_trans : Transitive ascending.
Proof.
  intros a b c (ta & tb & Ha & Hb & Hab) (tb' & tc & Hb' & Hc & Hbc).
  exists ta, tc. rewrite Hb in Hb'. injection Hb' as <-. repeat split; auto. lia.
Qed.

(** The order of the query is the order of the times, on documents whose
    [timestamp] is a time. *)
Lemma field_le_ascending (x y : string * gmap string value) :
  is_Some (timeOf (snapshotObject x)) -> is_Some (timeOf (snapshotObject y)) ->
  field_le "timestamp" x y -> ascending (snapshotObject x) (snapshotObject y).
Proof.
  unfold ascending, timeOf, snapshotObject, field_le.
  rewrite !lookup_union_l by (by rewrite lookup_singleton_ne).
  destruct (x.2 !! "timestamp") as [[|tx|]|]; intros [? Hx]; try discriminate.
  destruct (y.2 !! "timestamp") as [[|ty|]|]; intros [? Hy]; try discriminate.
  intros H. exists tx, ty. repeat split. case_decide as E; simpl in H; [|assumption].
  injection E as ->. lia.
Qed.

Lemma Sorted_ascending (l : list (string * gmap string value)) :
  Forall (fun x => is_Some (timeOf (snapshotObject x))) l ->
  Sorted (field_le "timestamp") l ->
  StronglySorted ascending (snapshotObject <$> l).
Proof.
  intros Hall Hs. apply Sorted_StronglySorted; [apply _|].
  induction Hs as [|x l Hl IH Hhd]; simpl; [constructor|].
  apply Forall_cons in Hall as [Hx Hall].
  constructor; [by apply IH|].
  destruct Hhd as [|y l Hxy]; simpl; constructor.
  apply Forall_cons in Hall as [Hy _]. by apply field_le_ascending.
Qed.

End RoomQuery.

Section ChatDocuments.

Import ChatRoom.

Lemma snapshotObject_id (i : string) (data : gmap string value) :
  data !! "id" = None -> snapshotObject (i, data) !! "id" = Some (VStr i).
Proof. intros H. unfold snapshotObject. simpl. by rewrite lookup_union_r. Qed.

Lemma snapshotObject_field (i f : string) (data : gmap string value) :
  f <> "id" -> snapshotObject (i, data) !! f = data !! f.
Proof.
  intros H. unfold snapshotObject. simpl.
  destruct (data !! f) as [v|] eqn:E.
  - by apply lookup_union_Some_l.
  - rewrite lookup_union_r by assumption. by apply lookup_singleton_ne.
Qed.

(** The document that [send] writes, field by field. *)
Lemma chatMessage_resolved (u : User) (t : string) (time : Z) :
  resolve time <$> chatMessage u t =
    {[ "senderId" := VStr (uid u);
       "senderName" := VStr (match displayName u with
                             | Some n => if truthy n then n else "Me"
                             | None => "Me"
                             end);
       "content" := VStr t;
       "timestamp" := VTime time ]}.
Proof. unfold chatMessage, orElse. by rewrite !fmap_insert, map_fmap_singleton. Qed.

Lemma allowedText_spec (t : string) :
  allWhite t = false ->
  (forall kw, In kw toxicityKeywords -> ~ containsIgnoringCase t kw) ->
  allowedText t = true.
Proof.
  intros Hb Hno. unfold allowedText. rewrite trim_truthy, Hb. cbn [negb andb].
  apply negb_true_iff.
  destruct (existsb (fun kw => includes (toLowerCase t) kw) toxicityKeywords) eqn:E;
    [|reflexivity].
  exfalso.
  apply existsb_exists in E as (kw & Hin & H).
  apply (Hno kw Hin). apply includes_toLowerCase; [by apply toxicityKeywords_lower | exact H].
Qed.

End ChatDocuments.

Section RoomContents.

Import ChatRoom.

(** The documents of a room after a list of posts: what it held before,
    and one document per post. *)
Lemma postAll_documents_from (r : string) (posts : list post) (x : world) :
  truthy r = true ->
  Forall (fun p => allowedText (text p) = true) posts ->
  NoDup ((fun p => autoId (server p)) <$> posts) ->
  Forall (fun p => messagesOf r (store x) !! autoId (server p) = None) posts ->
  map_to_list (messagesOf r (store (postAll r posts x)))
    ≡ₚ map_to_list (messagesOf r (store x)) ++ (stored <$> posts) /\
  (forall i m, messagesOf r (store (postAll r posts x)) !! i = Some m ->
               messagesOf r (store x) !! i = Some m \/ (i, m) ∈ stored <$> posts).
Proof.
  intros Hr. induction posts as [|p posts IH] using rev_ind; intros Ha Hn Hf.
  - simpl. rewrite app_nil_r. split; [reflexivity | auto].
  - rewrite Forall_app, Forall_singleton in Ha. destruct Ha as [Ha Hp].
    rewrite Forall_app, Forall_singleton in Hf. destruct Hf as [Hf Hfp].
    rewrite fmap_app in Hn. apply NoDup_app in Hn as (Hn & Hfresh & _).
    destruct (IH Ha Hn Hf) as [IHp IHm].
    rewrite postAll_snoc, typeAndSend_store by assumption.
    assert (messagesOf r (store (postAll r posts x)) !! (stored p).1 = None) as Hnone.
    { destruct (_ !! (stored p).1) as [m|] eqn:E; [|reflexivity]. exfalso.
      apply IHm in E as [E|E]; [simpl in E; congruence|].
      apply list_elem_of_fmap in E as (q & Eq & Hq).
      apply (Hfresh (autoId (server q))).
      - apply list_elem_of_fmap. eauto.
      - injection Eq as Eq _. simpl in Eq. rewrite <- Eq. simpl. constructor. }
    split.
    + rewrite map_to_list_insert by assumption. rewrite fmap_app, IHp.
      change ((stored p).1, (stored p).2) with (stored p).
      rewrite app_assoc. apply Permutation_cons_append.
    + intros i m. rewrite fmap_app, elem_of_app. rewrite lookup_insert.
      case_decide as E.
      * intros [= <-]. right. right. rewrite <- E.
        change ((stored p).1, (stored p).2) with (stored p). simpl. constructor.
      * intros H. destruct (IHm i m H); auto.
Qed.

(** The message a post is read back as, field by field. *)
Lemma delivered_fields (p : post) :
  delivered p =
    {[ "senderId" := VStr (uid (sender p));
       "senderName" := VStr (match displayName (sender p) with
                             | Some n => if truthy n then n else "Me"
                             | None => "Me"
                             end);
       "content" := VStr (text p);
       "timestamp" := VTime (serverTime (server p));
       "id" := VStr (autoId (server p)) ]}.
Proof.
  unfold delivered, stored, snapshotObject. cbn [fst snd].
  rewrite chatMessage_resolved.
  by rewrite <- !insert_union_l, <- insert_union_singleton_l.
Qed.

(** A snapshot of documents without a field [id] names every document
    once. *)
Lemma snapshot_NoDup (c : gmap string doc) (l : list (string * doc)) :
  l ≡ₚ map_to_list c ->
  (forall i m, c !! i = Some m -> m !! "id" = None) ->
  NoDup (snapshotObject <$> l).
Proof.
  intros Hl Hid. apply (NoDup_fmap_1 (fun m : doc => m !! "id")).
  rewrite <- list_fmap_compose.
  rewrite (list_fmap_ext _ (fun kd => Some (VStr kd.1)) l).
  - assert ((fun kd : string * doc => Some (VStr kd.1)) <$> l
            = (fun i => Some (VStr i)) <$> l.*1) as -> by (by rewrite <- list_fmap_compose).
    apply NoDup_fmap_2; [by intros a b [=]|].
    rewrite Hl. apply NoDup_fst_map_to_list.
  - intros k [i m] Hk. cbn [compose fst]. apply snapshotObject_id.
    apply (Hid i). apply elem_of_map_to_list. rewrite <- Hl.
    by apply list_elem_of_lookup_2 in Hk.
Qed.

(** The order of a snapshot, on the field itself. *)
Lemma ascending_by_timestamp (l : list doc) :
  StronglySorted ascending l ->
  StronglySorted
    (fun a b => exists ta tb, a !! "timestamp" = Some (VTime ta) /\
                              b !! "timestamp" = Some (VTime tb) /\ ta <= tb) l.
Proof.
  assert (forall m t, timeOf m = Some t -> m !! "timestamp" = Some (VTime t)) as Ht.
  { intros m t. unfold timeOf. destruct (m !! "timestamp") as [[| |]|]; congruence. }
  induction 1 as [|a l _ IH Hall]; constructor; [exact IH|].
  eapply Forall_impl; [exact Hall|].
  intros b (ta & tb & Ha & Hb & Hle). exists ta, tb. auto.
Qed.

End RoomContents.

(** C8 fails as the spec states it, in its "exactly those N messages": a
    room that [acceptRequest] has created holds the system message, and
    after one post by the speaker the live query returns two messages, the
    system message first. *)
Lemma accepted_room_reads_back_its_system_message :
  let speaker := {| uid := "s1"; displayName := Some "Nour" |} in
  let listener := {| uid := "l1"; displayName := None |} in
  let req : doc := {[ "id" := VStr "r1"; "speakerId" := VStr "s1";
                      "status" := VStr "pending"; "timestamp" := VTime 1700000000000 ]} in
  let c := ListenerHub.acceptRequest (Some listener) req 1700000001000
             {| autoId := "m1"; serverTime := 1700000001001 |}
             {| autoId := "r2"; serverTime := 1700000001002 |} in
  let x := {| ChatRoom.ui := {| ChatRoom.messages := []; ChatRoom.input := "" |};
              ChatRoom.storage := ∅;
              ChatRoom.store := ListenerHub.run (ListenerHub.operations c) Firestore.empty;
              ChatRoom.reloaded := false |} in
  let posts := [ {| ChatRoom.sender := speaker; ChatRoom.text := "I feel so heavy today";
                    ChatRoom.clock := 1700000002000;
                    ChatRoom.server := {| autoId := "m2"; serverTime := 1700000002001 |} |} ] in
  ListenerHub.navigates c = Some "/chat/s1_l1_1700000001000" /\
  ChatRoom.watch "s1_l1_1700000001000"
    (ChatRoom.store (ChatRoom.postAll "s1_l1_1700000001000" posts x))
  = [ {[ "senderId" := VStr "system"; "senderName" := VStr "Aether";
         "content" := VStr "Connection Established. Speak freely.";
         "timestamp" := VTime 1700000001001; "id" := VStr "m1" ]};
      {[ "senderId" := VStr "s1"; "senderName" := VStr "Nour";
         "content" := VStr "I feel so heavy today";
         "timestamp" := VTime 1700000002001; "id" := VStr "m2" ]} ].
Proof. split; vm_compute; reflexivity. Qed.

(** C8, amended: in a room whose documents have a time and no field
    [id] (as every document that the handlers write), after any number [k]
    of the posts (each one a text that [send] lets through, sent by a
    signed-in participant, the server giving every document an identifier
    that is new), the snapshot of the live query is a rearrangement of what
    the room showed before together with one message per post so far,
    which has the text, the sender and the sender's display name or [Me]
    of the post, the time of the server and the identifier of its
    document; nothing is repeated, and the snapshot is ascending by time.
    In a room that was empty these are exactly the messages posted. *)
Theorem room_round_trip (r : string) (posts : list ChatRoom.post) (x : ChatRoom.world) :
  truthy r = true ->
  (forall i m, messagesOf r (ChatRoom.store x) !! i = Some m ->
               (exists t, m !! "timestamp" = Some (VTime t)) /\ m !! "id" = None) ->
  Forall (fun p => ChatRoom.allowedText (ChatRoom.text p) = true) posts ->
  NoDup ((fun p => autoId (ChatRoom.server p)) <$> posts) ->
  Forall (fun p => messagesOf r (ChatRoom.store x) !! autoId (ChatRoom.server p) = None) posts ->
  forall k : nat,
    let snapshot := ChatRoom.watch r (ChatRoom.store (ChatRoom.postAll r (take k posts) x)) in
    let posted :=
      (fun p =>
         {[ "senderId" := VStr (uid (ChatRoom.sender p));
            "senderName" := VStr (match displayName (ChatRoom.sender p) with
                                  | Some n => if truthy n then n else "Me"
                                  | None => "Me"
                                  end);
            "content" := VStr (ChatRoom.text p);
            "timestamp" := VTime (serverTime (ChatRoom.server p));
            "id" := VStr (autoId (ChatRoom.server p)) ]} : doc) <$> take k posts in
    snapshot ≡ₚ ChatRoom.watch r (ChatRoom.store x) ++ posted /\
    (messagesOf r (ChatRoom.store x) = ∅ -> snapshot ≡ₚ posted) /\
    NoDup snapshot /\
    StronglySorted
      (fun a b => exists ta tb, a !! "timestamp" = Some (VTime ta) /\
                                b !! "timestamp" = Some (VTime tb) /\ ta <= tb)
      snapshot.
Proof.
  intros Hr Hold Ha Hn Hf k snapshot posted.
  assert (Forall (fun p => ChatRoom.allowedText (ChatRoom.text p) = true) (take k posts)) as Ha'
    by by apply Forall_take.
  assert (NoDup ((fun p => autoId (ChatRoom.server p)) <$> take k posts)) as Hn'.
  { rewrite fmap_take. eapply sublist_NoDup; [exact Hn | apply sublist_take]. }
  assert (Forall (fun p => messagesOf r (ChatRoom.store x) !! autoId (ChatRoom.server p) = None)
            (take k posts)) as Hf' by by apply Forall_take.
  destruct (postAll_documents_from r (take k posts) x Hr Ha' Hn' Hf') as [Hp Hm].
  set (M := messagesOf r (ChatRoom.store (ChatRoom.postAll r (take k posts) x))) in *.
  assert (posted = ChatRoom.delivered <$> take k posts) as Hposted.
  { unfold posted. apply list_fmap_ext. intros ? p _. by rewrite delivered_fields. }
  assert (forall i m, M !! i = Some m ->
            (exists t, m !! "timestamp" = Some (VTime t)) /\ m !! "id" = None) as HM.
  { intros i m [H|H]%Hm; [by apply (Hold i)|].
    apply list_elem_of_fmap in H as (p & [= -> ->] & _).
    split; [exists (serverTime (ChatRoom.server p)); apply stored_time|].
    unfold ChatRoom.stored. cbn [snd]. rewrite chatMessage_resolved. by simplify_map_eq. }
  assert (orderByAsc "timestamp" M ≡ₚ map_to_list M) as Ho.
  { apply orderByAsc_permutation. intros i m [[t Ht] _]%HM. rewrite Ht. eauto. }
  assert (ChatRoom.watch r (ChatRoom.store x)
          ≡ₚ snapshotObject <$> map_to_list (messagesOf r (ChatRoom.store x))) as Hw.
  { unfold ChatRoom.watch. rewrite orderByAsc_permutation; [reflexivity|].
    intros i m [[t Ht] _]%Hold. rewrite Ht. eauto. }
  assert (snapshot ≡ₚ ChatRoom.watch r (ChatRoom.store x) ++ posted) as Hs.
  { subst snapshot. unfold ChatRoom.watch at 1. fold M.
    rewrite Ho, Hp, fmap_app, Hw, Hposted. by rewrite <- list_fmap_compose. }
  split; [exact Hs|]. split; [|split].
  - intros He. rewrite Hs. unfold ChatRoom.watch, orderByAsc. rewrite He.
    by rewrite map_filter_empty, map_to_list_empty.
  - subst snapshot. unfold ChatRoom.watch. fold M.
    apply (snapshot_NoDup M); [exact Ho|]. intros i m H. by apply (HM i m).
  - apply ascending_by_timestamp. subst snapshot. unfold ChatRoom.watch. fold M.
    apply Sorted_ascending; [|apply orderByAsc_sorted].
    rewrite Ho. apply Forall_forall. intros [i m] Him%elem_of_map_to_list.
    destruct (HM i m Him) as [[t Ht] _]. exists t.
    unfold ChatRoom.timeOf. rewrite snapshotObject_field by discriminate.
    cbn [snd]. by rewrite Ht.
Qed.

Lemma room_round_trip_witness :
  let speaker := {| uid := "s1"; displayName := Some "Nour" |} in
  let listener := {| uid := "l1"; displayName := None |} in
  let posts :=
    [ {| ChatRoom.sender := speaker; ChatRoom.text := "I feel so heavy today";
         ChatRoom.clock := 1700000000100;
         ChatRoom.server := {| autoId := "m1"; serverTime := 1700000000205 |} |};
      {| ChatRoom.sender := listener; ChatRoom.text := "I am here";
         ChatRoom.clock := 1700000000101;
         ChatRoom.server := {| autoId := "m2"; serverTime := 1700000000203 |} |} ] in
  let x := {| ChatRoom.ui := {| ChatRoom.messages := []; ChatRoom.input := "" |};
              ChatRoom.storage := ∅;
              ChatRoom.store := Firestore.empty;
              ChatRoom.reloaded := false |} in
  ChatRoom.watch "s1_l1_1700000000000"
    (ChatRoom.store (ChatRoom.postAll "s1_l1_1700000000000" posts x))
  ≡ₚ [ {[ "senderId" := VStr "s1"; "senderName" := VStr "Nour";
          "content" := VStr "I feel so heavy today";
          "timestamp" := VTime 1700000000205; "id" := VStr "m1" ]};
       {[ "senderId" := VStr "l1"; "senderName" := VStr "Me";
          "content" := VStr "I am here";
          "timestamp" := VTime 1700000000203; "id" := VStr "m2" ]} ].
Proof.
  intros speaker listener posts x.
  refine (proj1 (proj2 (room_round_trip "s1_l1_1700000000000" posts x _ _ _ _ _ 2)) _).
  - reflexivity.
  - intros i m H. unfold messagesOf in H. simpl in H.
    rewrite lookup_empty in H. simpl in H. by rewrite lookup_empty in H.
  - repeat constructor.
  - apply (bool_decide_unpack _). vm_compute. exact I.
  - repeat constructor.
  - reflexivity.
Defined.

(** ** Acceptance: [ListenerHub.acceptRequest] *)

Section Acceptance.

Import ListenerHub.

(** The fields of the record that an acceptance writes. *)
Lemma accepted_fields (req : gmap string value) (u : User) (room : string) (t : Z) :
  let r := resolve t <$> acceptedRequest req u room in
  r !! "status" = Some (VStr "accepted") /\
  r !! "roomId" = Some (VStr room) /\
  r !! "listenerId" = Some (VStr (uid u)) /\
  r !! "timestamp" = Some (VTime t) /\
  forall f, f <> "status" -> f <> "roomId" -> f <> "listenerId" -> f <> "timestamp" ->
            r !! f = resolve t <$> req !! f.
Proof.
  intros r. subst r. unfold acceptedRequest. rewrite !lookup_fmap.
  repeat split; try by simplify_map_eq.
  intros f H1 H2 H3 H4. rewrite lookup_fmap. by simplify_map_eq.
Qed.

Lemma acceptRequest_signed_in (u : User) (req : gmap string value) (i : string)
      (now : Z) (w1 w2 : commit) :
  req !! "id" = Some (VStr i) ->
  acceptRequest (Some u) req now w1 w2 =
    {| operations := [ addMessage (roomIdOf req u now) systemMessage w1;
                       deleteRequest i;
                       addRequest (acceptedRequest req u (roomIdOf req u now)) w2 ];
       navigates := Some ("/chat/" +:+ roomIdOf req u now) |}.
Proof. intros H. unfold acceptRequest. by rewrite H. Qed.

(** The room identifier determines the listener and the millisecond, for a
    given speaker; and the speaker too when the identifiers of listeners
    have no underscore. *)
Lemma roomIdOf_same_speaker (req : gmap string value) (u u' : User) (now now' : Z) :
  roomIdOf req u now = roomIdOf req u' now' -> uid u = uid u' /\ now = now'.
Proof.
  unfold roomIdOf. intros H. apply (inj (String.app _)) in H.
  apply (inj (String.app "_")) in H.
  apply split_last_underscore in H as [Hu Hn]; auto using hasChar_numberToString.
  split; [assumption | by apply numberToString_inj].
Qed.

Lemma roomIdOf_inj (req req' : gmap string value) (u u' : User) (now now' : Z) :
  hasChar "_" (uid u) = false -> hasChar "_" (uid u') = false ->
  roomIdOf req u now = roomIdOf req' u' now' ->
  toTemplate (req !! "speakerId") = toTemplate (req' !! "speakerId") /\
  uid u = uid u' /\ now = now'.
Proof.
  unfold roomIdOf. intros Hu Hu' H.
  rewrite <- !(append_assoc _ "_" (uid _ +:+ _)) in H.
  rewrite <- !(append_assoc _ (uid _) _) in H.
  apply split_last_underscore in H as [H Hn]; auto using hasChar_numberToString.
  rewrite !append_assoc in H.
  apply split_last_underscore in H as [Hs Hid]; auto.
  repeat split; auto. by apply numberToString_inj.
Qed.

Lemma interleavings_nil_r {A : Type} (l : list A) : interleavings l [] = [l].
Proof. by destruct l. Qed.

Lemma interleavings_nil_l {A : Type} (l : list A) : interleavings [] l = [l].
Proof. by destruct l. Qed.

(** [interleavings] misses no schedule. *)
Lemma interleavings_complete {A : Type} (l1 l2 l : list A) :
  merges l1 l2 l -> In l (interleavings l1 l2).
Proof.
  induction 1 as [l|l|x l1 l2 l _ IH|y l1 l2 l _ IH].
  - rewrite interleavings_nil_l. by left.
  - rewrite interleavings_nil_r. by left.
  - destruct l2 as [|y l2].
    + rewrite interleavings_nil_r in *. destruct IH as [<-|[]]. by left.
    + cbn [interleavings]. apply in_or_app. left. by apply in_map.
  - destruct l1 as [|x l1].
    + rewrite interleavings_nil_l in *. destruct IH as [<-|[]]. by left.
    + cbn [interleavings]. apply in_or_app. right. by apply in_map.
Qed.

(** Two calls on the same request, by different listeners, under every
    way of taking turns at the store: the pending record is gone and each
    call has written its own accepted record. *)
Lemma accepts_interleaved (uA uB : User) (req : gmap string value) (i : string)
      (nowA nowB : Z) (a1 a2 b1 b2 : commit) (d : db) :
  req !! "id" = Some (VStr i) ->
  autoId a2 <> i -> autoId b2 <> i -> autoId a2 <> autoId b2 ->
  Forall (fun schedule =>
            requests (run schedule d) !! i = None /\
            requests (run schedule d) !! autoId a2 =
              Some (resolve (serverTime a2) <$> acceptedRequest req uA (roomIdOf req uA nowA)) /\
            requests (run schedule d) !! autoId b2 =
              Some (resolve (serverTime b2) <$> acceptedRequest req uB (roomIdOf req uB nowB)))
         (interleavings (operations (acceptRequest (Some uA) req nowA a1 a2))
                        (operations (acceptRequest (Some uB) req nowB b1 b2))).
Proof.
  intros Hid Ha Hb Hab.
  rewrite !(acceptRequest_signed_in _ _ i) by assumption.
  cbn [operations interleavings fmap list_fmap app].
  repeat (apply Forall_cons; split); try apply Forall_nil;
    unfold run; cbn [foldl addMessage deleteRequest addRequest requests];
    repeat split; by simplify_map_eq.
Qed.

End Acceptance.

(** C2 fails as the spec states it: a speaker submits, two listeners hold
    the pending request from their snapshots and accept it.  Under every
    schedule of the two calls both of them get to their own room, and the
    ledger ends with two accepted records of the same request, each with a
    room of its own. *)
Lemma two_listeners_both_win :
  let speaker := {| uid := "s1"; displayName := None |} in
  let d0 := (SpeakerAI.respondWith (Some speaker) None
               {| autoId := "r1"; serverTime := 1700000000000 |}
               (SpeakerAI.initial, Firestore.empty)).2 in
  let req := default ∅ (head (ListenerHub.watchPending d0)) in
  let cA := ListenerHub.acceptRequest (Some {| uid := "l1"; displayName := None |}) req
              1700000001000 {| autoId := "m1"; serverTime := 1700000001001 |}
                            {| autoId := "r2"; serverTime := 1700000001002 |} in
  let cB := ListenerHub.acceptRequest (Some {| uid := "l2"; displayName := None |}) req
              1700000001000 {| autoId := "m2"; serverTime := 1700000001001 |}
                            {| autoId := "r3"; serverTime := 1700000001003 |} in
  req !! "id" = Some (VStr "r1") /\
  req !! "status" = Some (VStr "pending") /\
  ListenerHub.navigates cA = Some "/chat/s1_l1_1700000001000" /\
  ListenerHub.navigates cB = Some "/chat/s1_l2_1700000001000" /\
  Forall (fun schedule =>
            let d := ListenerHub.run schedule d0 in
            requests d !! "r1" = None /\
            (requests d !! "r2" ≫= (.!! "id")) = Some (VStr "r1") /\
            (requests d !! "r2" ≫= (.!! "roomId")) = Some (VStr "s1_l1_1700000001000") /\
            (requests d !! "r3" ≫= (.!! "id")) = Some (VStr "r1") /\
            (requests d !! "r3" ≫= (.!! "roomId")) = Some (VStr "s1_l2_1700000001000"))
         (ListenerHub.interleavings (ListenerHub.operations cA) (ListenerHub.operations cB)).
Proof.
  intros speaker d0 req cA cB.
  assert (req !! "id" = Some (VStr "r1")) as Hid by (vm_compute; reflexivity).
  split; [exact Hid|]. do 3 (split; [vm_compute; reflexivity|]).
  pose proof (accepts_interleaved {| uid := "l1"; displayName := None |}
                {| uid := "l2"; displayName := None |} req "r1"
                1700000001000 1700000001000
                {| autoId := "m1"; serverTime := 1700000001001 |}
                {| autoId := "r2"; serverTime := 1700000001002 |}
                {| autoId := "m2"; serverTime := 1700000001001 |}
                {| autoId := "r3"; serverTime := 1700000001003 |} d0 Hid
                ltac:(discriminate) ltac:(discriminate) ltac:(discriminate)) as H.
  eapply Forall_impl; [exact H|].
  intros schedule (H1 & H2 & H3). cbv zeta. simpl autoId in *.
  rewrite H1, H2, H3. repeat split; vm_compute; reflexivity.
Qed.

Section AcceptedRooms.

Import ListenerHub.

(** The system message, as stored. *)
Lemma systemMessage_resolved (t : Z) :
  resolve t <$> systemMessage =
    {[ "senderId" := VStr "system"; "senderName" := VStr "Aether";
       "content" := VStr "Connection Established. Speak freely.";
       "timestamp" := VTime t ]}.
Proof. unfold systemMessage. by rewrite !fmap_insert, map_fmap_singleton. Qed.

(** Writing into one room leaves the messages of another one alone. *)
Lemma messagesOf_addMessage_ne (r r' : string) (data : doc) (w : commit) (d : db) :
  r <> r' -> messagesOf r (addMessage r' data w d) = messagesOf r d.
Proof. intros H. unfold messagesOf, addMessage. simpl. by rewrite lookup_insert_ne. Qed.

Lemma messagesOf_deleteRequest (r i : string) (d : db) :
  messagesOf r (deleteRequest i d) = messagesOf r d.
Proof. reflexivity. Qed.

Lemma messagesOf_addRequest (r : string) (data : doc) (w : commit) (d : db) :
  messagesOf r (addRequest data w d) = messagesOf r d.
Proof. reflexivity. Qed.

(** Two calls on the same request that make different rooms, under every
    way of taking turns at the store: each room has received the system
    message of its call. *)
Lemma accepts_interleaved_rooms (uA uB : User) (req : doc) (i : string)
      (nowA nowB : Z) (a1 a2 b1 b2 : commit) (d : db) :
  req !! "id" = Some (VStr i) ->
  roomIdOf req uA nowA <> roomIdOf req uB nowB ->
  Forall (fun schedule =>
            messagesOf (roomIdOf req uA nowA) (run schedule d) !! autoId a1 =
              Some (resolve (serverTime a1) <$> systemMessage) /\
            messagesOf (roomIdOf req uB nowB) (run schedule d) !! autoId b1 =
              Some (resolve (serverTime b1) <$> systemMessage))
         (interleavings (operations (acceptRequest (Some uA) req nowA a1 a2))
                        (operations (acceptRequest (Some uB) req nowB b1 b2))).
Proof.
  intros Hid Hne.
  assert (roomIdOf req uB nowB <> roomIdOf req uA nowA) as Hne' by congruence.
  rewrite !(acceptRequest_signed_in _ _ i) by assumption.
  cbn [operations interleavings fmap list_fmap app].
  repeat (apply Forall_cons; split); try apply Forall_nil;
    unfold run; cbn [foldl]; split;
    repeat first [ rewrite messagesOf_addRequest
                 | rewrite messagesOf_deleteRequest
                 | rewrite messagesOf_addMessage
                 | rewrite (messagesOf_addMessage_ne _ _ _ _ _ Hne)
                 | rewrite (messagesOf_addMessage_ne _ _ _ _ _ Hne') ];
    apply lookup_insert_eq.
Qed.

End AcceptedRooms.

(** C2, amended: two calls of [acceptRequest] on one pending request by two
    different signed-in listeners both succeed, under every interleaving of
    their store operations: each navigates to a room of its own, the two
    room identifiers differ, each room has received the system message of
    its call, the pending record is removed, and the ledger holds one
    record per listener with status [accepted], the identifier of the
    request, that listener and that listener's room.  No call is
    refused. *)
Theorem concurrent_accepts_both_succeed
    (uA uB : User) (i : string) (data : gmap string value)
    (nowA nowB : Z) (a1 a2 b1 b2 : commit) (d : db) :
  uid uA <> uid uB ->
  requests d !! i = Some data ->
  data !! "id" = None ->
  autoId a2 <> i -> autoId b2 <> i -> autoId a2 <> autoId b2 ->
  let req := snapshotObject (i, data) in
  let cA := ListenerHub.acceptRequest (Some uA) req nowA a1 a2 in
  let cB := ListenerHub.acceptRequest (Some uB) req nowB b1 b2 in
  let roomA :=
    toTemplate (data !! "speakerId") +:+ "_" +:+ uid uA +:+ "_" +:+ numberToString nowA in
  let roomB :=
    toTemplate (data !! "speakerId") +:+ "_" +:+ uid uB +:+ "_" +:+ numberToString nowB in
  let greeting (t : Z) : doc :=
    {[ "senderId" := VStr "system"; "senderName" := VStr "Aether";
       "content" := VStr "Connection Established. Speak freely.";
       "timestamp" := VTime t ]} in
  ListenerHub.navigates cA = Some ("/chat/" +:+ roomA) /\
  ListenerHub.navigates cB = Some ("/chat/" +:+ roomB) /\
  (roomA = roomB -> False) /\
  forall schedule,
    ListenerHub.merges (ListenerHub.operations cA) (ListenerHub.operations cB) schedule ->
    let d' := ListenerHub.run schedule d in
    messagesOf roomA d' !! autoId a1 = Some (greeting (serverTime a1)) /\
    messagesOf roomB d' !! autoId b1 = Some (greeting (serverTime b1)) /\
    requests d' !! i = None /\
    (exists recA, requests d' !! autoId a2 = Some recA /\
       recA !! "status" = Some (VStr "accepted") /\
       recA !! "id" = Some (VStr i) /\
       recA !! "roomId" = Some (VStr roomA) /\
       recA !! "listenerId" = Some (VStr (uid uA)) /\
       recA !! "timestamp" = Some (VTime (serverTime a2))) /\
    (exists recB, requests d' !! autoId b2 = Some recB /\
       recB !! "status" = Some (VStr "accepted") /\
       recB !! "id" = Some (VStr i) /\
       recB !! "roomId" = Some (VStr roomB) /\
       recB !! "listenerId" = Some (VStr (uid uB)) /\
       recB !! "timestamp" = Some (VTime (serverTime b2))).
Proof.
  intros Hu Hd Hdata Ha Hb Hab req cA cB roomA roomB greeting.
  assert (req !! "id" = Some (VStr i)) as Hid by by apply snapshotObject_id.
  assert (req !! "speakerId" = data !! "speakerId") as Hsp
    by (by apply snapshotObject_field).
  assert (ListenerHub.roomIdOf req uA nowA = roomA) as HrA
    by (unfold ListenerHub.roomIdOf, roomA; by rewrite Hsp).
  assert (ListenerHub.roomIdOf req uB nowB = roomB) as HrB
    by (unfold ListenerHub.roomIdOf, roomB; by rewrite Hsp).
  assert (roomA <> roomB) as Hne.
  { rewrite <- HrA, <- HrB. intros E. apply roomIdOf_same_speaker in E as [E _].
    contradiction. }
  split; [subst cA; by rewrite (acceptRequest_signed_in _ _ i), HrA|].
  split; [subst cB; by rewrite (acceptRequest_signed_in _ _ i), HrB|].
  split; [exact Hne|].
  intros schedule Hm%interleavings_complete.
  pose proof (accepts_interleaved uA uB req i nowA nowB a1 a2 b1 b2 d Hid Ha Hb Hab) as H.
  pose proof (accepts_interleaved_rooms uA uB req i nowA nowB a1 a2 b1 b2 d Hid) as Hr.
  rewrite HrA, HrB in H, Hr. specialize (Hr Hne).
  rewrite List.Forall_forall in H, Hr.
  destruct (H _ Hm) as (H1 & H2 & H3). destruct (Hr _ Hm) as (R1 & R2).
  cbv zeta. rewrite R1, R2, !systemMessage_resolved.
  split; [reflexivity|]. split; [reflexivity|]. split; [exact H1|].
  destruct (accepted_fields req uA roomA (serverTime a2)) as (A1 & A2 & A3 & A4 & A5).
  destruct (accepted_fields req uB roomB (serverTime b2)) as (B1 & B2 & B3 & B4 & B5).
  split; eexists; (split; [eassumption|]); repeat split; try assumption.
  - rewrite A5 by discriminate. by rewrite Hid.
  - rewrite B5 by discriminate. by rewrite Hid.
Qed.

Lemma concurrent_accepts_both_succeed_witness :
  let data : gmap string value :=
    {[ "speakerId" := VStr "s1"; "status" := VStr "pending"; "timestamp" := VTime 1700000000000 ]} in
  let req := snapshotObject ("r1", data) in
  ListenerHub.navigates
    (ListenerHub.acceptRequest (Some {| uid := "l1"; displayName := None |}) req 1700000001000
       {| autoId := "m1"; serverTime := 1700000001001 |}
       {| autoId := "r2"; serverTime := 1700000001002 |})
  = Some "/chat/s1_l1_1700000001000".
Proof.
  intros data req.
  refine (proj1 (concurrent_accepts_both_succeed
                   {| uid := "l1"; displayName := None |} {| uid := "l2"; displayName := None |}
                   "r1" data 1700000001000 1700000001000
                   {| autoId := "m1"; serverTime := 1700000001001 |}
                   {| autoId := "r2"; serverTime := 1700000001002 |}
                   {| autoId := "m2"; serverTime := 1700000001001 |}
                   {| autoId := "r3"; serverTime := 1700000001003 |}
                   {| requests := {[ "r1" := data ]}; rooms := ∅ |} _ _ _ _ _ _));
    first [ discriminate | reflexivity ].
Defined.

(** C5 fails as the spec states it, in its "unique per acceptance": the
    same speaker has two pending requests, and one listener accepts both
    within the same millisecond.  The two acceptances get the same room
    identifier, and the one room holds two system messages. *)
Lemma two_acceptances_share_a_room :
  let speaker := {| uid := "s1"; displayName := None |} in
  let listener := {| uid := "l1"; displayName := None |} in
  let d0 := (SpeakerAI.respondWith (Some speaker) None
               {| autoId := "r2"; serverTime := 1700000000500 |}
               (SpeakerAI.initial,
                (SpeakerAI.respondWith (Some speaker) None
                   {| autoId := "r1"; serverTime := 1700000000000 |}
                   (SpeakerAI.initial, Firestore.empty)).2)).2 in
  let req1 := default ∅ (ListenerHub.watchPending d0 !! 1%nat) in
  let req2 := default ∅ (ListenerHub.watchPending d0 !! 0%nat) in
  let c1 := ListenerHub.acceptRequest (Some listener) req1 1700000001000
              {| autoId := "m1"; serverTime := 1700000001001 |}
              {| autoId := "r3"; serverTime := 1700000001002 |} in
  let c2 := ListenerHub.acceptRequest (Some listener) req2 1700000001000
              {| autoId := "m2"; serverTime := 1700000001003 |}
              {| autoId := "r4"; serverTime := 1700000001004 |} in
  let d := ListenerHub.run (ListenerHub.operations c2)
             (ListenerHub.run (ListenerHub.operations c1) d0) in
  req1 !! "id" = Some (VStr "r1") /\
  req2 !! "id" = Some (VStr "r2") /\
  ListenerHub.navigates c1 = Some "/chat/s1_l1_1700000001000" /\
  ListenerHub.navigates c2 = Some "/chat/s1_l1_1700000001000" /\
  (requests d !! "r3" ≫= (.!! "roomId")) = Some (VStr "s1_l1_1700000001000") /\
  (requests d !! "r4" ≫= (.!! "roomId")) = Some (VStr "s1_l1_1700000001000") /\
  size (messagesOf "s1_l1_1700000001000" d) = 2%nat.
Proof. vm_compute. repeat split. Qed.

(** C5, amended: a call of [acceptRequest] by a signed-in listener on a
    request taken from the snapshot of the ledger builds the room
    identifier [speakerId_listenerId_now], writes into that room a message
    whose sender is [system], removes the record of the request, writes a
    new record with status [accepted], that room and that listener, keeping
    the other fields of the request (the sentinel that [resolve] replaces
    does not occur in a stored record), and navigates to the room.  The
    identifier determines the listener and the millisecond for a given
    speaker, and the speaker too when listener identifiers have no
    underscore; it is not a fresh value per acceptance. *)
Theorem accept_creates_room_and_record
    (u : User) (i : string) (data : gmap string value)
    (now : Z) (w1 w2 : commit) (d : db) :
  requests d !! i = Some data ->
  data !! "id" = None ->
  autoId w2 <> i ->
  let req := snapshotObject (i, data) in
  let c := ListenerHub.acceptRequest (Some u) req now w1 w2 in
  let roomId := toTemplate (data !! "speakerId") +:+ "_" +:+ uid u +:+ "_" +:+ numberToString now in
  let d' := ListenerHub.run (ListenerHub.operations c) d in
  ListenerHub.navigates c = Some ("/chat/" +:+ roomId) /\
  messagesOf roomId d' !! autoId w1 =
    Some {[ "senderId" := VStr "system";
            "senderName" := VStr "Aether";
            "content" := VStr "Connection Established. Speak freely.";
            "timestamp" := VTime (serverTime w1) ]} /\
  requests d' !! i = None /\
  (exists r, requests d' !! autoId w2 = Some r /\
             r !! "status" = Some (VStr "accepted") /\
             r !! "roomId" = Some (VStr roomId) /\
             r !! "listenerId" = Some (VStr (uid u)) /\
             r !! "timestamp" = Some (VTime (serverTime w2)) /\
             r !! "id" = Some (VStr i) /\
             forall f, f <> "status" -> f <> "roomId" -> f <> "listenerId" ->
                       f <> "timestamp" -> f <> "id" ->
                       r !! f = resolve (serverTime w2) <$> data !! f) /\
  (forall (u' : User) (now' : Z),
      ListenerHub.roomIdOf req u' now' = roomId -> uid u' = uid u /\ now' = now) /\
  (forall (req' : gmap string value) (u' : User) (now' : Z),
      hasChar "_" (uid u) = false -> hasChar "_" (uid u') = false ->
      ListenerHub.roomIdOf req' u' now' = roomId ->
      toTemplate (req' !! "speakerId") = toTemplate (data !! "speakerId") /\
      uid u' = uid u /\ now' = now).
Proof.
  intros Hd Hdata Hw req c roomId d'.
  assert (req !! "id" = Some (VStr i)) as Hid by by apply snapshotObject_id.
  assert (ListenerHub.roomIdOf req u now = roomId) as Hroom.
  { unfold ListenerHub.roomIdOf, req. by rewrite snapshotObject_field. }
  subst c d'. rewrite (acceptRequest_signed_in _ _ i) by assumption. rewrite Hroom.
  unfold ListenerHub.run.
  cbn [ListenerHub.navigates ListenerHub.operations foldl].
  split; [reflexivity|]. split; [|split; [|split; [|split]]].
  - change (messagesOf roomId (addMessage roomId ListenerHub.systemMessage w1 d) !! autoId w1
            = Some {[ "senderId" := VStr "system";
                      "senderName" := VStr "Aether";
                      "content" := VStr "Connection Established. Speak freely.";
                      "timestamp" := VTime (serverTime w1) ]}).
    rewrite messagesOf_addMessage. by rewrite lookup_insert_eq.
  - unfold deleteRequest, addRequest, addMessage. cbn [requests].
    rewrite lookup_insert_ne by assumption. apply lookup_delete_eq.
  - eexists. split.
    { unfold addRequest. cbn [requests]. apply lookup_insert_eq. }
    destruct (accepted_fields req u roomId (serverTime w2)) as (H1 & H2 & H3 & H4 & H5).
    repeat split; try assumption.
    + rewrite H5 by discriminate. by rewrite Hid.
    + intros f F1 F2 F3 F4 F5. rewrite (H5 f) by assumption.
      unfold req. by rewrite snapshotObject_field.
  - intros u' now' E. rewrite <- Hroom in E.
    apply roomIdOf_same_speaker in E as [-> ->]. auto.
  - intros req' u' now' Hu Hu' E. rewrite <- Hroom in E.
    apply roomIdOf_inj in E as (E1 & E2 & E3); auto.
    unfold req in E1. rewrite snapshotObject_field in E1 by discriminate. auto.
Qed.

Lemma accept_creates_room_and_record_witness :
  let data : gmap string value :=
    {[ "speakerId" := VStr "s1"; "speakerName" := VStr "Anonymous";
       "summary" := VStr "ok"; "status" := VStr "pending";
       "timestamp" := VTime 1700000000000 ]} in
  ListenerHub.navigates
    (ListenerHub.acceptRequest (Some {| uid := "l1"; displayName := None |})
       (snapshotObject ("r1", data)) 1700000001000
       {| autoId := "m1"; serverTime := 1700000001001 |}
       {| autoId := "r2"; serverTime := 1700000001002 |})
  = Some "/chat/s1_l1_1700000001000".
Proof.
  intros data.
  refine (proj1 (accept_creates_room_and_record
                   {| uid := "l1"; displayName := None |} "r1" data 1700000001000
                   {| autoId := "m1"; serverTime := 1700000001001 |}
                   {| autoId := "r2"; serverTime := 1700000001002 |}
                   {| requests := {[ "r1" := data ]}; rooms := ∅ |} _ _ _));
    first [ discriminate | reflexivity ].
Defined.

(** ** The request ledger *)

Section LedgerFacts.

Import Ledger.

Lemma pending_wellFormed (u : User) (summary : string) (t : Z) :
  wellFormed (resolve t <$> SpeakerAI.pendingRequest u summary).
Proof. split; [reflexivity | intros H; discriminate H]. Qed.

Lemma accepted_wellFormed (req : gmap string value) (u : User) (room : string) (t : Z) :
  wellFormed (resolve t <$> ListenerHub.acceptedRequest req u room).
Proof.
  destruct (accepted_fields req u room t) as (H1 & H2 & H3 & _).
  split; intros H.
  - rewrite H1 in H. discriminate H.
  - rewrite H2, H3. eauto.
Qed.

(** What one write does to the ledger: nothing, or it adds a well-formed
    record under an unused identifier, or it is the removal that an
    acceptance of the request performs. *)
Lemma writes_requests (d d' : db) :
  writes d d' ->
  requests d' = requests d \/
  (exists id r, requests d !! id = None /\ wellFormed r /\
                requests d' = <[id := r]> (requests d)) \/
  (exists id u req now w1 w2,
      req !! "id" = Some (VStr id) /\
      In (deleteRequest id)
         (ListenerHub.operations (ListenerHub.acceptRequest (Some u) req now w1 w2)) /\
      requests d' = delete id (requests d)).
Proof.
  intros [u realAI w s d0 Hfresh|user req now w1 w2 op d0 Hfresh Hop|user roomId now w x].
  - right. left. exists (autoId w), (resolve (serverTime w) <$>
      SpeakerAI.pendingRequest u (SpeakerAI.aiResponse realAI)).
    split; [assumption|]. split; [apply pending_wellFormed | reflexivity].
  - unfold ListenerHub.acceptRequest in Hop. destruct user as [u|]; [|destruct Hop].
    destruct (req !! "id") as [[id| |]|] eqn:Hid; simpl in Hop;
      try (destruct Hop as [<-|[]]; by left).
    destruct Hop as [<-|[<-|[<-|[]]]].
    + by left.
    + right. right. exists id, u, req, now, w1, w2. split; [assumption|].
      split; [|reflexivity]. rewrite (acceptRequest_signed_in _ _ id) by assumption.
      simpl. auto.
    + right. left. eexists _, _. split; [exact Hfresh|].
      split; [apply accepted_wellFormed | reflexivity].
  - left. unfold ChatRoom.send.
    repeat (match goal with
            | |- context [if ?b then _ else _] => destruct b
            | |- context [match ?o with Some _ => _ | None => _ end] => destruct o
            end); reflexivity.
Qed.

Lemma reachable_wellFormed (d : db) :
  reachable d -> forall i r, requests d !! i = Some r -> wellFormed r.
Proof.
  unfold reachable. revert d.
  apply (rtc_ind_r (fun d => forall i r, requests d !! i = Some r -> wellFormed r) empty).
  - intros i r Hr. simpl in Hr. by rewrite lookup_empty in Hr.
  - intros d1 d2 _ Hw IH i r Hr.
    destruct (writes_requests _ _ Hw) as [E|[(id & r' & _ & Hwf & E)|(id & _ & _ & _ & _ & _ & _ & _ & E)]];
      rewrite E in Hr.
    + by apply (IH i).
    + rewrite lookup_insert in Hr. case_decide; [by injection Hr as <- | by apply (IH i)].
    + rewrite lookup_delete in Hr. case_decide; [discriminate | by apply (IH i)].
Qed.

End LedgerFacts.

(** C6 fails as the spec states it, in its "exactly one acceptance": a
    listener accepts a request, the pending query no longer shows it, and a
    second listener who still holds the request from an earlier snapshot
    accepts it as well.  The ledger then has two accepted records of the
    one request, with two rooms and two listeners. *)
Lemma request_accepted_twice :
  let speaker := {| uid := "s1"; displayName := None |} in
  let d0 := (SpeakerAI.respondWith (Some speaker) None
               {| autoId := "r1"; serverTime := 1700000000000 |}
               (SpeakerAI.initial, Firestore.empty)).2 in
  let req := default ∅ (head (ListenerHub.watchPending d0)) in
  let d1 := ListenerHub.run
              (ListenerHub.operations
                 (ListenerHub.acceptRequest (Some {| uid := "l1"; displayName := None |}) req
                    1700000001000 {| autoId := "m1"; serverTime := 1700000001001 |}
                                  {| autoId := "r2"; serverTime := 1700000001002 |})) d0 in
  let d2 := ListenerHub.run
              (ListenerHub.operations
                 (ListenerHub.acceptRequest (Some {| uid := "l2"; displayName := None |}) req
                    1700000005000 {| autoId := "m2"; serverTime := 1700000005001 |}
                                  {| autoId := "r3"; serverTime := 1700000005002 |})) d1 in
  (requests d0 !! "r1" ≫= (.!! "status")) = Some (VStr "pending") /\
  ListenerHub.watchPending d1 = [] /\
  (requests d2 !! "r2" ≫= (.!! "status")) = Some (VStr "accepted") /\
  (requests d2 !! "r2" ≫= (.!! "id")) = Some (VStr "r1") /\
  (requests d2 !! "r2" ≫= (.!! "roomId")) = Some (VStr "s1_l1_1700000001000") /\
  (requests d2 !! "r3" ≫= (.!! "status")) = Some (VStr "accepted") /\
  (requests d2 !! "r3" ≫= (.!! "id")) = Some (VStr "r1") /\
  (requests d2 !! "r3" ≫= (.!! "roomId")) = Some (VStr "s1_l2_1700000005000").
Proof. vm_compute. repeat split. Qed.

(** C6, amended: every request record in a store the handlers can produce
    has no [roomId] while its status is [pending], and has both [roomId]
    and [listenerId] when its status is [accepted].  No write changes a
    record in place: after a write the record is as it was, or it is gone,
    and then the write is the removal that an acceptance of that request
    performs.  Nothing limits the acceptances of a request to one. *)
Theorem ledger_records_well_formed (d : db) (i : string) (r : gmap string value) :
  Ledger.reachable d ->
  requests d !! i = Some r ->
  Ledger.wellFormed r /\
  forall d', Ledger.writes d d' ->
    requests d' !! i = Some r \/
    (requests d' !! i = None /\
     exists u req now w1 w2,
       req !! "id" = Some (VStr i) /\
       In (deleteRequest i)
          (ListenerHub.operations (ListenerHub.acceptRequest (Some u) req now w1 w2)) /\
       requests d' = delete i (requests d)).
Proof.
  intros Hd Hr. split; [by apply (reachable_wellFormed d Hd i)|].
  intros d' Hw.
  destruct (writes_requests _ _ Hw) as [E|[(id & r' & Hn & _ & E)|(id & u & req & now & w1 & w2 & Hid & Hin & E)]];
    rewrite E.
  - by left.
  - left. rewrite lookup_insert_ne; [assumption | congruence].
  - destruct (decide (id = i)) as [->|Hne].
    + right. split; [apply lookup_delete_eq | eauto 10].
    + left. by rewrite lookup_delete_ne.
Qed.

Lemma ledger_records_well_formed_witness :
  let speaker := {| uid := "s1"; displayName := None |} in
  let w := {| autoId := "r1"; serverTime := 1700000000000 |} in
  Ledger.wellFormed (resolve 1700000000000 <$> SpeakerAI.pendingRequest speaker SpeakerAI.cannedResponse).
Proof.
  intros speaker w.
  refine (proj1 (ledger_records_well_formed
                   (SpeakerAI.respondWith (Some speaker) None w (SpeakerAI.initial, Firestore.empty)).2
                   "r1" _ _ _)).
  - apply rtc_once. by apply Ledger.writes_submit.
  - reflexivity.
Defined.

(** * Further properties of the handlers *)

(** ** Sign-up and sign-in: [Auth.handleSubmit] *)

Section AuthFacts.

Import Auth.

Lemma replaceRuns_remove (p : ascii -> bool) (b : bool) (s : string) :
  replaceRuns p "" b s = replaceEach p "" s.
Proof.
  revert b. induction s as [|c s IH]; intros b; simpl; [reflexivity|].
  destruct (p c); [destruct b; simpl; apply IH | by rewrite IH].
Qed.

Lemma replaceEach_subsumed (p q : ascii -> bool) (s : string) :
  (forall c, p c = true -> q c = true) ->
  replaceEach q "" (replaceEach p "" s) = replaceEach q "" s.
Proof.
  intros H. induction s as [|c s IH]; simpl; [reflexivity|].
  destruct (p c) eqn:Hp; simpl.
  - by rewrite (H c Hp).
  - by rewrite IH.
Qed.

Lemma white_not_alphanumeric (c : ascii) :
  isWhiteSpace c = true -> negb (alphanumeric c) = true.
Proof. destruct c as [[] [] [] [] [] [] [] []]; intros H; first [discriminate H | reflexivity]. Qed.

Lemma cleanUsername_filter (name : string) :
  cleanUsername name = replaceEach (fun c => negb (alphanumeric c)) "" name.
Proof.
  unfold cleanUsername. rewrite replaceRuns_remove.
  apply replaceEach_subsumed, white_not_alphanumeric.
Qed.

Lemma replaceEach_app (p : ascii -> bool) (a b : string) :
  replaceEach p "" (a +:+ b) = replaceEach p "" a +:+ replaceEach p "" b.
Proof.
  induction a as [|c a IH]; simpl; [reflexivity|].
  destruct (p c); simpl; by rewrite IH.
Qed.

Lemma replaceEach_kept (p : ascii -> bool) (s : string) :
  allOf (fun c => negb (p c)) (replaceEach p "" s) = true.
Proof.
  induction s as [|c s IH]; simpl; [reflexivity|].
  destruct (p c) eqn:Hp; simpl; [exact IH | by rewrite Hp, IH].
Qed.

Lemma replaceEach_fixed (p : ascii -> bool) (s : string) :
  allOf (fun c => negb (p c)) s = true -> replaceEach p "" s = s.
Proof.
  induction s as [|c s IH]; simpl; [reflexivity|].
  intros [Hc Hs]%andb_true_iff. apply negb_true_iff in Hc. by rewrite Hc, IH.
Qed.

Lemma replaceEach_all (p : ascii -> bool) (s : string) :
  allOf p s = true -> replaceEach p "" s = "".
Proof.
  induction s as [|c s IH]; simpl; [reflexivity|].
  intros [Hc Hs]%andb_true_iff. by rewrite Hc, IH.
Qed.

Lemma allOf_ext (p q : ascii -> bool) (s : string) :
  (forall c, p c = q c) -> allOf p s = allOf q s.
Proof. intros H. induction s as [|c s IH]; simpl; [reflexivity | by rewrite H, IH]. Qed.

Lemma replaceFirst_absent (pat rep s : string) :
  includes s pat = false -> replaceFirst pat rep s = s.
Proof.
  induction s as [|c s IH]; cbn [includes replaceFirst].
  - intros H. apply orb_false_iff in H as [-> _]. reflexivity.
  - intros H. apply orb_false_iff in H as [-> H]. by rewrite IH.
Qed.

Lemma dropChars_app (a b : string) : dropChars (String.length a) (a +:+ b) = b.
Proof. induction a as [|c a IH]; simpl; [reflexivity | exact IH]. Qed.

Lemma replaceFirst_head (pat rep rest : string) :
  replaceFirst pat rep (pat +:+ rest) = rep +:+ rest.
Proof.
  assert (String.prefix pat (pat +:+ rest) = true) as H by (apply prefix_spec; eauto).
  destruct (pat +:+ rest) as [|c s] eqn:E; cbn [replaceFirst]; rewrite H, <- E;
    by rewrite dropChars_app.
Qed.

(** The first occurrence of the pattern is the one replaced. *)
Lemma replaceFirst_first (pat rep pre rest : string) :
  (forall a b, pre +:+ pat +:+ rest = a +:+ pat +:+ b ->
               (String.length pre <= String.length a)%nat) ->
  replaceFirst pat rep (pre +:+ pat +:+ rest) = pre +:+ rep +:+ rest.
Proof.
  induction pre as [|c pre IH]; intros H; [exact (replaceFirst_head pat rep rest)|].
  cbn [String.append replaceFirst].
  destruct (String.prefix pat (String c (pre +:+ pat +:+ rest))) eqn:E.
  - apply prefix_spec in E as [post E]. specialize (H "" post E). simpl in H. lia.
  - f_equal. apply IH. intros a b Hab. apply le_S_n.
    apply (H (String c a) b). simpl. by rewrite Hab.
Qed.

End AuthFacts.

(** X1: the name of the credential is made of ASCII letters and digits
    only, cleaning it again changes nothing, and the first of the two
    replacements of the source (white space) is subsumed by the second. *)
Theorem clean_username_is_alphanumeric (name : string) :
  allOf Auth.alphanumeric (Auth.cleanUsername name) = true /\
  Auth.cleanUsername (Auth.cleanUsername name) = Auth.cleanUsername name /\
  Auth.cleanUsername name = Auth.replaceEach (fun c => negb (Auth.alphanumeric c)) "" name /\
  Auth.email name = Auth.cleanUsername name +:+ "@aether.local".
Proof.
  assert (allOf Auth.alphanumeric (Auth.cleanUsername name) = true) as H.
  { rewrite cleanUsername_filter.
    rewrite (allOf_ext _ (fun c => negb (negb (Auth.alphanumeric c))))
      by (intros c; by rewrite negb_involutive).
    apply replaceEach_kept. }
  split; [exact H|]. split; [|split; [apply cleanUsername_filter | reflexivity]].
  rewrite (cleanUsername_filter (Auth.cleanUsername name)).
  apply replaceEach_fixed.
  rewrite (allOf_ext _ Auth.alphanumeric) by (intros c; by rewrite negb_involutive).
  exact H.
Qed.

(** X2: a character that is not an ASCII letter or digit, put anywhere
    into the name, does not change the credential: the names on both sides
    of it sign in as the same account. *)
Theorem username_ignores_other_characters (a b : string) (c : ascii) :
  Auth.alphanumeric c = false ->
  Auth.email (a +:+ String c b) = Auth.email (a +:+ b).
Proof.
  intros H. unfold Auth.email. rewrite !cleanUsername_filter, !replaceEach_app.
  simpl. by rewrite H.
Qed.

Lemma username_ignores_other_characters_witness :
  Auth.email "nour.ali" = Auth.email "nourali".
Proof. apply (username_ignores_other_characters "nour" "ali" "."). reflexivity. Defined.

(** X3: a name without any ASCII letter or digit gives the credential
    with the empty local part, the same for all such names. *)
Theorem username_without_letters_is_empty (name : string) :
  allOf (fun c => negb (Auth.alphanumeric c)) name = true ->
  Auth.email name = "@aether.local".
Proof.
  intros H. unfold Auth.email. by rewrite cleanUsername_filter, replaceEach_all.
Qed.

Lemma username_without_letters_is_empty_witness :
  Auth.email "!? _ -" = "@aether.local".
Proof. apply username_without_letters_is_empty. reflexivity. Defined.

(** X4: a rejected sign-in stays on the page and shows the message of the
    provider with its first [Firebase:], wherever it is, turned into
    [Security:]; what is before and after that occurrence is shown as it
    is, later occurrences included.  A message without that text is shown
    as it is. *)
Theorem rejected_sign_in_shows_scrubbed_message (s : Auth.state) (pre rest m : string) :
  (forall a b, pre +:+ "Firebase:" +:+ rest = a +:+ "Firebase:" +:+ b ->
               (String.length pre <= String.length a)%nat) ->
  includes m "Firebase:" = false ->
  Auth.handleSubmit (Auth.Rejected (pre +:+ "Firebase:" +:+ rest)) s =
    ({| Auth.isRegistering := Auth.isRegistering s;
        Auth.error := pre +:+ "Security:" +:+ rest;
        Auth.form := Auth.form s |}, None) /\
  Auth.handleSubmit (Auth.Rejected m) s =
    ({| Auth.isRegistering := Auth.isRegistering s; Auth.error := m; Auth.form := Auth.form s |},
     None).
Proof.
  intros Hfirst H. unfold Auth.handleSubmit.
  by rewrite (replaceFirst_first _ _ _ _ Hfirst), (replaceFirst_absent _ _ _ H).
Qed.

Lemma rejected_sign_in_shows_scrubbed_message_witness :
  Auth.error (Auth.handleSubmit
                (Auth.Rejected "Error. Firebase: Error (auth/wrong-password). Firebase: x")
                Auth.initial).1
  = "Error. Security: Error (auth/wrong-password). Firebase: x".
Proof.
  refine (f_equal (fun r => Auth.error r.1)
            (proj1 (rejected_sign_in_shows_scrubbed_message Auth.initial
                      "Error. " " Error (auth/wrong-password). Firebase: x" "Network error"
                      _ eq_refl))).
  intros a b E.
  do 7 (destruct a as [|? a]; [simpl in E; discriminate E|]). simpl. lia.
Defined.

(** ** The journal: [Journal.rephrase] and the critical watch *)

Section JournalFacts.

Lemma contains_inner (s a k b : string) :
  containsIgnoringCase s (a +:+ k +:+ b) -> containsIgnoringCase s k.
Proof.
  intros (pre & w & post & -> & Hw). rewrite !toLowerCase_app in Hw.
  apply toLowerCase_split in Hw as (w1 & w2 & -> & _ & Hw).
  apply toLowerCase_split in Hw as (w3 & w4 & -> & Hk & _).
  exists (pre +:+ w1), w3, (w4 +:+ post). split; [|exact Hk].
  by rewrite !append_assoc.
Qed.

Lemma includes_lower (s kw : string) :
  toLowerCase kw = kw -> containsIgnoringCase s kw -> includes (toLowerCase s) kw = true.
Proof. intros Hk H. by apply includes_toLowerCase. Qed.

Lemma journalEntry_resolved (u : User) (text : string) (t : Z) :
  resolve t <$> Journal.journalEntry u text =
    {[ "userId" := VStr (uid u); "content" := VStr text; "timestamp" := VTime t ]}.
Proof.
  unfold Journal.journalEntry. by rewrite !fmap_insert, map_fmap_singleton.
Qed.

Lemma rephrase_journal (u : User) (key : option string) (net : Gemini.network)
      (w : commit) (s : Journal.state) (j : gmap string doc) :
  allWhite (Journal.entry s) = false ->
  exists shown,
    Journal.rephrase (Some u) key net w (s, j) =
      ({| Journal.entry := Journal.entry s; Journal.rephrased := shown |},
       Collections.addDoc (Journal.journalEntry u (Journal.entry s)) w j).
Proof.
  intros H. unfold Journal.rephrase. simpl. rewrite trim_truthy, H. simpl.
  destruct (Gemini.fetchGemini _ _ _) as [t [r|]|]; [destruct (truthy r)| |]; eauto.
Qed.

Lemma rephrase_fallback (u : User) (key : option string) (net : Gemini.network)
      (w : commit) (s : Journal.state) (j : gmap string doc) (t : Z) :
  allWhite (Journal.entry s) = false ->
  Gemini.fetchGemini key (Journal.prompt (Journal.entry s)) net = Gemini.Settled t None ->
  Journal.rephrased (Journal.rephrase (Some u) key net w (s, j)).1 =
    "AI Reflection: " +:+ Journal.fallbackResponse (Journal.entry s).
Proof.
  intros H Hf. unfold Journal.rephrase. simpl. rewrite trim_truthy, H. simpl.
  by rewrite Hf.
Qed.

End JournalFacts.

(** X5: a non-blank entry of a signed-in user is written to the journal
    as typed, under the user's identifier and with the time of the server,
    whatever the text is and whatever the text-generation call does, also
    when it never settles; the entry stays in the box. *)
Theorem journal_stores_entry_as_typed (u : User) (key : option string)
        (net : Gemini.network) (w : commit) (s : Journal.state) (j : gmap string doc) :
  allWhite (Journal.entry s) = false ->
  let r := Journal.rephrase (Some u) key net w (s, j) in
  r.2 = <[autoId w := {[ "userId" := VStr (uid u);
                         "content" := VStr (Journal.entry s);
                         "timestamp" := VTime (serverTime w) ]}]> j /\
  Journal.entry r.1 = Journal.entry s.
Proof.
  intros H. destruct (rephrase_journal u key net w s j H) as [shown E].
  cbv zeta. rewrite E. simpl. unfold Collections.addDoc.
  by rewrite journalEntry_resolved.
Qed.

Lemma journal_stores_entry_as_typed_witness :
  let s := {| Journal.entry := "call me on 0123456789, I want to die"; Journal.rephrased := "" |} in
  let w := {| autoId := "j1"; serverTime := 7 |} in
  (Journal.rephrase (Some {| uid := "u1"; displayName := None |}) (Some "0123456789012345678901234")
     (Gemini.Headers 10 Gemini.BodyStalls) w (s, ∅)).2 !! "j1"
  = Some {[ "userId" := VStr "u1";
            "content" := VStr "call me on 0123456789, I want to die";
            "timestamp" := VTime 7 ]}.
Proof.
  intros s w.
  rewrite (proj1 (journal_stores_entry_as_typed {| uid := "u1"; displayName := None |}
                    (Some "0123456789012345678901234") (Gemini.Headers 10 Gemini.BodyStalls)
                    w s ∅ eq_refl)).
  apply lookup_insert_eq.
Defined.

(** X6: when the text-generation call settles without text, the reflection
    shown is chosen by the first group of words the entry contains, in the
    order sorrow, joy, fear: an entry with a word of sorrow gets the reply
    to sorrow whatever else it contains, and one with a word of joy and no
    word of sorrow gets the reply to joy also when it contains a word of
    fear. *)
Theorem journal_fallback_priority (u : User) (key : option string)
        (net : Gemini.network) (w : commit) (s : Journal.state) (j : gmap string doc)
        (t : Z) (kw : string) :
  Gemini.fetchGemini key (Journal.prompt (Journal.entry s)) net = Gemini.Settled t None ->
  containsIgnoringCase (Journal.entry s) kw ->
  let shown := Journal.rephrased (Journal.rephrase (Some u) key net w (s, j)).1 in
  (In kw ["sad"; "heavy"; "pain"] -> shown = "AI Reflection: " +:+ Journal.sorrowReply) /\
  (In kw ["happy"; "joy"; "great"] ->
   existsb (fun k => includes (toLowerCase (Journal.entry s)) k) ["sad"; "heavy"; "pain"] = false ->
   shown = "AI Reflection: " +:+ Journal.joyReply).
Proof.
  intros Hf Hc shown.
  assert (In kw ["sad"; "heavy"; "pain"; "happy"; "joy"; "great"] ->
          shown = "AI Reflection: " +:+ Journal.fallbackResponse (Journal.entry s)) as E.
  { intros Hk. apply (rephrase_fallback u key net w s j t); [|exact Hf].
    apply (contains_not_blank _ kw Hc).
    simpl in Hk. repeat destruct Hk as [<-|Hk]; try reflexivity. destruct Hk. }
  split.
  - intros Hk. rewrite E by (simpl in *; tauto). f_equal.
    unfold Journal.fallbackResponse. simpl in Hk.
    destruct Hk as [<-|[<-|[<-|[]]]];
      rewrite (includes_lower _ _ eq_refl Hc); by rewrite ?orb_true_r.
  - intros Hk Hno. rewrite E by (simpl in *; tauto). f_equal.
    unfold Journal.fallbackResponse. simpl in Hno. rewrite orb_false_r, orb_assoc in Hno.
    rewrite Hno. simpl in Hk.
    destruct Hk as [<-|[<-|[<-|[]]]];
      rewrite (includes_lower _ _ eq_refl Hc); by rewrite ?orb_true_r.
Qed.

Lemma journal_fallback_priority_witness :
  Journal.rephrased
    (Journal.rephrase (Some {| uid := "u1"; displayName := None |}) None Gemini.NoAnswer
       {| autoId := "j1"; serverTime := 7 |}
       ({| Journal.entry := "Happy, but afraid of the PAIN"; Journal.rephrased := "" |}, ∅)).1
  = "AI Reflection: " +:+ Journal.sorrowReply.
Proof.
  refine (proj1 (journal_fallback_priority {| uid := "u1"; displayName := None |} None
                   Gemini.NoAnswer {| autoId := "j1"; serverTime := 7 |}
                   {| Journal.entry := "Happy, but afraid of the PAIN"; Journal.rephrased := "" |}
                   ∅ 0 "pain" eq_refl _) _).
  - exists "Happy, but afraid of the ", "PAIN", "". split; reflexivity.
  - simpl. tauto.
Defined.

(** ** The control panel: critical watch, [clearColl] *)

Section AdminFacts.

Lemma existsb_includes (text : string) (kws : list string) :
  (forall kw, In kw kws -> toLowerCase kw = kw) ->
  existsb (fun kw => includes (toLowerCase text) kw) kws = true <->
  exists kw, In kw kws /\ containsIgnoringCase text kw.
Proof.
  intros Hl. rewrite existsb_exists. split; intros (kw & Hin & H); exists kw; split; try done.
  - by apply includes_toLowerCase; [apply Hl|].
  - by apply includes_toLowerCase; [apply Hl|].
Qed.

Lemma criticalWords_lower (kw : string) : In kw Admin.criticalWords -> toLowerCase kw = kw.
Proof. simpl. intros H. repeat destruct H as [<-|H]; try reflexivity. destruct H. Qed.

Lemma isCritical_spec (e : doc) (c : string) :
  e !! "content" = Some (VStr c) ->
  exists b, Admin.isCritical e = Some b /\
    (b = true <-> exists kw, In kw Admin.criticalWords /\ containsIgnoringCase c kw).
Proof.
  intros H. unfold Admin.isCritical. rewrite H. eexists. split; [reflexivity|].
  apply existsb_includes, criticalWords_lower.
Qed.

Lemma clearColl_lookup (l : list (string * doc)) (c : gmap string doc) (k : string) :
  foldr (fun kd acc => Collections.deleteDoc kd.1 acc) c l !! k =
    if bool_decide (k ∈ l.*1) then None else c !! k.
Proof.
  induction l as [|[i x] l IH]; [reflexivity|].
  rewrite fmap_cons. cbn [foldr fst]. unfold Collections.deleteDoc at 1.
  destruct (decide (i = k)) as [->|Hne].
  - rewrite lookup_delete_eq. rewrite bool_decide_eq_true_2; [reflexivity | left].
  - rewrite lookup_delete_ne by done. rewrite IH.
    rewrite (bool_decide_ext (k ∈ i :: l.*1) (k ∈ l.*1)); [reflexivity|].
    rewrite elem_of_cons. split; [intros [E|Hin]; [congruence | exact Hin] | by right].
Qed.

Lemma criticalWatch_filter (entries : list doc) :
  Forall (fun e => exists c, e !! "content" = Some (VStr c)) entries ->
  exists shown, Admin.criticalWatch entries = Some shown /\
    forall e c, e !! "content" = Some (VStr c) ->
      (In e shown <->
       In e entries /\ exists kw, In kw Admin.criticalWords /\ containsIgnoringCase c kw).
Proof.
  induction 1 as [|e l [c Hc] Hl (shown & Hs & IH)]; simpl.
  - exists []. split; [reflexivity|]. simpl. tauto.
  - rewrite Hs. destruct (isCritical_spec e c Hc) as (b & -> & Hb).
    eexists. split; [reflexivity|]. intros e' c' Hc'. destruct b; simpl.
    + rewrite (IH e' c' Hc'). split.
      * intros [<-|[Hin Hk]]; [|tauto]. split; [by left|].
         assert (c' = c) as -> by congruence. by apply Hb.
      * intros [[<-|Hin] Hk]; tauto.
    + rewrite (IH e' c' Hc'). split; [tauto|].
      intros [[<-|Hin] Hk]; [|tauto].
      assert (c' = c) as -> by congruence. by apply Hb in Hk.
Qed.

Lemma covered_crisis_term (c kw : string) :
  In kw ["suicide"; "kill myself"; "hurt myself"; "die"] ->
  containsIgnoringCase c kw ->
  exists kw', In kw' Admin.criticalWords /\ containsIgnoringCase c kw'.
Proof.
  intros Hk H. simpl in Hk. destruct Hk as [<-|[<-|[<-|[<-|[]]]]].
  - exists "suicide". split; [simpl; tauto | exact H].
  - exists "kill". split; [simpl; tauto | exact (contains_inner _ "" "kill" " myself" H)].
  - exists "hurt". split; [simpl; tauto | exact (contains_inner _ "" "hurt" " myself" H)].
  - exists "die". split; [simpl; tauto | exact H].
Qed.

End AdminFacts.

(** X7: when every journal entry has a text, the critical watch shows
    exactly the entries whose text contains die, suicide, hurt or kill, in
    whatever case; one entry without a text makes the filter throw. *)
Theorem critical_watch_shows_marked_entries (entries : list doc) :
  (Forall (fun e => exists c, e !! "content" = Some (VStr c)) entries ->
   exists shown, Admin.criticalWatch entries = Some shown /\
     forall e c, e !! "content" = Some (VStr c) ->
       (In e shown <->
        In e entries /\ exists kw, In kw Admin.criticalWords /\ containsIgnoringCase c kw)) /\
  (Exists (fun e => e !! "content" = None) entries -> Admin.criticalWatch entries = None).
Proof.
  split; [apply criticalWatch_filter|].
  induction 1 as [e l He|e l _ IH]; simpl.
  - unfold Admin.isCritical. by rewrite He.
  - rewrite IH. by destruct (Admin.isCritical e).
Qed.

(** X8: of the crisis terms of the companion, the critical watch covers
    suicide, kill myself, hurt myself and die: a journal entry that
    contains one of them, in whatever case, is marked. *)
Theorem critical_watch_covers_crisis_terms (e : doc) (c kw : string) :
  e !! "content" = Some (VStr c) ->
  In kw ["suicide"; "kill myself"; "hurt myself"; "die"] ->
  containsIgnoringCase c kw ->
  In kw SpeakerAI.riskKeywords /\ Admin.isCritical e = Some true.
Proof.
  intros Hc Hk H. split; [simpl in *; tauto|].
  destruct (isCritical_spec e c Hc) as (b & -> & Hb). f_equal. apply Hb.
  by apply (covered_crisis_term c kw).
Qed.

Lemma critical_watch_covers_crisis_terms_witness :
  Admin.isCritical {[ "content" := VStr "I want to Hurt Myself" ]} = Some true.
Proof.
  refine (proj2 (critical_watch_covers_crisis_terms
                   {[ "content" := VStr "I want to Hurt Myself" ]}
                   "I want to Hurt Myself" "hurt myself" eq_refl _ _)).
  - simpl. tauto.
  - exists "I want to ", "Hurt Myself", "". split; reflexivity.
Defined.

(** X9: [clearColl] deletes the documents that the read returned and no
    other: a document added between the read and the deletions survives.
    When nothing was added the collection ends empty, and without the
    confirmation nothing is deleted. *)
Theorem clearColl_deletes_what_was_read (snapshot c : gmap string doc) :
  (forall k, Admin.clearColl true snapshot c !! k =
             match snapshot !! k with Some _ => None | None => c !! k end) /\
  Admin.clearColl true c c = ∅ /\
  Admin.clearColl false snapshot c = c.
Proof.
  assert (forall s k, Admin.clearColl true s c !! k =
                      match s !! k with Some _ => None | None => c !! k end) as H.
  { intros s k. unfold Admin.clearColl. rewrite clearColl_lookup.
    destruct (s !! k) as [x|] eqn:E.
    - rewrite bool_decide_eq_true_2; [reflexivity|].
      apply list_elem_of_fmap. exists (k, x). split; [reflexivity|].
      by apply elem_of_map_to_list.
    - rewrite bool_decide_eq_false_2; [reflexivity|].
      intros ([k' x] & -> & Hin)%list_elem_of_fmap.
      apply elem_of_map_to_list in Hin. simpl in E. congruence. }
  split; [apply H|]. split; [|reflexivity].
  apply map_eq. intros k. rewrite H, lookup_empty. by destruct (c !! k).
Qed.

Lemma clearColl_deletes_what_was_read_witness :
  let read := {[ "a" := {[ "content" := VStr "first" ]} ]} : gmap string doc in
  let now := <["b" := {[ "content" := VStr "second" ]}]> read in
  Admin.clearColl true read now !! "a" = None /\
  Admin.clearColl true read now !! "b" = Some {[ "content" := VStr "second" ]}.
Proof.
  intros read now.
  rewrite !(proj1 (clearColl_deletes_what_was_read read now)). split; reflexivity.
Defined.

(** ** The community rooms: [postEcho], the room query, the counters *)

Section CommunityFacts.

Lemma whereEq_insert_match (f : string) (v : value) (i : string) (data : doc)
      (c : gmap string doc) :
  data !! f = Some v -> whereEq f v (<[i := data]> c) = <[i := data]> (whereEq f v c).
Proof. intros H. unfold whereEq. by rewrite map_filter_insert_True. Qed.

Lemma whereEq_insert_other (f : string) (v : value) (i : string) (data : doc)
      (c : gmap string doc) :
  data !! f <> Some v -> c !! i = None -> whereEq f v (<[i := data]> c) = whereEq f v c.
Proof.
  intros H Hi. unfold whereEq. rewrite map_filter_insert_False by done.
  by rewrite delete_id.
Qed.

Lemma whereEq_fresh (f : string) (v : value) (i : string) (c : gmap string doc) :
  c !! i = None -> whereEq f v c !! i = None.
Proof. intros H. unfold whereEq. apply map_lookup_filter_None. left. exact H. Qed.

Lemma orderByAsc_insert (f : string) (i : string) (data : doc) (c : gmap string doc) :
  is_Some (data !! f) -> c !! i = None ->
  orderByAsc f (<[i := data]> c) ≡ₚ (i, data) :: orderByAsc f c.
Proof.
  intros H Hi. unfold orderByAsc. rewrite !merge_sort_Permutation.
  rewrite map_filter_insert_True by done.
  apply map_to_list_insert, map_lookup_filter_None. by left.
Qed.

Lemma echo_resolved (m : string) (u : User) (text : string) (t : Z) :
  resolve t <$> Community.echo m u text =
    {[ "moodId" := VStr m; "content" := VStr text; "timestamp" := VTime t;
       "nickname" := VStr (orElse (displayName u) "Seeker") ]}.
Proof. unfold Community.echo. by rewrite !fmap_insert, map_fmap_singleton. Qed.

Lemma postEcho_signed_in (u : User) (m : string) (w : commit) (text : string)
      (echoes : gmap string doc) :
  allWhite text = false ->
  Community.postEcho (Some u) m w (text, echoes) =
    ("", <[autoId w := resolve (serverTime w) <$> Community.echo m u text]> echoes).
Proof. intros H. unfold Community.postEcho. simpl. by rewrite trim_truthy, H. Qed.

Lemma echo_other_room (u : User) (m m' : string) (w : commit) (text : string)
      (echoes : gmap string doc) :
  echoes !! autoId w = None -> m' <> m ->
  whereEq "moodId" (VStr m')
    (<[autoId w := resolve (serverTime w) <$> Community.echo m u text]> echoes)
  = whereEq "moodId" (VStr m') echoes.
Proof.
  intros Hi Hm. apply whereEq_insert_other; [|exact Hi].
  rewrite echo_resolved. simplify_map_eq. congruence.
Qed.

End CommunityFacts.

(** X10: an echo posted in a room, under an identifier the collection
    does not have yet, empties the input box, raises the counter of that
    room by one and adds exactly that echo to the messages of the room; the
    counter and the messages of every other room stay as they are. *)
Theorem echo_joins_its_room_only (u : User) (m : string) (w : commit) (text : string)
        (echoes : gmap string doc) :
  allWhite text = false ->
  echoes !! autoId w = None ->
  let r := Community.postEcho (Some u) m w (text, echoes) in
  r.1 = "" /\
  Community.countOf m r.2 = S (Community.countOf m echoes) /\
  Community.watch m r.2 ≡ₚ
    snapshotObject (autoId w, resolve (serverTime w) <$> Community.echo m u text)
      :: Community.watch m echoes /\
  forall m', m' <> m ->
    Community.countOf m' r.2 = Community.countOf m' echoes /\
    Community.watch m' r.2 = Community.watch m' echoes.
Proof.
  intros H Hi. cbv zeta. rewrite (postEcho_signed_in u m w text echoes H). simpl.
  assert ((resolve (serverTime w) <$> Community.echo m u text) !! "moodId" = Some (VStr m))
    as Hm by (rewrite echo_resolved; by simplify_map_eq).
  assert (is_Some ((resolve (serverTime w) <$> Community.echo m u text) !! "timestamp"))
    as Ht by (rewrite echo_resolved; by simplify_map_eq).
  split; [reflexivity|]. split; [|split].
  - unfold Community.countOf. rewrite (whereEq_insert_match _ _ _ _ _ Hm).
    apply map_size_insert_None, whereEq_fresh, Hi.
  - unfold Community.watch. rewrite (whereEq_insert_match _ _ _ _ _ Hm).
    rewrite orderByAsc_insert; [reflexivity | exact Ht | by apply whereEq_fresh].
  - intros m' Hne. unfold Community.countOf, Community.watch.
    by rewrite (echo_other_room u m m' w text echoes Hi Hne).
Qed.

Lemma echo_joins_its_room_only_witness :
  Community.countOf "hope"
    (Community.postEcho (Some {| uid := "u1"; displayName := None |}) "hope"
       {| autoId := "e1"; serverTime := 5 |} ("still here", ∅)).2 = 1%nat.
Proof.
  exact (proj1 (proj2 (echo_joins_its_room_only {| uid := "u1"; displayName := None |} "hope"
                         {| autoId := "e1"; serverTime := 5 |} "still here" ∅
                         eq_refl eq_refl))).
Defined.

(** X11: a room opened under an identifier that is none of the four moods
    has the header of Sea of Calm, but an echo posted there is stored under
    the identifier of the address: it is not among the messages of Sea of
    Calm and no counter of the hub moves. *)
Theorem echo_under_unknown_mood (u : User) (m : string) (w : commit) (text : string)
        (echoes : gmap string doc) :
  ~ In m (Community.moodKey <$> Community.moods) ->
  allWhite text = false ->
  echoes !! autoId w = None ->
  let r := Community.postEcho (Some u) m w (text, echoes) in
  Community.currentMood m = Community.calm /\
  r.2 !! autoId w = Some (resolve (serverTime w) <$> Community.echo m u text) /\
  Community.counts r.2 = Community.counts echoes /\
  Community.watch "calm" r.2 = Community.watch "calm" echoes.
Proof.
  intros Hm H Hi. cbv zeta. rewrite (postEcho_signed_in u m w text echoes H).
  cbn [fst snd]. simpl in Hm.
  assert (forall k, In k ["calm"; "void"; "hope"; "woods"] ->
            whereEq "moodId" (VStr k)
              (<[autoId w := resolve (serverTime w) <$> Community.echo m u text]> echoes)
            = whereEq "moodId" (VStr k) echoes) as E.
  { intros k Hk. apply (echo_other_room u m k w text echoes Hi). intros ->. simpl in Hk. tauto. }
  split; [|split; [apply lookup_insert_eq | split]].
  - unfold Community.currentMood, Community.moods, Community.calm.
    cbn [List.find Community.moodKey].
    destruct (String.eqb_spec "calm" m) as [<-|_]; [tauto|].
    destruct (String.eqb_spec "void" m) as [<-|_]; [tauto|].
    destruct (String.eqb_spec "hope" m) as [<-|_]; [tauto|].
    destruct (String.eqb_spec "woods" m) as [<-|_]; [tauto|]. reflexivity.
  - unfold Community.counts, Community.countOf. simpl.
    rewrite !E by (simpl; tauto). reflexivity.
  - unfold Community.watch. rewrite E by (simpl; tauto). reflexivity.
Qed.

Lemma echo_under_unknown_mood_witness :
  Community.moodName (Community.currentMood "storm") = "Sea of Calm" /\
  Community.counts
    (Community.postEcho (Some {| uid := "u1"; displayName := None |}) "storm"
       {| autoId := "e1"; serverTime := 5 |} ("anyone?", ∅)).2 = Community.counts ∅.
Proof.
  assert (~ In "storm" (Community.moodKey <$> Community.moods)) as Hm.
  { simpl. intros [H|[H|[H|[H|[]]]]]; discriminate H. }
  pose proof (echo_under_unknown_mood {| uid := "u1"; displayName := None |} "storm"
                {| autoId := "e1"; serverTime := 5 |} "anyone?" ∅ Hm eq_refl eq_refl) as H.
  cbv zeta in H. destruct H as (Hc & _ & Hn & _). split; [by rewrite Hc | exact Hn].
Defined.

(** ** What each surface screens *)

(** X12: the community room applies none of the checks of the other
    surfaces: a text that [handleSend] would block for privacy, or that
    [send] would punish, is stored as typed, under the mood of the room and
    the display name of the user or Seeker. *)
Theorem community_applies_no_check (u : User) (m : string) (w : commit) (text : string)
        (echoes : gmap string doc) :
  test SpeakerAI.privacyPattern text = true \/
  (exists kw, In kw ChatRoom.toxicityKeywords /\ containsIgnoringCase text kw) ->
  Community.postEcho (Some u) m w (text, echoes) =
    ("", <[autoId w := {[ "moodId" := VStr m; "content" := VStr text;
                          "timestamp" := VTime (serverTime w);
                          "nickname" := VStr (orElse (displayName u) "Seeker") ]}]> echoes).
Proof.
  intros H. rewrite postEcho_signed_in, echo_resolved; [reflexivity|].
  destruct H as [H|(kw & Hk & H)].
  - by apply privacy_match_not_blank.
  - apply (contains_not_blank _ kw H). by apply toxicityKeywords_lower.
Qed.

Lemma community_applies_no_check_witness :
  (Community.postEcho (Some {| uid := "u1"; displayName := None |}) "void"
     {| autoId := "e1"; serverTime := 5 |} ("you are useless", ∅)).2 !! "e1"
  = Some {[ "moodId" := VStr "void"; "content" := VStr "you are useless";
            "timestamp" := VTime 5; "nickname" := VStr "Seeker" ]}.
Proof.
  rewrite (community_applies_no_check {| uid := "u1"; displayName := None |} "void"
             {| autoId := "e1"; serverTime := 5 |} "you are useless" ∅).
  - apply lookup_insert_eq.
  - right. exists "useless". split; [simpl; tauto|].
    exists "you are ", "useless", "". split; reflexivity.
Defined.

(** X13: the privacy check belongs to the companion only.  A text with
    ten digits in a row, an address [local@domain.tld] or a messenger
    fragment, and without a forbidden word of the chat room, is blocked by
    [handleSend], which sets the warning and sends nothing; [send] writes
    the same text into the room as typed, with the sender and the time of
    the server, and empties the input box. *)
Theorem chat_room_has_no_privacy_check (t : string) (s : SpeakerAI.state) (u : User)
        (r : string) (now : Z) (w : commit) (x : ChatRoom.world) :
  (exists pre ds post, t = pre +:+ ds +:+ post /\
      String.length ds = 10%nat /\ allOf digit ds = true) \/
  (exists pre loc dom tld post,
      t = pre +:+ (loc +:+ "@" +:+ dom +:+ "." +:+ tld) +:+ post /\
      loc <> "" /\ allOf (fun c => word c || oneOf ".%+-" c) loc = true /\
      dom <> "" /\ allOf (fun c => word c || oneOf ".-" c) dom = true /\
      (2 <= String.length tld)%nat /\
      allOf (fun c => inRange 97 122 c || inRange 65 90 c) tld = true) \/
  (exists frag, In frag ["wa.me"; "instagram."; "t.me"; "facebook."] /\
      containsIgnoringCase t frag) ->
  (forall kw, In kw ChatRoom.toxicityKeywords -> ~ containsIgnoringCase t kw) ->
  truthy r = true ->
  SpeakerAI.handleSend (SpeakerAI.setInput t s) =
    ({| SpeakerAI.input := t;
        SpeakerAI.messages := SpeakerAI.messages s;
        SpeakerAI.loading := SpeakerAI.loading s;
        SpeakerAI.matching := SpeakerAI.matching s;
        SpeakerAI.warning :=
          "Privacy Shield: Sharing contacts or external links is forbidden for your safety.";
        SpeakerAI.emergencyModal := SpeakerAI.emergencyModal s |},
     [(5000, SpeakerAI.ClearWarning)]) /\
  let x' := ChatRoom.send (Some u) (Some r) now w (ChatRoom.setInput t x) in
  messagesOf r (ChatRoom.store x') =
    <[autoId w := {[ "senderId" := VStr (uid u);
                     "senderName" := VStr (match displayName u with
                                           | Some n => if truthy n then n else "Me"
                                           | None => "Me"
                                           end);
                     "content" := VStr t;
                     "timestamp" := VTime (serverTime w) ]}]>
      (messagesOf r (ChatRoom.store x)) /\
  ChatRoom.input (ChatRoom.ui x') = "" /\
  ChatRoom.storage x' = ChatRoom.storage x /\
  ChatRoom.reloaded x' = ChatRoom.reloaded x.
Proof.
  intros Hc Hno Hr.
  assert (test SpeakerAI.privacyPattern t = true) as Hp.
  { destruct Hc as [(pre & ds & post & -> & Hl & Hd)
                   |[(pre & loc & dom & tld & post & -> & H1 & H2 & H3 & H4 & H5 & H6)
                    |(frag & Hf & Hc)]].
    - by apply ten_digits_found.
    - by apply email_found.
    - by apply (messenger_link_found _ frag). }
  split; [exact (handleSend_warns (SpeakerAI.setInput t s) Hp)|].
  assert (ChatRoom.allowedText t = true) as Ha
    by (apply allowedText_spec; [by apply privacy_match_not_blank | exact Hno]).
  cbv zeta. rewrite (send_allowed u r now w (ChatRoom.setInput t x) Ha Hr).
  cbn [ChatRoom.store ChatRoom.ui ChatRoom.input ChatRoom.storage ChatRoom.reloaded
       ChatRoom.setInput].
  by rewrite messagesOf_addMessage, chatMessage_resolved.
Qed.

Lemma chat_room_has_no_privacy_check_witness :
  let x := {| ChatRoom.ui := {| ChatRoom.messages := []; ChatRoom.input := "" |};
              ChatRoom.storage := ∅; ChatRoom.store := Firestore.empty;
              ChatRoom.reloaded := false |} in
  let u := {| uid := "u1"; displayName := None |} in
  let w := {| autoId := "m1"; serverTime := 9 |} in
  messagesOf "room"
    (ChatRoom.store (ChatRoom.send (Some u) (Some "room") 0 w
                       (ChatRoom.setInput "write to me@mail.org" x))) !! "m1"
  = Some {[ "senderId" := VStr "u1"; "senderName" := VStr "Me";
            "content" := VStr "write to me@mail.org"; "timestamp" := VTime 9 ]}.
Proof.
  intros x u w.
  assert (forall kw, In kw ChatRoom.toxicityKeywords ->
                     ~ containsIgnoringCase "write to me@mail.org" kw) as Hno.
  { intros kw Hk Hc.
    apply (includes_toLowerCase _ _ (proj1 (toxicityKeywords_lower kw Hk))) in Hc.
    simpl in Hk. repeat (destruct Hk as [<-|Hk]; [vm_compute in Hc; discriminate Hc|]).
    destruct Hk. }
  destruct (chat_room_has_no_privacy_check "write to me@mail.org" SpeakerAI.initial u "room" 0 w x)
    as (_ & H & _); [ | exact Hno | reflexivity | ].
  - right. left. exists "write to ", "me", "mail", "org", "".
    repeat split; first [ discriminate | simpl; lia ].
  - rewrite H. apply lookup_insert_eq.
Defined.

(** X14: two of the crisis terms of the companion, kill myself and die,
    are forbidden words of the chat room.  A text with one of them in which
    the privacy pattern finds nothing opens the emergency notice in the
    companion and changes nothing else there; sent in a chat room, it gets
    the sender suspended for a day, and the room does not receive it. *)
Theorem crisis_words_suspend_in_chat (s : SpeakerAI.state) (u : User) (r : string)
        (now : Z) (w : commit) (x : ChatRoom.world) (kw : string) :
  In kw ["kill myself"; "die"] ->
  containsIgnoringCase (SpeakerAI.input s) kw ->
  ChatRoom.input (ChatRoom.ui x) = SpeakerAI.input s ->
  test SpeakerAI.privacyPattern (SpeakerAI.input s) = false ->
  truthy r = true ->
  SpeakerAI.handleSend s =
    ({| SpeakerAI.input := SpeakerAI.input s;
        SpeakerAI.messages := SpeakerAI.messages s;
        SpeakerAI.loading := SpeakerAI.loading s;
        SpeakerAI.matching := SpeakerAI.matching s;
        SpeakerAI.warning := SpeakerAI.warning s;
        SpeakerAI.emergencyModal := true |}, []) /\
  ChatRoom.send (Some u) (Some r) now w x =
    {| ChatRoom.ui := ChatRoom.ui x;
       ChatRoom.storage :=
         <["ban_expiry" := numberToString (now + 86400000)]> (ChatRoom.storage x);
       ChatRoom.store := ChatRoom.store x;
       ChatRoom.reloaded := true |}.
Proof.
  intros Hk Hc Hx Hp Hr.
  assert (In kw SpeakerAI.riskKeywords) as Hrisk by (simpl in *; tauto).
  split; [by apply (handleSend_escalates s kw)|].
  simpl in Hk. destruct Hk as [<-|[<-|[]]].
  - apply (send_toxic u r now w x "kill"); [simpl; tauto | | exact Hr].
    rewrite Hx. exact (contains_inner _ "" "kill" " myself" Hc).
  - apply (send_toxic u r now w x "die"); [simpl; tauto | | exact Hr].
    by rewrite Hx.
Qed.

Lemma crisis_words_suspend_in_chat_witness :
  let x := {| ChatRoom.ui := {| ChatRoom.messages := []; ChatRoom.input := "I want to die" |};
              ChatRoom.storage := ∅; ChatRoom.store := Firestore.empty;
              ChatRoom.reloaded := false |} in
  SpeakerAI.emergencyModal
    (SpeakerAI.handleSend (SpeakerAI.setInput "I want to die" SpeakerAI.initial)).1 = true /\
  ChatRoom.storage
    (ChatRoom.send (Some {| uid := "u1"; displayName := None |}) (Some "room") 1000
       {| autoId := "m1"; serverTime := 9 |} x) !! "ban_expiry"
  = Some "86401000".
Proof.
  intros x.
  destruct (crisis_words_suspend_in_chat
              (SpeakerAI.setInput "I want to die" SpeakerAI.initial)
              {| uid := "u1"; displayName := None |} "room" 1000
              {| autoId := "m1"; serverTime := 9 |} x "die"
              ltac:(simpl; tauto)
              ltac:(exists "I want to ", "die", ""; split; reflexivity)
              eq_refl ltac:(vm_compute; reflexivity) eq_refl) as [H1 H2].
  rewrite H1, H2. split; reflexivity.
Defined.

(** X15: a text made of white space only is ignored by every surface:
    [handleSend], [send], [rephrase] and [postEcho] leave the page and the
    store as they are. *)
Theorem blank_text_is_ignored (t : string) (s : SpeakerAI.state) (x : ChatRoom.world)
        (user : option User) (roomId key : option string) (now : Z) (w : commit)
        (net : Gemini.network) (shown m : string) (j echoes : gmap string doc) :
  allWhite t = true ->
  SpeakerAI.handleSend (SpeakerAI.setInput t s) = (SpeakerAI.setInput t s, []) /\
  ChatRoom.send user roomId now w (ChatRoom.setInput t x) = ChatRoom.setInput t x /\
  Journal.rephrase user key net w ({| Journal.entry := t; Journal.rephrased := shown |}, j) =
    ({| Journal.entry := t; Journal.rephrased := shown |}, j) /\
  Community.postEcho user m w (t, echoes) = (t, echoes).
Proof.
  intros H. repeat split.
  - unfold SpeakerAI.handleSend. simpl. by rewrite trim_truthy, H.
  - unfold ChatRoom.send. simpl. by rewrite trim_truthy, H.
  - unfold Journal.rephrase. simpl. rewrite trim_truthy, H. by destruct user.
  - unfold Community.postEcho. simpl. rewrite trim_truthy, H. by destruct user.
Qed.

Lemma blank_text_is_ignored_witness :
  Community.postEcho (Some {| uid := "u1"; displayName := None |}) "calm"
    {| autoId := "e1"; serverTime := 5 |} ("   ", ∅) = ("   ", ∅).
Proof.
  exact (proj2 (proj2 (proj2 (blank_text_is_ignored "   " SpeakerAI.initial
           {| ChatRoom.ui := {| ChatRoom.messages := []; ChatRoom.input := "" |};
              ChatRoom.storage := ∅; ChatRoom.store := Firestore.empty;
              ChatRoom.reloaded := false |}
           (Some {| uid := "u1"; displayName := None |}) None None 0
           {| autoId := "e1"; serverTime := 5 |} Gemini.NoAnswer "" "calm" ∅ ∅ eq_refl)))).
Defined.

(** ** The requests between the surfaces: badge, hub and companion *)

Section RequestFacts.

Import Ledger.

Lemma writes_preserve (P : doc -> Prop) :
  (forall u summary t, P (resolve t <$> SpeakerAI.pendingRequest u summary)) ->
  (forall req u room t, P (resolve t <$> ListenerHub.acceptedRequest req u room)) ->
  forall d d', writes d d' ->
    (forall i r, requests d !! i = Some r -> P r) ->
    forall i r, requests d' !! i = Some r -> P r.
Proof.
  intros Hp Ha d d' Hw IH i r.
  destruct Hw as [u realAI w s d0 _|user req now w1 w2 op d0 _ Hop|user roomId now w x].
  - simpl. rewrite lookup_insert. case_decide; [intros [= <-]; apply Hp | apply IH].
  - unfold ListenerHub.acceptRequest in Hop. destruct user as [u|]; [|destruct Hop].
    destruct (req !! "id") as [[id| |]|] eqn:Hid; simpl in Hop;
      try (destruct Hop as [<-|[]]; apply IH).
    destruct Hop as [<-|[<-|[<-|[]]]]; simpl.
    + apply IH.
    + rewrite lookup_delete. case_decide; [discriminate | apply IH].
    + rewrite lookup_insert. case_decide; [intros [= <-]; apply Ha | apply IH].
  - assert (requests (ChatRoom.store (ChatRoom.send user roomId now w x))
            = requests (ChatRoom.store x)) as ->; [|apply IH].
    unfold ChatRoom.send.
    repeat (match goal with
            | |- context [if ?b then _ else _] => destruct b
            | |- context [match ?o with Some _ => _ | None => _ end] => destruct o
            end); reflexivity.
Qed.

Lemma reachable_stamped (d : db) :
  reachable d -> forall i r, requests d !! i = Some r -> is_Some (r !! "timestamp").
Proof.
  unfold reachable. revert d.
  apply (rtc_ind_r (fun d => forall i r, requests d !! i = Some r -> is_Some (r !! "timestamp"))
           Firestore.empty).
  - intros i r Hr. simpl in Hr. by rewrite lookup_empty in Hr.
  - intros d1 d2 _ Hw IH.
    refine (writes_preserve (fun r => is_Some (r !! "timestamp")) _ _ d1 d2 Hw IH).
    + intros u summary t. by eexists.
    + intros req u room t. destruct (accepted_fields req u room t) as (_ & _ & _ & Ht & _).
      rewrite Ht. by eexists.
Qed.

Lemma pending_listed (c : gmap string doc) :
  (forall i r, c !! i = Some r -> is_Some (r !! "timestamp")) ->
  orderByDesc "timestamp" (whereEq "status" (VStr "pending") c)
    ≡ₚ map_to_list (whereEq "status" (VStr "pending") c).
Proof.
  intros H. unfold orderByDesc. rewrite reverse_Permutation.
  apply orderByAsc_permutation. intros i m Hm.
  apply map_lookup_filter_Some in Hm as [Hm _]. by apply (H i).
Qed.

Lemma run_accept_requests (l : User) (req : doc) (i : string) (now : Z) (w1 w2 : commit)
      (d : db) :
  req !! "id" = Some (VStr i) ->
  requests (ListenerHub.run
              (ListenerHub.operations (ListenerHub.acceptRequest (Some l) req now w1 w2)) d)
  = <[autoId w2 := resolve (serverTime w2) <$>
                     ListenerHub.acceptedRequest req l (ListenerHub.roomIdOf req l now)]>
      (delete i (requests d)).
Proof. intros H. by rewrite (acceptRequest_signed_in l req i now w1 w2 H). Qed.

Lemma pending_after_accept (l : User) (req : doc) (room i : string) (t : Z) (k : string)
      (c : gmap string doc) :
  c !! k = None ->
  whereEq "status" (VStr "pending")
    (<[k := resolve t <$> ListenerHub.acceptedRequest req l room]> (delete i c))
  = delete i (whereEq "status" (VStr "pending") c).
Proof.
  intros Hk. rewrite whereEq_insert_other.
  - unfold whereEq. apply map_filter_delete.
  - destruct (accepted_fields req l room t) as (-> & _). discriminate.
  - rewrite lookup_delete_None. by right.
Qed.

End RequestFacts.

(** X16: on every store the handlers can produce, the badge of the
    navigation bar counts exactly the requests that the listener hub
    lists, and it is shown exactly when the hub has any. *)
Theorem badge_counts_listed_requests (d : db) :
  Ledger.reachable d ->
  Navbar.requestCount d = length (ListenerHub.watchPending d) /\
  (Navbar.badgeShown d = true <-> ListenerHub.watchPending d <> []).
Proof.
  intros H.
  assert (Navbar.requestCount d = length (ListenerHub.watchPending d)) as E.
  { unfold Navbar.requestCount, ListenerHub.watchPending.
    rewrite length_fmap, (pending_listed _ (reachable_stamped d H)).
    by rewrite length_map_to_list. }
  split; [exact E|]. unfold Navbar.badgeShown. rewrite E, Nat.ltb_lt.
  destruct (ListenerHub.watchPending d); simpl; split; (lia || done).
Qed.

Lemma badge_counts_listed_requests_witness :
  let d := (SpeakerAI.respondWith (Some {| uid := "u1"; displayName := None |}) None
              {| autoId := "r1"; serverTime := 3 |} (SpeakerAI.initial, Firestore.empty)).2 in
  Navbar.requestCount d = length (ListenerHub.watchPending d).
Proof.
  intros d. apply (badge_counts_listed_requests d).
  apply rtc_once.
  exact (Ledger.writes_submit {| uid := "u1"; displayName := None |} None
           {| autoId := "r1"; serverTime := 3 |} SpeakerAI.initial Firestore.empty eq_refl).
Defined.

(** X17: a request submitted by the companion, under an identifier the
    ledger does not have yet, is one more request in the listener hub and
    raises the badge by one, when every record of the ledger has a time. *)
Theorem submission_reaches_the_hub (u : User) (realAI : option string) (w : commit)
        (s : SpeakerAI.state) (d : db) :
  (forall i r, requests d !! i = Some r -> is_Some (r !! "timestamp")) ->
  requests d !! autoId w = None ->
  let d' := (SpeakerAI.respondWith (Some u) realAI w (s, d)).2 in
  ListenerHub.watchPending d' ≡ₚ
    snapshotObject (autoId w, resolve (serverTime w) <$>
                                SpeakerAI.pendingRequest u (SpeakerAI.aiResponse realAI))
      :: ListenerHub.watchPending d /\
  Navbar.requestCount d' = S (Navbar.requestCount d).
Proof.
  intros Hs Hf d'.
  assert (requests d' = <[autoId w := resolve (serverTime w) <$>
                            SpeakerAI.pendingRequest u (SpeakerAI.aiResponse realAI)]> (requests d))
    as E by reflexivity.
  assert (whereEq "status" (VStr "pending") (requests d')
          = <[autoId w := resolve (serverTime w) <$>
                SpeakerAI.pendingRequest u (SpeakerAI.aiResponse realAI)]>
              (whereEq "status" (VStr "pending") (requests d))) as Ew.
  { rewrite E. by apply whereEq_insert_match. }
  split.
  - unfold ListenerHub.watchPending. rewrite !pending_listed.
    + rewrite Ew, map_to_list_insert by (by apply whereEq_fresh). reflexivity.
    + exact Hs.
    + intros i r. rewrite E, lookup_insert. case_decide; [intros [= <-]; by eexists | apply Hs].
  - unfold Navbar.requestCount. rewrite Ew.
    by apply map_size_insert_None, whereEq_fresh.
Qed.

Lemma submission_reaches_the_hub_witness :
  Navbar.requestCount
    (SpeakerAI.respondWith (Some {| uid := "u1"; displayName := None |}) None
       {| autoId := "r1"; serverTime := 3 |} (SpeakerAI.initial, Firestore.empty)).2
  = 1%nat.
Proof.
  refine (proj2 (submission_reaches_the_hub {| uid := "u1"; displayName := None |} None
                   {| autoId := "r1"; serverTime := 3 |} SpeakerAI.initial Firestore.empty
                   _ eq_refl)).
  intros i r Hr. simpl in Hr. by rewrite lookup_empty in Hr.
Defined.

(** X18: when all three writes of an acceptance of a pending request are
    done, the request has left the listener hub and nothing else has
    changed there, and the badge is one lower. *)
Theorem acceptance_leaves_the_hub (l : User) (req data : doc) (i : string) (now : Z)
        (w1 w2 : commit) (d : db) :
  (forall k r, requests d !! k = Some r -> is_Some (r !! "timestamp")) ->
  requests d !! i = Some data ->
  data !! "status" = Some (VStr "pending") ->
  req !! "id" = Some (VStr i) ->
  requests d !! autoId w2 = None ->
  let d' := ListenerHub.run
              (ListenerHub.operations (ListenerHub.acceptRequest (Some l) req now w1 w2)) d in
  ListenerHub.watchPending d ≡ₚ snapshotObject (i, data) :: ListenerHub.watchPending d' /\
  Navbar.requestCount d = S (Navbar.requestCount d').
Proof.
  intros Hs Hi Hp Hid Hf d'.
  assert (whereEq "status" (VStr "pending") (requests d')
          = delete i (whereEq "status" (VStr "pending") (requests d))) as Ew.
  { unfold d'. rewrite (run_accept_requests l req i now w1 w2 d Hid).
    by apply pending_after_accept. }
  assert (whereEq "status" (VStr "pending") (requests d) !! i = Some data) as Hin.
  { unfold whereEq. by apply map_lookup_filter_Some. }
  split.
  - unfold ListenerHub.watchPending. rewrite !pending_listed.
    + rewrite Ew. rewrite <- fmap_cons. apply fmap_Permutation.
      symmetry. by apply map_to_list_delete.
    + intros k r. unfold d'. rewrite (run_accept_requests l req i now w1 w2 d Hid).
      rewrite lookup_insert. case_decide.
      * intros [= <-]. destruct (accepted_fields req l (ListenerHub.roomIdOf req l now)
                                   (serverTime w2)) as (_ & _ & _ & -> & _). by eexists.
      * rewrite lookup_delete. case_decide; [discriminate | apply Hs].
    + exact Hs.
  - unfold Navbar.requestCount. rewrite Ew, map_size_delete_Some by (by eexists).
    assert (size (whereEq "status" (VStr "pending") (requests d)) <> 0)%nat; [|lia].
    intros Hz%map_size_empty_iff. rewrite Hz in Hin. by rewrite lookup_empty in Hin.
Qed.

Lemma acceptance_leaves_the_hub_witness :
  let u := {| uid := "u1"; displayName := None |} in
  let l := {| uid := "l1"; displayName := None |} in
  let data := resolve 3 <$> SpeakerAI.pendingRequest u SpeakerAI.cannedResponse in
  let d := {| requests := {[ "r1" := data ]}; rooms := ∅ |} in
  Navbar.requestCount d =
    S (Navbar.requestCount
         (ListenerHub.run
            (ListenerHub.operations
               (ListenerHub.acceptRequest (Some l) (snapshotObject ("r1", data)) 10
                  {| autoId := "m1"; serverTime := 4 |} {| autoId := "r2"; serverTime := 5 |}))
            d)).
Proof.
  intros u l data d.
  refine (proj2 (acceptance_leaves_the_hub l (snapshotObject ("r1", data)) data "r1" 10
                   {| autoId := "m1"; serverTime := 4 |} {| autoId := "r2"; serverTime := 5 |}
                   d _ _ _ _ _)).
  - intros k r Hr. simpl in Hr. apply lookup_singleton_Some in Hr as [_ <-]. by eexists.
  - apply lookup_singleton_eq.
  - reflexivity.
  - reflexivity.
  - reflexivity.
Defined.

(** ** The companion waiting for a listener *)

Section SpeakerWatchFacts.

#[local] Instance name_le_total : Total Collections.name_le.
Proof. intros x y. unfold Collections.name_le. apply total, _. Qed.

#[local] Instance name_le_trans : Transitive Collections.name_le.
Proof. intros x y z. unfold Collections.name_le. apply transitivity. Qed.

Lemma truthy_app_r (a b : string) : truthy b = true -> truthy (a +:+ b) = true.
Proof. destruct a; simpl; [done | reflexivity]. Qed.

Lemma byName_singleton (i : string) (r : doc) : Collections.byName {[ i := r ]} = [(i, r)].
Proof.
  unfold Collections.byName. apply Permutation_singleton_r.
  by rewrite merge_sort_Permutation, map_to_list_singleton.
Qed.

Lemma byName_empty (c : gmap string doc) : Collections.byName c = [] -> c = ∅.
Proof.
  unfold Collections.byName. intros H. apply map_to_list_empty_iff.
  apply Permutation_nil_r. by rewrite <- H, merge_sort_Permutation.
Qed.

Lemma byName_elem (c : gmap string doc) (i : string) (r : doc) :
  (i, r) ∈ Collections.byName c <-> c !! i = Some r.
Proof.
  unfold Collections.byName. by rewrite merge_sort_Permutation, elem_of_map_to_list.
Qed.

(** The first document of a query without [orderBy] is the one with the
    least identifier. *)
Lemma byName_head (c : gmap string doc) (i : string) (r : doc) :
  c !! i = Some r ->
  (forall j r', c !! j = Some r' -> String.le i j) ->
  exists rest, Collections.byName c = (i, r) :: rest.
Proof.
  intros Hi Hle.
  pose proof (StronglySorted_merge_sort Collections.name_le (map_to_list c)) as Hs.
  fold (Collections.byName c) in Hs.
  pose proof (proj2 (byName_elem c i r) Hi) as Hin.
  destruct (Collections.byName c) as [|[k rk] rest] eqn:E; [by apply elem_of_nil in Hin|].
  exists rest. f_equal.
  assert (c !! k = Some rk) as Hk by (apply byName_elem; rewrite E; left).
  assert (k = i) as ->.
  { apply elem_of_cons in Hin as [[= -> ->]|Hin]; [reflexivity|].
    apply StronglySorted_inv in Hs as [_ Hall].
    rewrite Forall_forall in Hall. specialize (Hall _ Hin).
    unfold Collections.name_le in Hall. simpl in Hall.
    apply (anti_symm String.le); [exact Hall | by apply (Hle k rk)]. }
  congruence.
Qed.

Lemma onSnapshot_head (u : User) (d : db) (i : string) (r : doc) (rest : list (string * doc))
      (room : string) :
  SpeakerWatch.acceptedOf u d = (i, r) :: rest ->
  r !! "roomId" = Some (VStr room) -> truthy room = true ->
  SpeakerWatch.onSnapshot true (Some u) d = Some ("/chat/" +:+ room).
Proof.
  intros E Hr Ht. unfold SpeakerWatch.onSnapshot. rewrite E. cbn [snd]. rewrite Hr.
  unfold Collections.truthyValue. by rewrite Ht.
Qed.

End SpeakerWatchFacts.

(** X19: when a listener has accepted a request of a speaker who has no
    other accepted request, the waiting companion of the speaker goes to
    the room the listener goes to. *)
Theorem speaker_meets_the_listener (u l : User) (req : doc) (i : string) (now : Z)
        (w1 w2 : commit) (d : db) :
  req !! "id" = Some (VStr i) ->
  req !! "speakerId" = Some (VStr (uid u)) ->
  SpeakerWatch.acceptedOf u d = [] ->
  let c := ListenerHub.acceptRequest (Some l) req now w1 w2 in
  SpeakerWatch.onSnapshot true (Some u) (ListenerHub.run (ListenerHub.operations c) d)
  = ListenerHub.navigates c /\
  ListenerHub.navigates c =
    Some ("/chat/" +:+ uid u +:+ "_" +:+ uid l +:+ "_" +:+ numberToString now).
Proof.
  intros Hid Hsp Hnone c.
  assert (ListenerHub.navigates c = Some ("/chat/" +:+ ListenerHub.roomIdOf req l now)) as Hn.
  { unfold c. by rewrite (acceptRequest_signed_in l req i now w1 w2 Hid). }
  assert (ListenerHub.roomIdOf req l now
          = uid u +:+ "_" +:+ uid l +:+ "_" +:+ numberToString now) as Hroom.
  { unfold ListenerHub.roomIdOf. by rewrite Hsp. }
  split; [|by rewrite Hn, Hroom]. rewrite Hn.
  set (acc := resolve (serverTime w2) <$>
                ListenerHub.acceptedRequest req l (ListenerHub.roomIdOf req l now)).
  destruct (accepted_fields req l (ListenerHub.roomIdOf req l now) (serverTime w2))
    as (Hst & Hrm & _ & _ & Hrest). fold acc in Hst, Hrm, Hrest.
  assert (acc !! "speakerId" = Some (VStr (uid u))) as Hs.
  { rewrite Hrest by discriminate. by rewrite Hsp. }
  apply (onSnapshot_head u _ (autoId w2) acc []); [|exact Hrm|].
  - unfold SpeakerWatch.acceptedOf, c.
    rewrite (run_accept_requests l req i now w1 w2 d Hid). fold acc.
    rewrite (whereEq_insert_match _ _ _ _ _ Hs), (whereEq_insert_match _ _ _ _ _ Hst).
    unfold whereEq at 1 2. rewrite !map_filter_delete.
    apply byName_empty in Hnone. unfold whereEq in Hnone. rewrite Hnone.
    rewrite delete_empty. apply byName_singleton.
  - rewrite Hroom. apply truthy_app_r. reflexivity.
Qed.

Lemma speaker_meets_the_listener_witness :
  let u := {| uid := "u1"; displayName := None |} in
  let l := {| uid := "l1"; displayName := None |} in
  let data := resolve 3 <$> SpeakerAI.pendingRequest u SpeakerAI.cannedResponse in
  let d := {| requests := {[ "r1" := data ]}; rooms := ∅ |} in
  SpeakerWatch.onSnapshot true (Some u)
    (ListenerHub.run
       (ListenerHub.operations
          (ListenerHub.acceptRequest (Some l) (snapshotObject ("r1", data)) 10
             {| autoId := "m1"; serverTime := 4 |} {| autoId := "r2"; serverTime := 5 |})) d)
  = Some "/chat/u1_l1_10".
Proof.
  intros u l data d.
  destruct (speaker_meets_the_listener u l (snapshotObject ("r1", data)) "r1" 10
              {| autoId := "m1"; serverTime := 4 |} {| autoId := "r2"; serverTime := 5 |} d
              eq_refl eq_refl eq_refl) as [H1 H2].
  rewrite H1. exact H2.
Defined.

(** X20: the companion looks at the first accepted request of the speaker
    only, and the query has no order: of several accepted requests, the
    one with the least document identifier decides the room, whichever
    was accepted last. *)
Theorem speaker_follows_least_identifier (u : User) (d : db) (i : string) (r : doc)
        (room : string) :
  requests d !! i = Some r ->
  r !! "speakerId" = Some (VStr (uid u)) ->
  r !! "status" = Some (VStr "accepted") ->
  r !! "roomId" = Some (VStr room) ->
  truthy room = true ->
  (forall j r', requests d !! j = Some r' ->
                r' !! "speakerId" = Some (VStr (uid u)) ->
                r' !! "status" = Some (VStr "accepted") -> String.le i j) ->
  SpeakerWatch.onSnapshot true (Some u) d = Some ("/chat/" +:+ room).
Proof.
  intros Hi Hs Hst Hr Ht Hle.
  destruct (byName_head
              (whereEq "status" (VStr "accepted")
                 (whereEq "speakerId" (VStr (uid u)) (requests d))) i r) as [rest E].
  - unfold whereEq. rewrite !map_lookup_filter_Some. auto.
  - intros j r'. unfold whereEq. rewrite !map_lookup_filter_Some.
    intros [[Hj Hs'] Hst']. by apply (Hle j r').
  - by apply (onSnapshot_head u d i r rest room).
Qed.

Lemma speaker_follows_least_identifier_witness :
  let u := {| uid := "u1"; displayName := None |} in
  let first := {[ "speakerId" := VStr "u1"; "status" := VStr "accepted";
                  "roomId" := VStr "u1_l1_10"; "timestamp" := VTime 5 ]} in
  let second := {[ "speakerId" := VStr "u1"; "status" := VStr "accepted";
                   "roomId" := VStr "u1_l2_20"; "timestamp" := VTime 9 ]} in
  SpeakerWatch.onSnapshot true (Some u)
    {| requests := {[ "b" := first; "a" := second ]}; rooms := ∅ |}
  = Some "/chat/u1_l2_20".
Proof.
  intros u first second.
  apply (speaker_follows_least_identifier u _ "a" second "u1_l2_20");
    try reflexivity.
  intros j r' Hj _ _. simpl in Hj.
  apply lookup_insert_Some in Hj as [[<- _]|[_ Hj]]; [by vm_compute|].
  apply lookup_singleton_Some in Hj as [<- _]. reflexivity.
Defined.

(** ** Text generation, the suspension and the insights *)

Section MoreFacts.

Lemma orNull_Some (t r : string) :
  Gemini.orNull t = Some r <-> t = r /\ truthy r = true.
Proof.
  unfold Gemini.orNull. destruct (truthy t) eqn:E; split.
  - intros [= <-]. by split.
  - by intros [-> _].
  - discriminate.
  - intros [-> H]. congruence.
Qed.

Lemma countOf_wordless (words entries : list string) :
  (forall text w, In text entries -> In w words -> includes text w = false) ->
  Insights.countOf words entries = 0%nat.
Proof.
  intros H. unfold Insights.countOf. induction entries as [|text l IH]; [reflexivity|].
  rewrite fmap_cons.
  match goal with |- list_sum (?a :: ?l) = _ => change (a + list_sum l = 0)%nat end.
  rewrite IH by (intros t w Ht; apply H; by right).
  assert (List.filter (fun word => includes text word) words = []) as ->; [|reflexivity].
  assert (forall w, In w words -> includes text w = false) as Hw
    by (intros w; apply H; by left).
  clear -Hw. induction words as [|w ws IH]; [reflexivity|]. simpl.
  rewrite (Hw w) by (by left). apply IH. intros w' Hin. apply Hw. by right.
Qed.

End MoreFacts.

(** X21: [fetchGemini] yields a text in one case only: the key is
    configured and at least 20 characters long, the response headers arrive
    in less than 5000 ms, and the body has a candidate text that is not
    empty; the call then settles when the body has been read. *)
Theorem fetchGemini_yields_text_iff (key : option string) (p : string) (net : Gemini.network)
        (t : Z) (r : string) :
  Gemini.fetchGemini key p net = Gemini.Settled t (Some r) <->
  Gemini.keyUsable key = true /\
  exists th d, net = Gemini.Headers th (Gemini.BodyText d r) /\
               th < Gemini.timeout /\ t = th + d /\ truthy r = true.
Proof.
  unfold Gemini.fetchGemini. split.
  - destruct (Gemini.keyUsable key); [|discriminate]. simpl.
    destruct net as [a|a [d txt|d|d|]|]; try destruct (Z.ltb_spec a Gemini.timeout);
      try discriminate.
    intros [= <- [-> Hr]%orNull_Some]. split; [reflexivity|]. by exists a, d.
  - intros (-> & th & d & -> & Hlt & -> & Hr). simpl.
    apply Z.ltb_lt in Hlt. rewrite Hlt. f_equal. apply orNull_Some. by split.
Qed.

(** X22: one suspension lasts a day.  After a forbidden word sent at time
    [now], a start of the client before [now] plus 24 hours shows the
    notice and keeps the stored expiry; a start at or after that time shows
    the surface and leaves the storage as it was without the key. *)
Theorem suspension_lasts_a_day (u : User) (r : string) (now t : Z) (w : commit)
        (x : ChatRoom.world) (kw : string) :
  In kw ChatRoom.toxicityKeywords ->
  containsIgnoringCase (ChatRoom.input (ChatRoom.ui x)) kw ->
  truthy r = true ->
  let ls := ChatRoom.storage (ChatRoom.send (Some u) (Some r) now w x) in
  let start := AppContent.onStart t (AppContent.initial, ls) in
  (t < now + 86400000 ->
     start.2 = ls /\ exists left, AppContent.render start.1 = AppContent.AccessRevoked left) /\
  (now + 86400000 <= t ->
     start = (AppContent.initial, delete "ban_expiry" (ChatRoom.storage x)) /\
     AppContent.render start.1 = AppContent.Surface).
Proof.
  intros Hk Hc Hr ls start. subst ls start.
  rewrite (send_toxic u r now w x kw Hk Hc Hr). cbn [ChatRoom.storage].
  unfold ChatRoom.banDuration. split; intros Ht.
  - rewrite (onStart_future t (now + 86400000)) by (by rewrite ?lookup_insert_eq).
    split; [reflexivity|]. by eexists.
  - rewrite (onStart_past t (now + 86400000)) by (by rewrite ?lookup_insert_eq).
    by rewrite delete_insert_eq.
Qed.

Lemma suspension_lasts_a_day_witness :
  let x := {| ChatRoom.ui := {| ChatRoom.messages := []; ChatRoom.input := "You IDIOT" |};
              ChatRoom.storage := ∅; ChatRoom.store := Firestore.empty;
              ChatRoom.reloaded := false |} in
  AppContent.onStart 86401000
    (AppContent.initial,
     ChatRoom.storage (ChatRoom.send (Some {| uid := "u1"; displayName := None |})
                         (Some "room") 1000 {| autoId := "m1"; serverTime := 9 |} x))
  = (AppContent.initial, ∅).
Proof.
  intros x.
  refine (eq_trans (proj1 (proj2 (suspension_lasts_a_day {| uid := "u1"; displayName := None |}
                     "room" 1000 86401000 {| autoId := "m1"; serverTime := 9 |} x "idiot"
                     _ _ eq_refl) _)) _).
  - simpl. tauto.
  - exists "You ", "IDIOT", "". split; reflexivity.
  - lia.
  - reflexivity.
Defined.

(** X23: a stored expiry that is not empty and does not start with a
    number ends the suspension at the next start: the key is removed and
    the state is left alone.  An empty stored value is left in place, and
    so is the storage when the key is missing. *)
Theorem unreadable_expiry_is_dropped (now : Z) (s : AppContent.state) (ls : localStorage)
        (v : string) :
  ls !! "ban_expiry" = Some v ->
  parseInt v = None ->
  AppContent.onStart now (s, ls) =
    (s, if truthy v then delete "ban_expiry" ls else ls) /\
  AppContent.onStart now (s, delete "ban_expiry" ls) = (s, delete "ban_expiry" ls).
Proof.
  intros Hv Hp. unfold AppContent.onStart. cbn [fst snd].
  rewrite Hv, Hp, lookup_delete_eq. by destruct (truthy v).
Qed.

Lemma unreadable_expiry_is_dropped_witness :
  AppContent.onStart 5 (AppContent.initial, {[ "ban_expiry" := "never" ]})
  = (AppContent.initial, ∅).
Proof.
  refine (eq_trans (proj1 (unreadable_expiry_is_dropped 5 AppContent.initial
                             {[ "ban_expiry" := "never" ]} "never" eq_refl eq_refl)) _).
  reflexivity.
Defined.

(** X24: the start-up effect run twice at the same time gives what one
    run gives, whatever the storage holds. *)
Theorem onStart_twice (now : Z) (sl : AppContent.state * localStorage) :
  AppContent.onStart now (AppContent.onStart now sl) = AppContent.onStart now sl.
Proof.
  destruct sl as [s ls]. unfold AppContent.onStart. cbn [fst snd].
  destruct (ls !! "ban_expiry") as [v|] eqn:Hv;
    [destruct (truthy v) eqn:Ht;
       [destruct (parseInt v) as [e|] eqn:Hp; [destruct (0 <? e - now) eqn:Hlt|]|]|];
    cbn [fst snd]; rewrite ?Hv, ?Ht, ?Hp, ?Hlt, ?lookup_delete_eq; reflexivity.
Qed.

(** X25: the summary of a request is the reply the companion showed to
    the speaker, not what the speaker wrote: when the timer callback of a
    signed-in speaker resumes, the last message of the conversation and the
    summary of the new record are the same text, which is not empty, and
    which is the fixed reply when no usable key is configured. *)
Theorem summary_is_the_reply (e : SpeakerAI.env) (u : User) (text : string)
        (sd out : SpeakerAI.state * db) :
  SpeakerAI.user e = Some u ->
  SpeakerAI.runTask e (SpeakerAI.Respond text) sd = Some out ->
  exists reply record,
    last (SpeakerAI.messages out.1) =
      Some {| SpeakerAI.mrole := SpeakerAI.RoleAssistant; SpeakerAI.content := reply |} /\
    requests out.2 !! autoId (SpeakerAI.write e) = Some record /\
    record !! "summary" = Some (VStr reply) /\
    record !! "status" = Some (VStr "pending") /\
    truthy reply = true /\
    (Gemini.keyUsable (SpeakerAI.apiKey e) = false -> reply = SpeakerAI.cannedResponse).
Proof.
  intros Hu. unfold SpeakerAI.runTask.
  destruct (Gemini.fetchGemini _ _ _) as [t realAI|] eqn:Hf; [|discriminate].
  intros [= <-]. rewrite Hu.
  exists (SpeakerAI.aiResponse realAI),
         (resolve (serverTime (SpeakerAI.write e)) <$>
            SpeakerAI.pendingRequest u (SpeakerAI.aiResponse realAI)).
  split; [apply last_snoc|]. split; [apply lookup_insert_eq|].
  split; [reflexivity|]. split; [reflexivity|]. split; [apply aiResponse_truthy|].
  intros Hk. rewrite (fetchGemini_without_key _ _ _ Hk) in Hf. injection Hf as _ <-. reflexivity.
Qed.

Lemma summary_is_the_reply_witness :
  let e := {| SpeakerAI.user := Some {| uid := "u1"; displayName := None |};
              SpeakerAI.apiKey := None; SpeakerAI.net := Gemini.NoAnswer;
              SpeakerAI.write := {| autoId := "r1"; serverTime := 3 |} |} in
  exists out reply record,
    SpeakerAI.runTask e (SpeakerAI.Respond "I feel alone") (SpeakerAI.initial, Firestore.empty)
      = Some out /\
    requests out.2 !! "r1" = Some record /\
    record !! "summary" = Some (VStr reply) /\
    reply = SpeakerAI.cannedResponse.
Proof.
  intros e.
  destruct (summary_is_the_reply e {| uid := "u1"; displayName := None |} "I feel alone"
              (SpeakerAI.initial, Firestore.empty) _ eq_refl eq_refl)
    as (reply & record & _ & Hr & Hs & _ & _ & Hc).
  eexists _, reply, record. split; [reflexivity|]. split; [exact Hr|].
  split; [exact Hs | by apply Hc].
Defined.

(** X26: when the user has journal entries and none of them contains a
    word of the four lists, every share is zero divided by zero; without
    entries the shares stay as they are.  In both cases the page stops
    loading. *)
Theorem insights_without_keywords (contents : list string) (s : Insights.state) :
  (forall text w, In text contents -> In w (concat (snd <$> Insights.keywords)) ->
                  includes (toLowerCase text) w = false) ->
  let r := Insights.onSnapshot contents s in
  Insights.loading r = false /\
  (contents = [] -> Insights.data r = Insights.data s) /\
  (contents <> [] ->
   Insights.data r = [ ("calm", Insights.Ratio 0 0); ("joy", Insights.Ratio 0 0);
                       ("sorrow", Insights.Ratio 0 0); ("hope", Insights.Ratio 0 0) ] /\
   Forall (fun kv => Insights.isNaN kv.2 = true) (Insights.data r)).
Proof.
  intros H r. split; [reflexivity|]. split; [by intros ->|]. intros Hne.
  assert (forall words, In words (snd <$> Insights.keywords) ->
            Insights.countOf words (toLowerCase <$> contents) = 0%nat) as Hz.
  { intros words Hw. apply countOf_wordless. intros text w Ht Hin.
    apply in_map_iff in Ht as (c & <- & Hc). apply (H c w Hc).
    apply in_concat. eauto. }
  assert (Insights.data r = [ ("calm", Insights.Ratio 0 0); ("joy", Insights.Ratio 0 0);
                              ("sorrow", Insights.Ratio 0 0); ("hope", Insights.Ratio 0 0) ])
    as E.
  { unfold r, Insights.onSnapshot. cbn [Insights.data].
    destruct contents as [|c l]; [done|]. rewrite fmap_cons.
    unfold Insights.total, Insights.countsOf, Insights.keywords.
    cbn [fmap list_fmap fst snd].
    rewrite !Hz by (simpl; tauto). reflexivity. }
  split; [exact E|]. rewrite E. repeat constructor.
Qed.

Lemma insights_without_keywords_witness :
  Insights.data (Insights.onSnapshot ["Rain all day."] Insights.initial)
  = [ ("calm", Insights.Ratio 0 0); ("joy", Insights.Ratio 0 0);
      ("sorrow", Insights.Ratio 0 0); ("hope", Insights.Ratio 0 0) ].
Proof.
  refine (proj1 (proj2 (proj2 (insights_without_keywords ["Rain all day."] Insights.initial _))
                   _)).
  - intros text w [<-|[]] Hw. simpl in Hw.
    repeat (destruct Hw as [<-|Hw]; [reflexivity|]). destruct Hw.
  - discriminate.
Defined.

(** ** From the journal to the control panel *)

(** X27: what a signed-in user writes in the journal is read by the
    control panel: on a journal in which every document has a text, an
    entry with one of the crisis terms suicide, kill myself, hurt myself or
    die is, once [rephrase] has stored it, among the entries of the
    critical watch, with its text and the identifier of its author; the
    filter does not throw. *)
Theorem journal_entry_reaches_the_watch (u : User) (key : option string)
        (net : Gemini.network) (w : commit) (s : Journal.state) (j : gmap string doc)
        (kw : string) :
  (forall i r, j !! i = Some r -> exists c, r !! "content" = Some (VStr c)) ->
  In kw ["suicide"; "kill myself"; "hurt myself"; "die"] ->
  containsIgnoringCase (Journal.entry s) kw ->
  let j' := (Journal.rephrase (Some u) key net w (s, j)).2 in
  exists shown,
    Admin.criticalWatch (snapshotObject <$> Collections.byName j') = Some shown /\
    In (snapshotObject (autoId w, {[ "userId" := VStr (uid u);
                                     "content" := VStr (Journal.entry s);
                                     "timestamp" := VTime (serverTime w) ]})) shown.
Proof.
  intros Hj Hk Hc j'.
  assert (allWhite (Journal.entry s) = false) as Hb.
  { apply (contains_not_blank _ kw Hc).
    simpl in Hk. destruct Hk as [<-|[<-|[<-|[<-|[]]]]]; reflexivity. }
  destruct (rephrase_journal u key net w s j Hb) as [shown0 E].
  assert (j' = <[autoId w := {[ "userId" := VStr (uid u);
                                "content" := VStr (Journal.entry s);
                                "timestamp" := VTime (serverTime w) ]}]> j) as Ej.
  { unfold j'. rewrite E. cbn [snd]. unfold Collections.addDoc.
    by rewrite journalEntry_resolved. }
  set (new := {[ "userId" := VStr (uid u); "content" := VStr (Journal.entry s);
                 "timestamp" := VTime (serverTime w) ]} : doc) in *.
  assert (snapshotObject (autoId w, new) !! "content" = Some (VStr (Journal.entry s))) as Hn.
  { rewrite snapshotObject_field by discriminate. unfold new. by simplify_map_eq. }
  destruct (criticalWatch_filter (snapshotObject <$> Collections.byName j')) as (shown & Hs & Hin).
  - apply Forall_fmap, Forall_forall. intros [i r] Hir. apply byName_elem in Hir.
    cbn [compose]. rewrite snapshotObject_field by discriminate.
    rewrite Ej, lookup_insert in Hir. case_decide.
    + injection Hir as <-. exists (Journal.entry s). unfold new. by simplify_map_eq.
    + by apply (Hj i).
  - exists shown. split; [exact Hs|].
    apply (Hin _ _ Hn). split; [|by apply (covered_crisis_term _ kw)].
    apply list_elem_of_In, list_elem_of_fmap. exists (autoId w, new). split; [reflexivity|].
    apply byName_elem. rewrite Ej. apply lookup_insert_eq.
Qed.

Lemma journal_entry_reaches_the_watch_witness :
  exists shown,
    Admin.criticalWatch
      (snapshotObject <$> Collections.byName
         (Journal.rephrase (Some {| uid := "u1"; displayName := None |}) None Gemini.NoAnswer
            {| autoId := "j1"; serverTime := 7 |}
            ({| Journal.entry := "some days I want to die"; Journal.rephrased := "" |}, ∅)).2)
    = Some shown /\
    In (snapshotObject ("j1", {[ "userId" := VStr "u1";
                                 "content" := VStr "some days I want to die";
                                 "timestamp" := VTime 7 ]})) shown.
Proof.
  apply (journal_entry_reaches_the_watch {| uid := "u1"; displayName := None |} None
           Gemini.NoAnswer {| autoId := "j1"; serverTime := 7 |}
           {| Journal.entry := "some days I want to die"; Journal.rephrased := "" |} ∅ "die").
  - intros i r Hr. by rewrite lookup_empty in Hr.
  - simpl. tauto.
  - exists "some days I want to ", "die", "". split; reflexivity.
Defined.
